(* ===== verification/_CoqProject ===== *)
-Q . S2P
Prelude.v
PyStr.v
Fs.v
Utf8.v
Interp.v
Probes.v
ProbeLogic.v
ProbeSpec.v
Script.v
Lifecycle.v
Processes.v
