(* ===== verification/Prelude.v ===== *)
(** * A verification development of massget's [configure.py]

    The program.  [src/configure.py] is the build-time capability prober
    of massget.  Run from the project root, it creates and enters a
    scratch directory [./configure], registers an exit handler
    [try_cleanup], checks that a few tools are on the [PATH]
    ([check_bin]), that required C headers compile ([check_header]),
    compiles and runs small C programs ([check]), captures the output of
    [uname -m] ([define_stdout]), accumulates [#define] lines in the
    module-global list [GEN], and finally writes [../src/config.h].  A
    mandatory failure calls [exit(1)], which raises [SystemExit]; the exit
    handler then removes the transient files and the scratch directory.

    How the model is built.  The script is translated as a shallow
    embedding into a state-and-exception monad that mirrors the Python
    runtime: a computation takes the interpreter's world (the file system,
    the working directory, the printed transcript, the list [GEN],
    whether the exit handler is registered, and the log of the processes
    [subprocess.run] started) and returns a value or a
    raised Python exception together with the new world.  Exceptions are
    values ([SystemExit n], [OSError e], [UnicodeDecodeError]) and
    [try]/[except] is the combinator [catch], so the difference between
    [except:] (which also catches [SystemExit]) and
    [except BaseException] after [except SystemExit: raise] is kept
    exactly.  What the program does not control - the compiler's verdict,
    the exit code of a probe binary, the output of a shell command, the
    [PATH] - is the interface [Host] (a typeclass), and every theorem is
    proved for every host, or for the hosts its hypotheses describe.

    Files, in dependency order.
    - [Prelude] (this file): Python [str]/[bytes] as lists of integers,
      the generic monad [M] with its notation in [py_scope], its laws,
      the program-logic predicates [preserves], [monotone] (for a
      preorder on states, such as [on_rel eq f]: the field [f] is kept)
      and [raises_only] with their combinators, the tactics and the hint
      database [py].
    - [PyStr]: the string operations the script uses: [str.ljust],
      [str.join], [str.endswith], [str.removesuffix], [repr] of a [str]
      (CPython's [unicode_repr]: quote choice and escapes) and of a list
      of [str], and a parser [unrepr] of the literals [repr] prints.
    - [Fs]: the file system as a [gmap] from resolved paths to nodes
      (directory, text file, executable image), path resolution of
      ["./x"] and [".."], and [os.mkdir], [os.rmdir], [os.remove],
      [os.chdir], [open(p,'w')]; the tree invariant [wf] and its
      preservation by every operation.
    - [Utf8]: [bytes.decode('utf-8')], the strict decoder, the encoder
      and their round trip.
    - [Interp]: the Python world ([world]: file system, working
      directory, transcript of [print], [GEN], the [atexit] flag, the log
      [w_procs] of started processes), the exceptions [exn], the [Host]
      interface (with [os.environ], from which [IS_MSYS2] of line 13 is
      computed), [print], [exit], the [os] wrappers, [shutil.which] and
      [subprocess.run] (gcc with its [-x], [-o] and [-l] options,
      [bash -c], a compiled probe binary by path; a program that is found
      is [started]); what each call may raise, and the program logics
      over it: [keeps_gen] (the call leaves [GEN] alone), [keeps f] for a
      field [f] the file-system calls leave alone ([Untouched]), [frames]
      (the call only touches entries of the working directory) and
      [fs_wf] (the call keeps the tree well formed).
    - [Probes]: [check_bin] (lines 23-28), [check] (31-111),
      [check_header] (114-153), [define_stdout] (156-167), [cleanup_file]
      and [try_cleanup] (170-195), each the whole Python function over
      [Interp]; their exceptions and their functional behaviour, branch
      by branch.
    - [ProbeLogic]: what the probes do to the state: they touch only
      entries of the working directory, keep the tree well formed,
      append at most one line to [GEN], and only single-line [#define]
      directives.
    - [ProbeSpec]: the specification's per-probe state machine (its
      section 5) as a step relation [step] on [phase], its executable
      form [next], determinism and the unique terminal phase
      [spec_result]; the refinement of [check] against it.
    - [Script]: the module body: entering [./configure] (lines 16-20),
      [atexit.register] (198), every call statement of lines 205-332 as
      an element of the data [checks], the header emission (335-337);
      [process], the interpreter run: the exit status and then the exit
      handler.
    - [Lifecycle]: the registration of the exit handler: no call but
      [atexit.register] touches it, so the handler runs on every end of
      the module body once the workspace is entered.
    - [Processes]: the processes a run starts: what each call statement
      may start ([allowed]), the logic [exact]/[within]/[logs] over the
      log [w_procs], and the order and number of the processes of a run.

    What the theorems show (claim ids of the manifest in brackets).
    - [check] classifies every branch that a working directory able to
      hold [test.c] and [test] allows, as the abstract [check_result]
      says: compile failure, run success, run failure, with the macro
      line each records [C1]; on every host and in every world, the host
      fault path included, it raises only the [SystemExit(1)] of a
      mandatory probe [C2].
    - [check_header] always returns, even when mandatory, because its
      bare [except:] swallows [SystemExit] [C3]; it records [#define] or
      [//#define] by the compiler's verdict and leaves [test.c] behind on
      success [C6].  [Script] runs one host without the required
      [curl/urlapi.h]: the run still exits 0 and writes the header.
    - [define_stdout] records the captured text through [repr], so the
      header gets [#define COMPILER_ARCH 'x86_64'], and output that is
      not UTF-8 escapes as an exception [C7].
    - The whole run: a non-zero exit status leaves [src/config.h] as it
      was [C4]; status 0 means [src/config.h] holds the preamble and the
      lines of [GEN] in order [C5].  [Script] runs an abort on a POSIX
      and an MSYS2 host: the exit handler removes the scratch directory
      on the first, and leaves [test.exe] and the directory on the other.
    - [repr] is read back by [unrepr] [C8]; the UTF-8 decoder inverts the
      encoder [C9].
    - [GEN] is append-only: each call statement appends at most one line,
      none for [check_bin] and [cleanup_file] [C10].
    - [check] refines the specification's state machine: its outcome and
      the lines it appends realise the machine's terminal phase [C11],
      except on one path, where the machine records a disabled macro and
      [check] records nothing [C12].
    - Workspace: the exit handler removes a scratch directory that holds
      only [temp], [test.c] and [test] [C13]; on POSIX [check] leaves
      neither [test.c] nor [test] behind [C14].
    - The header: every line of [GEN] is a single line [C15] and a
      [#define] or [//#define] directive [C18]; the text written reads
      back line by line as the preamble and [GEN] [C16].
    - The run exits with status 0 or 1 [C17]; a missing tool exits with 1
      before anything is recorded [C20]; a mandatory compile failure
      prints the compiler's diagnostic verbatim and exits (Scenario E)
      [C21].
    - [removesuffix('\n')] drops exactly one final newline [C19].
    - The exit handler (liveness): once [./configure] is entered, the
      handler runs on every end of the body - return, [SystemExit],
      uncaught fault - exactly once [C22]; when [os.chdir] fails the run
      exits with 1 before line 198 and no handler runs [C23].
    - Processes: a run starts its processes call by call in the order of
      the script, each call a prefix of what it may start (the compiler,
      then the binary, for [check]) [C24], at most 35 in all [C25]; on
      POSIX [check] runs its binary exactly when the compiler returned 0
      [C26].
    - [IS_MSYS2] (line 13) decides the executable [check] runs:
      [./test.exe] exactly for the five [MSYSTEM] values of the script,
      [./test] otherwise [C27].
    The abstract contracts are [check_result] and [define_result] (the
    outcome and the lines appended to [GEN] as functions of the host's
    verdicts) and the machine of [ProbeSpec]; [C1], [C7] and [C11] are
    the refinements of [check] and [define_stdout] against them.

    Bounds and fuel.  The script is straight-line code and every loop is
    a structural recursion over a list, so the model needs no fuel.  The
    one fuelled function is the literal parser [parse_body] of [PyStr]:
    [unrepr] gives it the length of the whole literal, quotes included;
    each step decodes one character from at least one character of the
    literal, so this is more than the steps needed, which [unrepr_repr]
    proves.  Every function of the model is structurally recursive, so
    its termination is by construction and no termination theorem is
    stated: one would hold of any script built from these calls.  What
    can block a real run is an external process (the specification
    accepts a hung compiler as a limitation), and [C25] bounds how many
    a run starts.  Integers are Python integers (unbounded [Z]); exit
    statuses are the values passed to [exit], and [C17] bounds them.

    Not modelled: terminal output beyond the transcript of [print] calls
    (stdout and stderr are one stream, as [print] writes both to
    stdout), asynchronous interrupts ([KeyboardInterrupt]), permissions,
    full disks, symlinks and other processes (a host fault is modelled
    through the file-system state, e.g. a directory where a file is to be
    written), the Unicode printability table of [repr] for non-ASCII code
    points (the [Host] field [isprintable]), and the behaviour of the
    compiler, the probe binaries and the shell, which are the [Host]
    fields [cc], [exec] and [sh]: the theorems hold for every instance.
    The Python runtime and the host toolchain stay partly modelled for
    that reason: they are libraries and programs the script only calls,
    given by their documented behaviour or by the [Host] interface.  The
    imports (lines 1-7) and the docstrings of [check] and [check_header]
    carry no behaviour.  The model takes a host to use the MinGW driver,
    which appends [.exe], exactly when [IS_MSYS2] holds; MSYS2's CLANG
    environments, which [IS_MSYS2] does not recognise, are outside it. *)

From Stdlib Require Export ZArith Ascii String Lia.
From stdpp Require Export base list gmap strings.

Declare Scope py_scope.
Delimit Scope py_scope with py.

(** ** Python text and octets *)

(** A Python [str] is a sequence of code points, [bytes] a sequence of
    octets; both are lists of integers, written with a notation so that
    the list lemmas of stdpp apply to them directly. *)
Abbreviation str := (list Z) (only parsing).
Abbreviation bytes := (list Z) (only parsing).

(** A source literal: the code points of an ASCII Rocq string. *)
Definition u (s : string) : list Z :=
  map (fun a => Z.of_N (N_of_ascii a)) (list_ascii_of_string s).

(** A few code points that the program writes. *)
Definition c_nl : Z := 10.
Definition c_quote : Z := 39.
Definition c_dquote : Z := 34.
Definition c_backslash : Z := 92.
Definition c_slash : Z := 47.

(** ** A state and exception monad *)

(** The result of a computation that may raise: a value or an
    exception. *)
Inductive outcome (E A : Type) : Type :=
| Ret (a : A)
| Exc (e : E).
Arguments Ret {E A} a.
Arguments Exc {E A} e.

(** A computation of the interpreter: state in, outcome and state out.
    The state changes made before an exception are kept, as in Python. *)
Definition M (S E A : Type) : Type := S -> outcome E A * S.

Section Monad.
Context {S E : Type}.

Definition ret {A} (a : A) : M S E A := fun s => (Ret a, s).

Definition bind {A B} (m : M S E A) (k : A -> M S E B) : M S E B :=
  fun s => match m s with
           | (Ret a, s') => k a s'
           | (Exc e, s') => (Exc e, s')
           end.

Definition raise {A} (e : E) : M S E A := fun s => (Exc e, s).

(** [try: m except e: h e]; the handler decides itself whether to
    re-raise, so a clause list is a match in [h]. *)
Definition catch {A} (m : M S E A) (h : E -> M S E A) : M S E A :=
  fun s => match m s with
           | (Ret a, s') => (Ret a, s')
           | (Exc e, s') => h e s'
           end.

Definition get : M S E S := fun s => (Ret s, s).
Definition put (s : S) : M S E unit := fun _ => (Ret tt, s).
Definition modify (f : S -> S) : M S E unit := fun s => (Ret tt, f s).

(** A [for] loop over a list. *)
Fixpoint for_each {A} (l : list A) (body : A -> M S E unit) : M S E unit :=
  match l with
  | [] => ret tt
  | x :: l' => bind (body x) (fun _ => for_each l' body)
  end.
End Monad.

Notation "x <- m ;; k" := (bind m (fun x => k))
  (at level 100, m at level 95, right associativity) : py_scope.
Notation "m ;; k" := (bind m (fun _ => k))
  (at level 100, right associativity) : py_scope.

Open Scope py_scope.

(** ** Monad laws *)

Section MonadLaws.
Context {S E : Type}.

Lemma bind_ret_l {A B} (a : A) (k : A -> M S E B) (s : S) :
  bind (ret a) k s = k a s.
Proof. reflexivity. Qed.

Lemma bind_ret_r {A} (m : M S E A) (s : S) : bind m ret s = m s.
Proof. unfold bind, ret. by destruct (m s) as [[] ?]. Qed.

Lemma bind_assoc {A B C} (m : M S E A) (f : A -> M S E B) (g : B -> M S E C) (s : S) :
  bind (bind m f) g s = bind m (fun a => bind (f a) g) s.
Proof. unfold bind. by destruct (m s) as [[] ?]. Qed.

Lemma bind_raise {A B} (e : E) (k : A -> M S E B) (s : S) :
  bind (raise e) k s = (Exc e, s).
Proof. reflexivity. Qed.

(** Running a bound computation whose first part is known. *)
Lemma bind_Ret {A B} (m : M S E A) (k : A -> M S E B) s a s' :
  m s = (Ret a, s') -> bind m k s = k a s'.
Proof. unfold bind. by intros ->. Qed.

Lemma bind_Exc {A B} (m : M S E A) (k : A -> M S E B) s e s' :
  m s = (Exc e, s') -> bind m k s = (Exc e, s').
Proof. unfold bind. by intros ->. Qed.

Lemma catch_Ret {A} (m : M S E A) h s a s' :
  m s = (Ret a, s') -> catch m h s = (Ret a, s').
Proof. unfold catch. by intros ->. Qed.

Lemma catch_Exc {A} (m : M S E A) h s e s' :
  m s = (Exc e, s') -> catch m h s = h e s'.
Proof. unfold catch. by intros ->. Qed.

(** Stepping through the first call of a [try] body. *)
Lemma catch_bind_Ret {A B} (m : M S E A) (k : A -> M S E B) h s a s' :
  m s = (Ret a, s') -> catch (bind m k) h s = catch (k a) h s'.
Proof. unfold catch, bind. by intros ->. Qed.

Lemma catch_bind_Exc {A B} (m : M S E A) (k : A -> M S E B) h s e s' :
  m s = (Exc e, s') -> catch (bind m k) h s = h e s'.
Proof. unfold catch, bind. by intros ->. Qed.

Lemma catch_raise {A} (e : E) (h : E -> M S E A) s : catch (raise e) h s = h e s.
Proof. reflexivity. Qed.

Lemma catch_ret {A} (a : A) (h : E -> M S E A) s : catch (ret a) h s = (Ret a, s).
Proof. reflexivity. Qed.

(** A property of the state that every step of a computation keeps. *)
Definition preserves {A} (P : S -> Prop) (m : M S E A) : Prop :=
  forall s, P s -> P (snd (m s)).

Lemma preserves_ret {A} P (a : A) : preserves P (ret a).
Proof. by intros s. Qed.

Lemma preserves_raise {A} P (e : E) : preserves P (@raise S E A e).
Proof. by intros s. Qed.

Lemma preserves_bind {A B} P (m : M S E A) (k : A -> M S E B) :
  preserves P m -> (forall a, preserves P (k a)) -> preserves P (bind m k).
Proof.
  intros Hm Hk s Hs. unfold bind.
  specialize (Hm s Hs). destruct (m s) as [[a|e] s']; simpl in *; auto.
  by apply Hk.
Qed.

Lemma preserves_catch {A} P (m : M S E A) (h : E -> M S E A) :
  preserves P m -> (forall e, preserves P (h e)) -> preserves P (catch m h).
Proof.
  intros Hm Hh s Hs. unfold catch.
  specialize (Hm s Hs). destruct (m s) as [[a|e] s']; simpl in *; auto.
  by apply Hh.
Qed.

Lemma preserves_for_each {A} P (l : list A) (body : A -> M S E unit) :
  (forall x, preserves P (body x)) -> preserves P (for_each l body).
Proof.
  intros Hb. induction l as [|x l IH]; simpl.
  - apply preserves_ret.
  - apply preserves_bind; auto.
Qed.

Lemma preserves_for_each_Forall {A} P (l : list A) (body : A -> M S E unit) :
  (forall x, x ∈ l -> preserves P (body x)) -> preserves P (for_each l body).
Proof.
  intros Hb. induction l as [|x l IH]; simpl.
  - apply preserves_ret.
  - apply preserves_bind; [apply Hb; left|intros _; apply IH; intros y Hy; apply Hb; by right].
Qed.

(** A relation between the state before and after a computation that
    is reflexive and transitive is kept by the whole computation when
    every primitive step keeps it. *)
Definition monotone {A} (R : S -> S -> Prop) (m : M S E A) : Prop :=
  forall s, R s (snd (m s)).

Context (R : S -> S -> Prop) `{!PreOrder R}.

Lemma monotone_ret {A} (a : A) : monotone R (ret a).
Proof. intros s. simpl. reflexivity. Qed.

Lemma monotone_raise {A} (e : E) : monotone R (@raise S E A e).
Proof. intros s. simpl. reflexivity. Qed.

Lemma monotone_bind {A B} (m : M S E A) (k : A -> M S E B) :
  monotone R m -> (forall a, monotone R (k a)) -> monotone R (bind m k).
Proof.
  intros Hm Hk s. unfold bind. specialize (Hm s).
  destruct (m s) as [[a|e] s']; simpl in *; [|done].
  etrans; [exact Hm|apply Hk].
Qed.

Lemma monotone_catch {A} (m : M S E A) (h : E -> M S E A) :
  monotone R m -> (forall e, monotone R (h e)) -> monotone R (catch m h).
Proof.
  intros Hm Hh s. unfold catch. specialize (Hm s).
  destruct (m s) as [[a|e] s']; simpl in *; [done|].
  etrans; [exact Hm|apply Hh].
Qed.

Lemma monotone_for_each {A} (l : list A) (body : A -> M S E unit) :
  (forall x, monotone R (body x)) -> monotone R (for_each l body).
Proof.
  intros Hb. induction l as [|x l IH]; simpl.
  - apply monotone_ret.
  - apply monotone_bind; auto.
Qed.

Lemma monotone_get : monotone R get.
Proof. intros s. simpl. reflexivity. Qed.

Lemma monotone_modify f : (forall s, R s (f s)) -> monotone R (modify f).
Proof. intros Hf s. apply Hf. Qed.
End MonadLaws.

(** A relation on states read through one of their fields: the order
    of the field's values pulled back along the projection. *)
Definition on_rel {A B} (R : B -> B -> Prop) (f : A -> B) : A -> A -> Prop :=
  fun x y => R (f x) (f y).

#[export] Instance on_rel_preorder {A B} (R : B -> B -> Prop) (f : A -> B) :
  PreOrder R -> PreOrder (on_rel R f).
Proof. intros [Hr Ht]. split; [intros x; apply Hr|intros x y z; apply Ht]. Qed.

(** Keeping a field: the states agree on it. *)
#[export] Instance on_rel_eq_preorder {A B} (f : A -> B) : PreOrder (on_rel (@eq B) f).
Proof. apply on_rel_preorder. split; [intros ?; reflexivity|intros ??? -> ->; reflexivity]. Qed.

(** ** Which exceptions can escape *)

Section Raises.
Context {S E : Type}.

(** Every exception that [m] lets escape satisfies [P]. *)
Definition raises_only {A} (P : E -> Prop) (m : M S E A) : Prop :=
  forall s e s', m s = (Exc e, s') -> P e.

Lemma raises_only_ret {A} P (a : A) : raises_only P (ret a).
Proof. by intros s e s' [=]. Qed.

Lemma raises_only_raise {A} (P : E -> Prop) e : P e -> raises_only P (@raise S E A e).
Proof. by intros He s e' s' [= <- _]. Qed.

Lemma raises_only_modify P f : raises_only P (@modify S E f).
Proof. by intros s e s' [=]. Qed.

Lemma raises_only_get P : raises_only P (@get S E).
Proof. by intros s e s' [=]. Qed.

Lemma raises_only_bind {A B} P (m : M S E A) (k : A -> M S E B) :
  raises_only P m -> (forall a, raises_only P (k a)) -> raises_only P (bind m k).
Proof.
  intros Hm Hk s e s'. unfold bind.
  destruct (m s) as [[a|e'] s''] eqn:E1; [apply Hk|]. intros [= <- _]. by eapply Hm.
Qed.

(** The handler sees exactly what the body raised. *)
Lemma raises_only_catch {A} (P Q : E -> Prop) (m : M S E A) (h : E -> M S E A) :
  raises_only Q m -> (forall e, Q e -> raises_only P (h e)) -> raises_only P (catch m h).
Proof.
  intros Hm Hh s e s'. unfold catch.
  destruct (m s) as [[a|e'] s''] eqn:E1; [by intros [=]|].
  apply (Hh e'). by eapply Hm.
Qed.

Lemma raises_only_weaken {A} (P Q : E -> Prop) (m : M S E A) :
  (forall e, Q e -> P e) -> raises_only Q m -> raises_only P m.
Proof. intros HPQ Hm s e s' Hs. by eapply HPQ, Hm. Qed.

Lemma raises_only_for_each {A} P (l : list A) (body : A -> M S E unit) :
  (forall x, raises_only P (body x)) -> raises_only P (for_each l body).
Proof.
  intros Hb. induction l as [|x l IH]; simpl.
  - apply raises_only_ret.
  - by apply raises_only_bind.
Qed.

(** A computation that lets nothing escape returns. *)
Lemma raises_nothing_returns {A} (m : M S E A) s :
  raises_only (fun _ => False) m -> exists a, fst (m s) = Ret a.
Proof.
  intros Hm. destruct (m s) as [[a|e] s'] eqn:E1; [by exists a|].
  destruct (Hm s e s' E1).
Qed.
End Raises.

(** ** Tactics and hints *)

Create HintDb py discriminated.

#[export] Hint Resolve preserves_ret preserves_raise preserves_bind
  preserves_catch preserves_for_each : py.
#[export] Hint Resolve monotone_ret monotone_raise monotone_get monotone_bind
  monotone_catch monotone_for_each : py.
#[export] Hint Resolve raises_only_ret raises_only_modify raises_only_get
  raises_only_bind raises_only_for_each : py.

(** Invert a hypothesis and substitute its equations. *)
Ltac invc H := inversion H; subst; clear H.

(** Unfold one step of a monadic program applied to a state: the
    primitive combinators reduce, everything else is left for the
    component's own step lemmas. *)
Ltac mstep :=
  repeat first
    [ rewrite bind_assoc
    | rewrite bind_ret_l
    | rewrite bind_raise ];
  cbn [ret raise get put modify fst snd].

(** Run the first call of a program, or of a [try] body, with a step
    lemma [L : m s = (Ret a, s')]. *)
Tactic Notation "mrun" open_constr(L) :=
  first [ erewrite (catch_bind_Ret _ _ _ _ _ _ L) | erewrite (bind_Ret _ _ _ _ _ L) ];
  cbv beta.

(** One step of a [monotone] goal by the structure of the program; a
    state update must be related to the state it starts from. *)
Ltac mono_step :=
  first
    [ apply _
    | apply monotone_bind | apply monotone_catch | apply monotone_for_each
    | apply monotone_ret | apply monotone_raise | apply monotone_get
    | apply monotone_modify; [intros ?; reflexivity|..]
    | progress case_match ].

(** Close a [preserves]/[monotone] goal by the structure of the
    program; the primitive steps are found in the hint database. *)
Ltac by_structure := repeat (intros; first [eassumption | eauto with py]).

(** ** Generic lemmas on lists *)

(** The prefix order, used for the append-only log [GEN]. *)
Lemma prefix_snoc {A} (l : list A) x : l `prefix_of` l ++ [x].
Proof. by apply prefix_app_r. Qed.

#[export] Hint Resolve prefix_snoc : py.

(** [u] is injective on the strings it is used on and respects [++]. *)
Lemma u_app (s1 s2 : string) : u (String.append s1 s2) = app (u s1) (u s2).
Proof.
  unfold u. induction s1 as [|a s1 IH]; simpl; [done|]. by rewrite IH.
Qed.

Lemma length_u (s : string) : length (u s) = String.length s.
Proof.
  unfold u. rewrite length_map. induction s; simpl; congruence.
Qed.

Lemma u_range (s : string) : Forall (fun c => 0 <= c < 256)%Z (u s).
Proof.
  unfold u. apply Forall_map, Forall_forall. intros a _.
  pose proof (N_ascii_bounded a). lia.
Qed.
