(* ===== verification/PyStr.v ===== *)
(** * Python string operations used by [configure.py]

    [str.ljust], [str.join], [str.endswith]/[str.removesuffix] and the
    [repr] of a [str] (CPython's [unicode_repr]) and of a [list] of [str],
    over [str] = list of code points.  A parser of the literals [repr]
    prints gives the round trip [unrepr (repr s) = Some s]. *)

From S2P Require Import Prelude.

Open Scope Z_scope.

(** ** [str.ljust], [str.join], [str.removesuffix] *)

(** [s.ljust(width, fill)]: pad on the right to [width] code points. *)
Definition ljust (s : str) (width : nat) (fill : Z) : str :=
  s ++ replicate (width - length s) fill.

(** [sep.join(l)]. *)
Fixpoint join (sep : str) (l : list str) : str :=
  match l with
  | [] => []
  | [x] => x
  | x :: l' => x ++ sep ++ join sep l'
  end.

(** [s.endswith(suf)]. *)
Definition endswith (s suf : str) : bool :=
  bool_decide (drop (length s - length suf) s = suf).

(** [s.removesuffix(suf)]: strip one occurrence of a non-empty suffix. *)
Definition removesuffix (s suf : str) : str :=
  if bool_decide (suf <> []) && endswith s suf
  then take (length s - length suf) s
  else s.

(** ** Hexadecimal digits as [repr] prints them *)

(** [Py_hexdigits]: lower-case. *)
Definition hexdig (n : Z) : Z := if n <? 10 then 48 + n else 87 + n.

(** [k] hex digits of [n], most significant first. *)
Fixpoint hex_fixed (k : nat) (n : Z) : str :=
  match k with
  | O => []
  | S k' => hexdig ((n / 16 ^ Z.of_nat k') mod 16) :: hex_fixed k' (n mod 16 ^ Z.of_nat k')
  end.

(** ** [repr] of a [str] (CPython [unicode_repr]) *)

Section Repr.
(** [Py_UNICODE_ISPRINTABLE] on code points from 0x80 on: the Unicode
    database of the interpreter. *)
Context (isprintable : Z -> bool).

(** The escape of one code point when [q] is the quote in use. *)
Definition repr_char (q c : Z) : str :=
  if (c =? q) || (c =? c_backslash) then [c_backslash; c]
  else if c =? 9 then [c_backslash; 116]
  else if c =? 10 then [c_backslash; 110]
  else if c =? 13 then [c_backslash; 114]
  else if (c <? 32) || (c =? 127) then c_backslash :: 120 :: hex_fixed 2 c
  else if c <? 127 then [c]
  else if isprintable c then [c]
  else if c <=? 255 then c_backslash :: 120 :: hex_fixed 2 c
  else if c <=? 65535 then c_backslash :: 117 :: hex_fixed 4 c
  else c_backslash :: 85 :: hex_fixed 8 c.

(** The quote: a single quote, unless the text has a single quote and
    no double quote. *)
Definition repr_quote (s : str) : Z :=
  if bool_decide (c_quote ∈ s) && negb (bool_decide (c_dquote ∈ s))
  then c_dquote else c_quote.

Definition repr (s : str) : str :=
  let q := repr_quote s in
  q :: concat (map (repr_char q) s) ++ [q].

(** [str(l)] for a list of [str]: ['[' + ', '.join(map(repr, l)) + ']']. *)
Definition repr_list (l : list str) : str :=
  [91] ++ join (u ", ") (map repr l) ++ [93].
End Repr.

(** ** Reading a literal back *)

Definition hexval (d : Z) : option Z :=
  if (48 <=? d) && (d <=? 57) then Some (d - 48)
  else if (97 <=? d) && (d <=? 102) then Some (d - 87)
  else None.

(** Read [k] hex digits onto the accumulator [acc]. *)
Fixpoint parse_hex (k : nat) (acc : Z) (l : str) : option (Z * str) :=
  match k, l with
  | O, _ => Some (acc, l)
  | S k', d :: l' => match hexval d with
                     | Some v => parse_hex k' (acc * 16 + v) l'
                     | None => None
                     end
  | S _, [] => None
  end.

(** One escape sequence after the backslash. *)
Definition parse_escape (l : str) : option (Z * str) :=
  match l with
  | 116 :: l' => Some (9, l')
  | 110 :: l' => Some (10, l')
  | 114 :: l' => Some (13, l')
  | 120 :: l' => parse_hex 2 0 l'
  | 117 :: l' => parse_hex 4 0 l'
  | 85 :: l' => parse_hex 8 0 l'
  | c :: l' => Some (c, l')
  | [] => None
  end.

(** The body of a literal up to the closing quote [q]; [fuel] bounds the
    number of characters read, the length of the input is enough. *)
Fixpoint parse_body (fuel : nat) (q : Z) (l : str) : option (str * str) :=
  match fuel with
  | O => None
  | S fuel' =>
      match l with
      | [] => None
      | c :: l' =>
          if c =? q then Some ([], l')
          else if c =? c_backslash then
            match parse_escape l' with
            | Some (c', l'') =>
                match parse_body fuel' q l'' with
                | Some (s, r) => Some (c' :: s, r)
                | None => None
                end
            | None => None
            end
          else match parse_body fuel' q l' with
               | Some (s, r) => Some (c :: s, r)
               | None => None
               end
      end
  end.

(** [ast.literal_eval] restricted to the literals [repr] prints. *)
Definition unrepr (l : str) : option str :=
  match l with
  | q :: l' =>
      if (q =? c_quote) || (q =? c_dquote) then
        match parse_body (length l) q l' with
        | Some (s, []) => Some s
        | _ => None
        end
      else None
  | [] => None
  end.

(** ** Lemmas *)

Lemma length_ljust s w f : length (ljust s w f) = Nat.max w (length s).
Proof. unfold ljust. rewrite length_app, length_replicate. lia. Qed.

Lemma ljust_prefix s w f : s `prefix_of` ljust s w f.
Proof. by apply prefix_app_r. Qed.

Lemma join_cons sep x l : l <> [] -> join sep (x :: l) = x ++ sep ++ join sep l.
Proof. destruct l; [done|reflexivity]. Qed.

Lemma join_app_single sep l x :
  join sep (l ++ [x]) = match l with [] => x | _ => join sep l ++ sep ++ x end.
Proof.
  induction l as [|y l IH]; [done|]. destruct l as [|z l]; [done|].
  change (join sep ((y :: z :: l) ++ [x])) with (y ++ sep ++ join sep ((z :: l) ++ [x])).
  rewrite IH. change (join sep (y :: z :: l)) with (y ++ sep ++ join sep (z :: l)).
  by rewrite !app_assoc.
Qed.

Lemma endswith_app s suf : endswith (s ++ suf) suf = true.
Proof.
  unfold endswith. apply bool_decide_eq_true.
  rewrite length_app, Nat.add_sub. by rewrite drop_app_length.
Qed.

(** [removesuffix] strips exactly one copy of the suffix. *)
Lemma removesuffix_app s suf : suf <> [] -> removesuffix (s ++ suf) suf = s.
Proof.
  intros Hne. unfold removesuffix. rewrite endswith_app.
  rewrite (bool_decide_eq_true_2 _ Hne). simpl.
  rewrite length_app, Nat.add_sub. by rewrite take_app_length.
Qed.

Lemma removesuffix_not s suf : endswith s suf = false -> removesuffix s suf = s.
Proof. unfold removesuffix. intros ->. by rewrite andb_false_r. Qed.

(** [str.endswith], as [removesuffix] computes it by comparing the
    last [len(suf)] code points, holds exactly when [suf] is a suffix of
    [s]. *)
Lemma endswith_spec s suf : endswith s suf = true <-> suf `suffix_of` s.
Proof.
  unfold endswith. rewrite bool_decide_eq_true. split.
  - intros Hd. exists (take (length s - length suf) s).
    rewrite <-(take_drop (length s - length suf) s) at 1. by rewrite Hd.
  - intros [k ->]. rewrite length_app, Nat.add_sub. apply drop_app_length.
Qed.

(** The reference: drop the last code point when it is a newline. *)
Definition strip_nl (s : str) : str :=
  match last s with Some c => if c =? c_nl then removelast s else s | None => s end.

(** C19: [s.removesuffix('\n')], as [define_stdout] applies it to the
    captured output, is the reference [strip_nl]: exactly one final
    newline is removed, and nothing else changes. *)
Theorem removesuffix_nl s : removesuffix s [c_nl] = strip_nl s.
Proof.
  unfold strip_nl. destruct s as [|c s' _] using rev_ind; [reflexivity|].
  rewrite last_snoc, removelast_last.
  destruct (Z.eqb_spec c c_nl) as [->|Hc]; [by apply removesuffix_app|].
  apply removesuffix_not, not_true_iff_false. rewrite endswith_spec.
  intros [k Hk]. apply app_inj_tail in Hk as [_ ->]. by apply Hc.
Qed.

Lemma hexdig_val n : 0 <= n < 16 -> hexval (hexdig n) = Some n.
Proof.
  intros Hn. unfold hexdig, hexval.
  destruct (Z.ltb_spec n 10); repeat (case_match; simplify_eq; try lia);
    repeat match goal with H : (_ && _)%bool = _ |- _ => apply andb_prop in H as [? ?] || apply andb_false_iff in H as [?|?] end;
    rewrite ?Z.leb_le, ?Z.leb_gt in *; f_equal; lia.
Qed.

Lemma parse_hex_fixed k : forall acc n rest,
  0 <= n < 16 ^ Z.of_nat k ->
  parse_hex k acc (hex_fixed k n ++ rest) = Some (acc * 16 ^ Z.of_nat k + n, rest).
Proof.
  induction k as [|k IH]; intros acc n rest Hn; simpl.
  - f_equal. f_equal. simpl in Hn. lia.
  - assert (Hp : 0 < 16 ^ Z.of_nat k) by lia.
    rewrite Nat2Z.inj_succ, Z.pow_succ_r in Hn by lia.
    assert (Hd : 0 <= n / 16 ^ Z.of_nat k < 16).
    { split; [apply Z.div_pos; lia|]. apply Z.div_lt_upper_bound; lia. }
    rewrite (Z.mod_small (n / _) 16) by lia.
    rewrite hexdig_val by lia.
    rewrite IH by (apply Z.mod_pos_bound; lia).
    f_equal. f_equal. rewrite Nat2Z.inj_succ, Z.pow_succ_r by lia.
    pose proof (Z.div_mod n (16 ^ Z.of_nat k) ltac:(lia)). lia.
Qed.

(** A Python code point: [0 <= c <= 0x10FFFF]. *)
Definition valid_cp (c : Z) : Prop := 0 <= c <= 1114111.

Lemma parse_body_fuel f1 : forall f2 q l r,
  (f1 <= f2)%nat -> parse_body f1 q l = Some r -> parse_body f2 q l = Some r.
Proof.
  induction f1 as [|f1 IH]; intros f2 q l r Hle H; [done|].
  destruct f2 as [|f2]; [lia|]. simpl in *.
  destruct l as [|c l]; [done|].
  repeat case_match; simplify_eq; try done;
    erewrite IH in * by (eassumption || lia); simplify_eq; done.
Qed.

Section ReprFacts.
Context (isprintable : Z -> bool).

Lemma repr_quote_cases s : repr_quote s = c_quote \/ repr_quote s = c_dquote.
Proof. unfold repr_quote. case_match; auto. Qed.

Lemma parse_body_backslash fuel q l :
  (q = c_quote \/ q = c_dquote) ->
  parse_body (S fuel) q (c_backslash :: l) =
  match parse_escape l with
  | Some (c', l') => match parse_body fuel q l' with
                     | Some (s, r) => Some (c' :: s, r)
                     | None => None
                     end
  | None => None
  end.
Proof. by intros [-> | ->]. Qed.

(** One escaped code point reads back as itself. *)
Lemma parse_body_repr_char fuel q c rest :
  (q = c_quote \/ q = c_dquote) -> valid_cp c ->
  parse_body (S fuel) q (repr_char isprintable q c ++ rest) =
  match parse_body fuel q rest with
  | Some (s, r) => Some (c :: s, r)
  | None => None
  end.
Proof.
  intros Hq Hc. unfold valid_cp in Hc.
  assert (Hhex : forall k, 0 <= c < 16 ^ Z.of_nat k ->
            parse_hex k 0 (hex_fixed k c ++ rest) = Some (c, rest)).
  { intros k Hk. rewrite parse_hex_fixed by done. f_equal. }
  unfold repr_char.
  destruct (Z.eqb_spec c q) as [->|Hcq]; cbn [orb].
  { destruct Hq as [->| ->]; reflexivity. }
  destruct (Z.eqb_spec c c_backslash) as [->|Hcb]; cbn [orb].
  { destruct Hq as [->| ->]; reflexivity. }
  destruct (Z.eqb_spec c 9) as [->|_]; cbn [orb].
  { destruct Hq as [->| ->]; reflexivity. }
  destruct (Z.eqb_spec c 10) as [->|_]; cbn [orb].
  { destruct Hq as [->| ->]; reflexivity. }
  destruct (Z.eqb_spec c 13) as [->|_]; cbn [orb].
  { destruct Hq as [->| ->]; reflexivity. }
  assert (Hlit : parse_body (S fuel) q (c :: rest) =
                 match parse_body fuel q rest with
                 | Some (s, r) => Some (c :: s, r) | None => None end).
  { simpl. rewrite (proj2 (Z.eqb_neq c q) Hcq).
    by rewrite (proj2 (Z.eqb_neq c c_backslash) Hcb). }
  assert (Hesc : forall e k, parse_escape (e :: hex_fixed k c ++ rest) = parse_hex k 0 (hex_fixed k c ++ rest) ->
            0 <= c < 16 ^ Z.of_nat k ->
            parse_body (S fuel) q ((c_backslash :: e :: hex_fixed k c) ++ rest) =
            match parse_body fuel q rest with
            | Some (s, r) => Some (c :: s, r) | None => None end).
  { intros e k He Hk.
    change ((c_backslash :: e :: hex_fixed k c) ++ rest) with (c_backslash :: e :: (hex_fixed k c ++ rest)).
    rewrite parse_body_backslash by done.
    by rewrite He, Hhex. }
  destruct ((c <? 32) || (c =? 127)) eqn:E1.
  { apply Hesc; [reflexivity|]. simpl.
    apply orb_true_iff in E1 as [E|E]; [apply Z.ltb_lt in E|apply Z.eqb_eq in E]; lia. }
  destruct (c <? 127); [exact Hlit|].
  destruct (isprintable c); [exact Hlit|].
  destruct (Z.leb_spec c 255); [apply Hesc; [reflexivity|simpl; lia]|].
  destruct (Z.leb_spec c 65535); [apply Hesc; [reflexivity|simpl; lia]|].
  apply Hesc; [reflexivity|simpl; lia].
Qed.

Lemma length_repr_char q c : (1 <= length (repr_char isprintable q c))%nat.
Proof. unfold repr_char. repeat case_match; simpl; lia. Qed.

Lemma length_repr_chars q s :
  (length s <= length (concat (map (repr_char isprintable q) s)))%nat.
Proof.
  induction s as [|c s IH]; simpl; [lia|].
  rewrite length_app. pose proof (length_repr_char q c). lia.
Qed.

Lemma parse_body_repr_chars q s : forall rest fuel,
  (q = c_quote \/ q = c_dquote) -> Forall valid_cp s -> (length s < fuel)%nat ->
  parse_body fuel q (concat (map (repr_char isprintable q) s) ++ q :: rest) = Some (s, rest).
Proof.
  induction s as [|c s IH]; intros rest fuel Hq Hs Hf;
    destruct fuel as [|fuel]; simpl in Hf; try lia.
  - simpl. by rewrite Z.eqb_refl.
  - apply Forall_cons in Hs as [Hc Hs]. cbn [concat map]. rewrite <-app_assoc.
    rewrite parse_body_repr_char by done. rewrite IH by (done || lia). done.
Qed.

(** C8: [repr] is a faithful rendering: the literal it prints for any
    text of code points reads back, by Python's literal syntax, to the
    same text, whichever quote it chose and whichever characters it
    escaped.  The value [define_stdout] writes into the header is thus
    the captured text itself, in Python's quoting. *)
Theorem unrepr_repr s : Forall valid_cp s -> unrepr (repr isprintable s) = Some s.
Proof.
  intros Hs. unfold repr, unrepr.
  pose proof (repr_quote_cases s) as Hq.
  set (q := repr_quote s) in *.
  assert (Hq' : ((q =? c_quote) || (q =? c_dquote))%bool = true)
    by (destruct Hq as [->| ->]; done).
  rewrite Hq'.
  rewrite parse_body_repr_chars; [done|done|done|].
  simpl. rewrite length_app. simpl.
  pose proof (length_repr_chars q s). lia.
Qed.
(** [repr] writes no line break: a newline in the text becomes the
    escape [\n]. *)
Lemma hexdig_not_nl n : 0 <= n < 16 -> hexdig n <> c_nl.
Proof. unfold hexdig, c_nl. intros Hn. destruct (Z.ltb_spec n 10); lia. Qed.

Lemma hex_fixed_no_nl k n : c_nl ∉ hex_fixed k n.
Proof.
  revert n. induction k as [|k IH]; intros n; simpl; [apply not_elem_of_nil|].
  apply not_elem_of_cons. split; [|apply IH].
  intros Heq. symmetry in Heq. revert Heq. apply hexdig_not_nl. apply Z.mod_pos_bound. lia.
Qed.

Lemma repr_char_no_nl q c : q <> c_nl -> c_nl ∉ repr_char isprintable q c.
Proof.
  intros Hq. unfold repr_char, c_nl, c_backslash in *.
  repeat match goal with
         | |- context [if ?b then _ else _] => destruct b eqn:?
         end;
  repeat match goal with H : (_ || _)%bool = _ |- _ => apply orb_true_iff in H || apply orb_false_iff in H end;
  repeat match goal with
         | H : _ /\ _ |- _ => destruct H
         | H : _ \/ _ |- _ => destruct H
         | H : (_ =? _) = _ |- _ => apply Z.eqb_eq in H || apply Z.eqb_neq in H
         | H : (_ <? _) = _ |- _ => apply Z.ltb_lt in H || apply Z.ltb_ge in H
         | H : (_ <=? _) = _ |- _ => apply Z.leb_le in H || apply Z.leb_gt in H
         end;
  repeat (apply not_elem_of_cons; split; [lia|]);
  first [apply not_elem_of_nil | apply hex_fixed_no_nl].
Qed.

Lemma repr_chars_no_nl q l : q <> c_nl -> c_nl ∉ concat (map (repr_char isprintable q) l).
Proof.
  intros Hq. induction l as [|c l IH]; [apply not_elem_of_nil|].
  cbn [map concat]. rewrite not_elem_of_app. split; [by apply repr_char_no_nl|exact IH].
Qed.

Lemma repr_no_nl s : c_nl ∉ repr isprintable s.
Proof.
  unfold repr. pose proof (repr_quote_cases s) as Hq.
  assert (Hqn : repr_quote s <> c_nl) by (unfold c_quote, c_dquote, c_nl in *; lia).
  rewrite not_elem_of_cons, not_elem_of_app, not_elem_of_cons.
  repeat split; [done|by apply repr_chars_no_nl|done|apply not_elem_of_nil].
Qed.
End ReprFacts.

(** The output of [uname -m] on an x86-64 machine. *)
Lemma unrepr_repr_witness :
  Forall valid_cp (u "x86_64") /\ unrepr (repr (fun _ => true) (u "x86_64")) = Some (u "x86_64").
Proof.
  assert (Hv : Forall valid_cp (u "x86_64")) by (apply (bool_decide_unpack _); vm_compute; reflexivity).
  split; [exact Hv|]. exact (unrepr_repr (fun _ => true) (u "x86_64") Hv).
Defined.
