(* ===== verification/Fs.v ===== *)
(** * The file system seen by [configure.py]

    A file system is a [gmap] from resolved paths (lists of path
    components) to nodes; the root [[]] is always a directory and is not
    stored.  Relative paths such as ["./test.c"], [".."] and
    ["../src/config.h"] are resolved against the working directory the
    way the kernel walks them (no symbolic links).  The operations are the
    system calls behind [os.mkdir], [os.rmdir], [os.remove], [os.chdir]
    and [open(p, 'w')], each returning an [errno] or the new map; the
    theorems show that each keeps the tree invariant [wf]. *)

From S2P Require Import Prelude.

Open Scope Z_scope.

(** ** Nodes and paths *)

(** What [gcc] leaves behind: the language given by [-x], the texts of
    the sources and the libraries given by [-l].  A probe binary's
    behaviour is a function of this image (see [Interp.Host]). *)
Record image := mkImage {
  img_lang : option str;
  img_srcs : list str;
  img_libs : list str
}.

Inductive node :=
| NDir
| NText (s : str)
| NExe (i : image).

Abbreviation path := (list (list Z)) (only parsing).

Abbreviation fsmap := (gmap (list (list Z)) node).

(** The [errno] values the operations raise, named as in [errno.h]. *)
Inductive errno := ENOENT | EEXIST | EISDIR | ENOTDIR | ENOTEMPTY | EACCES | EBUSY.

#[export] Instance errno_eq_dec : EqDecision errno.
Proof. solve_decision. Defined.

(** [s.split('/')]: the components between separators, empty ones
    included. *)
Fixpoint split_on (sep : Z) (s : str) : list str :=
  match s with
  | [] => [[]]
  | c :: s' =>
      if c =? sep then [] :: split_on sep s'
      else match split_on sep s' with
           | x :: xs => (c :: x) :: xs
           | [] => [[c]]
           end
  end.

(** One component of a path walk: [""] and ["."] stay, [".."] goes to
    the parent (the root is its own parent), a name descends. *)
Definition walk (acc : path) (comp : str) : path :=
  if bool_decide (comp = []) || bool_decide (comp = u ".") then acc
  else if bool_decide (comp = u "..") then removelast acc
  else acc ++ [comp].

(** The absolute path a string names when the working directory is
    [cwd]. *)
Definition resolve (cwd : path) (p : str) : path :=
  let base := match p with c :: _ => if c =? c_slash then [] else cwd | [] => cwd end in
  fold_left walk (split_on c_slash p) base.

(** ** The map *)

Definition fs_lookup (fs : fsmap) (p : path) : option node :=
  match p with [] => Some NDir | _ => fs !! p end.

(** Whether a directory has an entry. *)
Definition has_child (fs : fsmap) (p : path) : bool :=
  existsb (fun kv => bool_decide (kv.1 <> [] /\ removelast kv.1 = p)) (map_to_list fs).

(** The walk to the parent directory of [p]. *)
Definition parent_error (fs : fsmap) (p : path) : option errno :=
  match fs_lookup fs (removelast p) with
  | None => Some ENOENT
  | Some NDir => None
  | Some _ => Some ENOTDIR
  end.

(** [mkdir(2)]. *)
Definition fs_mkdir (fs : fsmap) (p : path) : errno + fsmap :=
  match p with
  | [] => inl EEXIST
  | _ => match parent_error fs p with
         | Some e => inl e
         | None => match fs !! p with
                   | Some _ => inl EEXIST
                   | None => inr (<[p := NDir]> fs)
                   end
         end
  end.

(** [rmdir(2)]. *)
Definition fs_rmdir (fs : fsmap) (p : path) : errno + fsmap :=
  match p with
  | [] => inl EBUSY
  | _ => match parent_error fs p with
         | Some e => inl e
         | None => match fs !! p with
                   | None => inl ENOENT
                   | Some NDir => if has_child fs p then inl ENOTEMPTY else inr (delete p fs)
                   | Some _ => inl ENOTDIR
                   end
         end
  end.

(** [unlink(2)], behind [os.remove]. *)
Definition fs_unlink (fs : fsmap) (p : path) : errno + fsmap :=
  match p with
  | [] => inl EISDIR
  | _ => match parent_error fs p with
         | Some e => inl e
         | None => match fs !! p with
                   | None => inl ENOENT
                   | Some NDir => inl EISDIR
                   | Some _ => inr (delete p fs)
                   end
         end
  end.

(** [open(p, O_WRONLY|O_CREAT|O_TRUNC)] followed by writing the whole
    content: the node at [p] becomes [n]. *)
Definition fs_create (fs : fsmap) (p : path) (n : node) : errno + fsmap :=
  match p with
  | [] => inl EISDIR
  | _ => match parent_error fs p with
         | Some e => inl e
         | None => match fs !! p with
                   | Some NDir => inl EISDIR
                   | _ => inr (<[p := n]> fs)
                   end
         end
  end.

(** [chdir(2)]. *)
Definition fs_chdir (fs : fsmap) (p : path) : option errno :=
  match fs_lookup fs p with
  | None => Some ENOENT
  | Some NDir => None
  | Some _ => Some ENOTDIR
  end.

(** ** The tree invariant *)

(** Every stored entry is below the root and its parent is a directory. *)
Definition wf (fs : fsmap) : Prop :=
  forall p n, fs !! p = Some n -> p <> [] /\ fs_lookup fs (removelast p) = Some NDir.

(** ** Lemmas *)

Lemma fs_lookup_cons fs c p : fs_lookup fs (c :: p) = fs !! (c :: p).
Proof. reflexivity. Qed.

Lemma fs_lookup_ne fs p : p <> [] -> fs_lookup fs p = fs !! p.
Proof. by destruct p. Qed.

Lemma fs_lookup_insert fs p q n :
  p <> [] -> fs_lookup (<[p := n]> fs) q = if bool_decide (q = p) then Some n else fs_lookup fs q.
Proof.
  intros Hp. destruct q as [|c q].
  - rewrite bool_decide_eq_false_2; [done|]. congruence.
  - rewrite !fs_lookup_cons, lookup_insert. by repeat case_decide.
Qed.

Lemma fs_lookup_delete fs p q :
  fs_lookup (delete p fs) q = if bool_decide (q = p /\ q <> []) then None else fs_lookup fs q.
Proof.
  destruct q as [|c q].
  - rewrite bool_decide_eq_false_2; [done|]. tauto.
  - rewrite !fs_lookup_cons, lookup_delete. repeat case_decide; naive_solver.
Qed.

Lemma has_child_spec fs p :
  has_child fs p = true <-> exists q n, fs !! q = Some n /\ q <> [] /\ removelast q = p.
Proof.
  unfold has_child. rewrite existsb_exists. split.
  - intros [[q n] [Hin Hq]]. apply bool_decide_eq_true in Hq.
    apply list_elem_of_In, elem_of_map_to_list in Hin. exists q, n. naive_solver.
  - intros (q & n & Hl & Hq & Hr). exists (q, n). split.
    + apply list_elem_of_In, elem_of_map_to_list. done.
    + by apply bool_decide_eq_true.
Qed.

Lemma length_removelast {A} (l : list A) : length (removelast l) = pred (length l).
Proof.
  induction l as [|x l IH]; [done|]. destruct l as [|y l]; [done|].
  change (removelast (x :: y :: l)) with (x :: removelast (y :: l)). simpl in *. lia.
Qed.

Lemma removelast_neq {A} (l : list A) : l <> [] -> removelast l <> l.
Proof.
  intros Hl Heq. apply (f_equal length) in Heq. rewrite length_removelast in Heq.
  destruct l; [done|]. simpl in Heq. lia.
Qed.

Lemma parent_error_None fs p :
  parent_error fs p = None <-> fs_lookup fs (removelast p) = Some NDir.
Proof. unfold parent_error. repeat case_match; naive_solver. Qed.

(** Under [wf], a non-directory has no entries below it. *)
Lemma wf_no_child fs p n q m :
  wf fs -> fs !! p = Some n -> n <> NDir -> fs !! q = Some m -> removelast q <> p.
Proof.
  intros Hwf Hp Hn Hq <-. destruct (Hwf q m Hq) as [_ Hpar].
  destruct (removelast q) as [|c r]; simpl in *.
  - destruct (Hwf [] n Hp) as [H _]. by apply H.
  - congruence.
Qed.

Section WfPreservation.
Context (fs : fsmap) (Hwf : wf fs).

Lemma wf_insert p n :
  p <> [] -> parent_error fs p = None ->
  (forall q m, fs !! q = Some m -> removelast q = p -> fs !! p = Some NDir) ->
  (fs !! p = Some NDir -> n = NDir) ->
  wf (<[p := n]> fs).
Proof.
  intros Hp Hpar Hch Hdir q m Hq. apply parent_error_None in Hpar.
  rewrite lookup_insert in Hq. rewrite fs_lookup_insert by done.
  case_decide as Hqp; subst.
  - split; [done|]. case_decide as Hpp; [exfalso; eapply removelast_neq; [|exact Hpp]; done|done].
  - destruct (Hwf q m Hq) as [Hq0 Hqpar]. split; [done|].
    case_decide as Hr; [|done]. f_equal. apply Hdir.
    eapply Hch; [exact Hq|done].
Qed.

Lemma fs_mkdir_wf fs' p : fs_mkdir fs p = inr fs' -> wf fs'.
Proof.
  unfold fs_mkdir. destruct p as [|c r] eqn:Ep; [done|]. rewrite <-Ep.
  repeat case_match; intros; simplify_eq. apply wf_insert; [congruence|done| |done].
  intros q m Hq Hr. destruct (Hwf q m Hq) as [_ Hpar]. rewrite Hr, fs_lookup_ne in Hpar by congruence.
  congruence.
Qed.

Lemma fs_create_wf fs' p n : fs_create fs p n = inr fs' -> wf fs'.
Proof.
  unfold fs_create. destruct p as [|c r] eqn:Ep; [done|]. rewrite <-Ep.
  repeat case_match; intros; simplify_eq; apply wf_insert; try (congruence || done);
    intros q m Hq Hr; destruct (Hwf q m Hq) as [_ Hpar];
    rewrite Hr, fs_lookup_ne in Hpar by congruence; congruence.
Qed.

Lemma wf_delete p :
  (forall q m, fs !! q = Some m -> removelast q <> p) -> wf (delete p fs).
Proof.
  intros Hch q m Hq. rewrite lookup_delete in Hq. case_decide; [done|].
  destruct (Hwf q m Hq) as [Hq0 Hpar]. split; [done|].
  rewrite fs_lookup_delete. case_decide as Hr; [|done].
  destruct Hr as [Hr _]. by destruct (Hch q m Hq).
Qed.

Lemma fs_rmdir_wf fs' p : fs_rmdir fs p = inr fs' -> wf fs'.
Proof.
  unfold fs_rmdir. destruct p as [|c r] eqn:Ep; [done|]. rewrite <-Ep.
  destruct (parent_error fs p); [done|].
  destruct (fs !! p) as [[]|]; try done.
  destruct (has_child fs p) eqn:Hc; [done|]. intros [= <-]. apply wf_delete.
  intros q m Hq Hr. apply not_true_iff_false in Hc. apply Hc, has_child_spec.
  exists q, m. destruct (Hwf q m Hq). done.
Qed.

Lemma fs_unlink_wf fs' p : fs_unlink fs p = inr fs' -> wf fs'.
Proof.
  unfold fs_unlink. destruct p as [|c r] eqn:Ep; [done|]. rewrite <-Ep.
  repeat case_match; intros; simplify_eq; apply wf_delete;
    intros q m Hq; (eapply wf_no_child; [done|eassumption|discriminate|exact Hq]).
Qed.
End WfPreservation.

(** ** Resolution of the relative paths the script uses *)

Lemma split_on_no_sep sep s : sep ∉ s -> split_on sep s = [s].
Proof.
  induction s as [|c s IH]; intros Hs; [done|].
  apply not_elem_of_cons in Hs as [Hc Hs]. simpl.
  rewrite (proj2 (Z.eqb_neq c sep)) by congruence. by rewrite IH.
Qed.

(** A plain name: not empty, not ["."] or [".."], without a slash. *)
Definition plain_name (name : str) : Prop :=
  name <> [] /\ name <> u "." /\ name <> u ".." /\ c_slash ∉ name.

Lemma walk_plain acc name : plain_name name -> walk acc name = acc ++ [name].
Proof.
  intros (H1 & H2 & H3 & _). unfold walk.
  rewrite !bool_decide_eq_false_2 by done. done.
Qed.

(** ["./name"] names the entry [name] of the working directory. *)
Theorem resolve_dot_name cwd name :
  plain_name name -> resolve cwd (u "./" ++ name) = cwd ++ [name].
Proof.
  intros Hn. unfold resolve. simpl.
  rewrite split_on_no_sep by apply Hn. simpl. by apply walk_plain.
Qed.

Lemma resolve_dotdot cwd : resolve cwd (u "..") = removelast cwd.
Proof. reflexivity. Qed.

(** ** The operations on an entry of a directory *)

Section Child.
Context (fs : fsmap) (dir : path) (x : str) (Hdir : fs_lookup fs dir = Some NDir).

Lemma app_single_ne : dir ++ [x] <> [].
Proof. by destruct dir. Qed.

Lemma parent_error_child : parent_error fs (dir ++ [x]) = None.
Proof. apply parent_error_None. by rewrite removelast_last. Qed.

(** Under the non-root match of each operation. *)
Ltac child_case :=
  rewrite ?parent_error_child;
  destruct (dir ++ [x]) eqn:E; [exfalso; by apply app_single_ne|].

Lemma fs_create_child n :
  fs !! (dir ++ [x]) <> Some NDir -> fs_create fs (dir ++ [x]) n = inr (<[dir ++ [x] := n]> fs).
Proof.
  intros Hn. unfold fs_create.
  destruct (fs !! (dir ++ [x])) as [[]|] eqn:Hl; [congruence| | |]; by child_case.
Qed.

Lemma fs_unlink_child n :
  fs !! (dir ++ [x]) = Some n -> n <> NDir -> fs_unlink fs (dir ++ [x]) = inr (delete (dir ++ [x]) fs).
Proof.
  intros Hl Hn. unfold fs_unlink. rewrite Hl. child_case. by destruct n.
Qed.

Lemma fs_unlink_child_missing :
  fs !! (dir ++ [x]) = None -> fs_unlink fs (dir ++ [x]) = inl ENOENT.
Proof. intros Hl. unfold fs_unlink. rewrite Hl. by child_case. Qed.

Lemma fs_unlink_child_dir :
  fs !! (dir ++ [x]) = Some NDir -> fs_unlink fs (dir ++ [x]) = inl EISDIR.
Proof. intros Hl. unfold fs_unlink. rewrite Hl. by child_case. Qed.
End Child.

Lemma app_single_neq {A} (l : list A) x : l ++ [x] <> l.
Proof. intros Heq. apply (f_equal length) in Heq. rewrite length_app in Heq. simpl in Heq. lia. Qed.

(** A directory stays a directory when one of its entries is written. *)
Lemma fs_lookup_insert_child fs dir x n :
  fs_lookup (<[dir ++ [x] := n]> fs) dir = fs_lookup fs dir.
Proof.
  rewrite fs_lookup_insert by (by destruct dir).
  rewrite bool_decide_eq_false_2; [done|]. intros Heq. symmetry in Heq. by apply app_single_neq in Heq.
Qed.

Lemma fs_lookup_delete_child fs dir x :
  fs_lookup (delete (dir ++ [x]) fs) dir = fs_lookup fs dir.
Proof.
  rewrite fs_lookup_delete. rewrite bool_decide_eq_false_2; [done|].
  intros [Heq _]. symmetry in Heq. by apply app_single_neq in Heq.
Qed.

(** ** What a successful operation changes *)

Lemma fs_create_inr fs q n fs' : fs_create fs q n = inr fs' -> fs' = <[q := n]> fs.
Proof. unfold fs_create. repeat case_match; congruence. Qed.

Lemma fs_unlink_inr fs q fs' : fs_unlink fs q = inr fs' -> fs' = delete q fs.
Proof. unfold fs_unlink. repeat case_match; congruence. Qed.

Lemma fs_mkdir_inr fs q fs' : fs_mkdir fs q = inr fs' -> fs' = <[q := NDir]> fs.
Proof. unfold fs_mkdir. repeat case_match; congruence. Qed.

Lemma fs_rmdir_inr fs q fs' : fs_rmdir fs q = inr fs' -> fs' = delete q fs.
Proof. unfold fs_rmdir. repeat case_match; congruence. Qed.

(** An operation on the entry [q] only. *)
Definition touches_only (f : fsmap -> path -> errno + fsmap) : Prop :=
  forall fs q fs', f fs q = inr fs' -> forall r, r <> q -> fs' !! r = fs !! r.

Lemma touches_only_create n : touches_only (fun fs q => fs_create fs q n).
Proof. intros fs q fs' E r Hr. apply fs_create_inr in E as ->. by rewrite lookup_insert_ne. Qed.

Lemma touches_only_unlink : touches_only fs_unlink.
Proof. intros fs q fs' E r Hr. apply fs_unlink_inr in E as ->. by rewrite lookup_delete_ne. Qed.

Lemma touches_only_mkdir : touches_only fs_mkdir.
Proof. intros fs q fs' E r Hr. apply fs_mkdir_inr in E as ->. by rewrite lookup_insert_ne. Qed.

Lemma touches_only_rmdir : touches_only fs_rmdir.
Proof. intros fs q fs' E r Hr. apply fs_rmdir_inr in E as ->. by rewrite lookup_delete_ne. Qed.

(** A relative path that names an entry of the working directory,
    whatever the working directory is. *)
Definition local (p : str) : Prop := exists x, forall cwd, resolve cwd p = cwd ++ [x].

Lemma removelast_app_single {A} (l : list A) x : removelast (l ++ [x]) = l.
Proof. apply removelast_last. Qed.

(** [rmdir] of an empty directory whose parent is a directory. *)
Lemma fs_rmdir_empty fs p :
  p <> [] -> fs_lookup fs (removelast p) = Some NDir -> fs !! p = Some NDir -> has_child fs p = false ->
  fs_rmdir fs p = inr (delete p fs).
Proof.
  intros Hp Hpar Hd Hc. unfold fs_rmdir.
  rewrite (proj2 (parent_error_None _ _) Hpar), Hd, Hc. by destruct p.
Qed.
