(* ===== verification/Utf8.v ===== *)
(** * [bytes.decode('utf-8')]

    CPython's strict UTF-8 decoder: the well-formed byte sequences of
    the Unicode standard (table 3-7), no overlong forms, no surrogates,
    nothing above U+10FFFF; any other input raises [UnicodeDecodeError],
    here [None].  The script decodes the output of [gcc] and of [bash]
    with it. *)

From S2P Require Import Prelude.

Open Scope Z_scope.

Definition in_range (lo hi b : Z) : bool := (lo <=? b) && (b <=? hi).

(** A continuation byte [10xxxxxx]. *)
Definition cont (b : Z) : bool := in_range 128 191 b.

(** The allowed range of the second byte after a three-byte lead. *)
Definition second3 (b1 b2 : Z) : bool :=
  if b1 =? 224 then in_range 160 191 b2
  else if b1 =? 237 then in_range 128 159 b2
  else cont b2.

(** The allowed range of the second byte after a four-byte lead. *)
Definition second4 (b1 b2 : Z) : bool :=
  if b1 =? 240 then in_range 144 191 b2
  else if b1 =? 244 then in_range 128 143 b2
  else cont b2.

Fixpoint utf8_decode (l : bytes) : option str :=
  match l with
  | [] => Some []
  | b1 :: r1 =>
      if b1 <? 128 then cons b1 <$> utf8_decode r1
      else if in_range 194 223 b1 then
        match r1 with
        | b2 :: r2 =>
            if cont b2 then cons ((b1 - 192) * 64 + (b2 - 128)) <$> utf8_decode r2
            else None
        | [] => None
        end
      else if in_range 224 239 b1 then
        match r1 with
        | b2 :: b3 :: r3 =>
            if second3 b1 b2 && cont b3
            then cons ((b1 - 224) * 4096 + (b2 - 128) * 64 + (b3 - 128)) <$> utf8_decode r3
            else None
        | _ => None
        end
      else if in_range 240 244 b1 then
        match r1 with
        | b2 :: b3 :: b4 :: r4 =>
            if second4 b1 b2 && cont b3 && cont b4
            then cons ((b1 - 240) * 262144 + (b2 - 128) * 4096 + (b3 - 128) * 64 + (b4 - 128))
                   <$> utf8_decode r4
            else None
        | _ => None
        end
      else None
  end.

(** The encoder, [str.encode('utf-8')] on scalar values. *)
Definition utf8_encode_cp (c : Z) : bytes :=
  if c <? 128 then [c]
  else if c <? 2048 then [192 + c / 64; 128 + c mod 64]
  else if c <? 65536 then [224 + c / 4096; 128 + (c / 64) mod 64; 128 + c mod 64]
  else [240 + c / 262144; 128 + (c / 4096) mod 64; 128 + (c / 64) mod 64; 128 + c mod 64].

Definition utf8_encode (s : str) : bytes := concat (map utf8_encode_cp s).

(** ASCII text decodes to itself. *)
Lemma utf8_decode_ascii l : Forall (fun b => 0 <= b < 128) l -> utf8_decode l = Some l.
Proof.
  induction 1 as [|b l Hb _ IH]; [done|]. simpl.
  rewrite (proj2 (Z.ltb_lt b 128)) by lia. by rewrite IH.
Qed.

(** A Unicode scalar value: a code point that is not a surrogate. *)
Definition scalar (c : Z) : Prop := (0 <= c < 55296) \/ (57344 <= c <= 1114111).

(** Settle the comparisons of a goal by arithmetic. *)
Ltac zcase :=
  repeat (match goal with
          | |- context [?a <? ?b] => destruct (Z.ltb_spec a b)
          | |- context [?a <=? ?b] => destruct (Z.leb_spec a b)
          | |- context [?a =? ?b] => destruct (Z.eqb_spec a b)
          end; cbn [andb negb]; try lia).

(** The first byte of a sequence decides its length, the next ones are
    checked, and the code point is rebuilt; the bytes are abstracted with
    their ranges so that the comparisons are linear. *)
Ltac decode_bytes c :=
  cbn [app utf8_decode]; unfold second3, second4, cont, in_range; zcase;
  match goal with |- cons ?x <$> _ = cons c <$> _ => replace x with c by lia end; reflexivity.

Lemma utf8_decode_encode_cp c rest :
  scalar c -> utf8_decode (utf8_encode_cp c ++ rest) = cons c <$> utf8_decode rest.
Proof.
  intros Hc. unfold scalar in Hc. unfold utf8_encode_cp.
  destruct (Z.ltb_spec c 128); [cbn [app utf8_decode]; by rewrite (proj2 (Z.ltb_lt c 128))|].
  destruct (Z.ltb_spec c 2048); [|destruct (Z.ltb_spec c 65536)].
  - set (b1 := 192 + c / 64). set (b2 := 128 + c mod 64).
    assert (194 <= b1 <= 223 /\ 128 <= b2 <= 191 /\ (b1 - 192) * 64 + (b2 - 128) = c)
      by (unfold b1, b2; Z.div_mod_to_equations; lia).
    clearbody b1 b2. decode_bytes c.
  - set (b1 := 224 + c / 4096). set (b2 := 128 + (c / 64) mod 64). set (b3 := 128 + c mod 64).
    assert (224 <= b1 <= 239 /\ 128 <= b2 <= 191 /\ 128 <= b3 <= 191 /\
            (b1 - 224) * 4096 + (b2 - 128) * 64 + (b3 - 128) = c /\
            (b1 = 224 -> 160 <= b2) /\ (b1 = 237 -> b2 <= 159))
      by (unfold b1, b2, b3; Z.div_mod_to_equations; lia).
    clearbody b1 b2 b3. decode_bytes c.
  - set (b1 := 240 + c / 262144). set (b2 := 128 + (c / 4096) mod 64).
    set (b3 := 128 + (c / 64) mod 64). set (b4 := 128 + c mod 64).
    assert (240 <= b1 <= 244 /\ 128 <= b2 <= 191 /\ 128 <= b3 <= 191 /\ 128 <= b4 <= 191 /\
            (b1 - 240) * 262144 + (b2 - 128) * 4096 + (b3 - 128) * 64 + (b4 - 128) = c /\
            (b1 = 240 -> 144 <= b2) /\ (b1 = 244 -> b2 <= 143))
      by (unfold b1, b2, b3, b4; Z.div_mod_to_equations; lia).
    clearbody b1 b2 b3 b4. decode_bytes c.
Qed.

(** C9: the strict decoder reads back every text of scalar values that
    the encoder writes: [bytes.decode] inverts [str.encode], so the text
    a probe prints arrives unchanged. *)
Theorem utf8_decode_encode s : Forall scalar s -> utf8_decode (utf8_encode s) = Some s.
Proof.
  induction 1 as [|c s Hc _ IH]; [done|]. unfold utf8_encode in *. cbn [map concat].
  by rewrite utf8_decode_encode_cp, IH.
Qed.

(** [é] and [€] take two and three bytes. *)
Lemma utf8_decode_encode_witness :
  Forall scalar [120; 233; 8364] /\ utf8_decode (utf8_encode [120; 233; 8364]) = Some [120; 233; 8364].
Proof.
  assert (Hs : Forall scalar [120; 233; 8364]) by (repeat constructor; unfold scalar; lia).
  split; [exact Hs|]. exact (utf8_decode_encode _ Hs).
Defined.
