(* ===== verification/Interp.v ===== *)
(** * The Python runtime under [configure.py]

    The interpreter's world (file system, working directory, printed
    transcript, the module global [GEN], whether [try_cleanup] is
    registered with [atexit], the command lines of the processes
    [subprocess.run] started), the exceptions the script raises and
    catches, and the library calls it makes: [print], [exit],
    [os.mkdir]/[os.chdir]/[os.remove]/[os.rmdir], [open(p,'w').write],
    [shutil.which], [bytes.decode] and [subprocess.run].  The world
    outside the interpreter - the compiler, the probe binaries, the shell,
    the [PATH] - is the interface [Host]. *)

From S2P Require Import Prelude PyStr Utf8 Fs.

Open Scope Z_scope.

(** ** Exceptions *)

(** [SystemExit] derives from [BaseException] only; the [OSError]
    family and [UnicodeDecodeError] derive from [Exception]. *)
Inductive exn :=
| SystemExit (code : Z)
| OSError (e : errno)
| UnicodeDecodeError
| IndexError.

Definition is_system_exit (e : exn) : bool :=
  match e with SystemExit _ => true | _ => false end.

(** ** The world *)

Record world := mkWorld {
  w_fs : fsmap;
  w_cwd : path;
  (** what each [print] call wrote, in order *)
  w_out : list str;
  (** the module global [GEN] *)
  w_gen : list str;
  (** [atexit.register(try_cleanup)] has run *)
  w_atexit : bool;
  (** the command line of every process [subprocess.run] started, in
      order *)
  w_procs : list (list str)
}.

Definition set_fs (fs : fsmap) (w : world) : world :=
  mkWorld fs (w_cwd w) (w_out w) (w_gen w) (w_atexit w) (w_procs w).
Definition set_cwd (c : path) (w : world) : world :=
  mkWorld (w_fs w) c (w_out w) (w_gen w) (w_atexit w) (w_procs w).
Lemma w_fs_set_fs fs w : w_fs (set_fs fs w) = fs.
Proof. reflexivity. Qed.
Lemma w_cwd_set_fs fs w : w_cwd (set_fs fs w) = w_cwd w.
Proof. reflexivity. Qed.
Lemma w_fs_set_cwd c w : w_fs (set_cwd c w) = w_fs w.
Proof. reflexivity. Qed.
Lemma w_cwd_set_cwd c w : w_cwd (set_cwd c w) = c.
Proof. reflexivity. Qed.

Definition add_out (s : str) (w : world) : world :=
  mkWorld (w_fs w) (w_cwd w) (w_out w ++ [s]) (w_gen w) (w_atexit w) (w_procs w).
Definition add_gen (s : str) (w : world) : world :=
  mkWorld (w_fs w) (w_cwd w) (w_out w) (w_gen w ++ [s]) (w_atexit w) (w_procs w).
Definition set_atexit (w : world) : world :=
  mkWorld (w_fs w) (w_cwd w) (w_out w) (w_gen w) true (w_procs w).
Definition add_proc (argv : list str) (w : world) : world :=
  mkWorld (w_fs w) (w_cwd w) (w_out w) (w_gen w) (w_atexit w) (w_procs w ++ [argv]).

Abbreviation Py A := (M world exn A).

(** ** The host *)

(** What [subprocess.run] returns. *)
Record completed := mkCompleted {
  returncode : Z;
  stdout : bytes;
  stderr : bytes
}.

(** ** [os.environ] and [IS_MSYS2] *)

(** The [MSYSTEM] values of line 13. *)
Definition MSYS2_SYSTEMS : list str := [u "MSYS"; u "MINGW64"; u "MINGW32"; u "UCRT64"; u "UCRT32"].

(** Line 13: [IS_MSYS2 = 'MSYSTEM' in os.environ and
    os.environ.get('MSYSTEM') in {...}], over [os.environ] as a map from
    names to values; [get] gives [None] for a missing name, which is in
    no set of strings. *)
Definition IS_MSYS2 (environ : gmap str str) : bool :=
  bool_decide (is_Some (environ !! u "MSYSTEM")) &&
  bool_decide (environ !! u "MSYSTEM" ∈ map Some MSYS2_SYSTEMS).

(** The environment of a run.  [environ] is [os.environ]; the model
    takes the host to be an MSYS2 host, whose MinGW driver names its
    output [test.exe], exactly when [IS_MSYS2] holds.  [cc] is the
    compiler's verdict on a
    translation unit: the language of [-x], the contents of the input
    files ([None] for a missing one) and the [-l] libraries, giving the
    exit status and the diagnostics; [exec] is what a probe binary does:
    its exit status and the names of the files it creates in its working
    directory; [sh] is [bash -c]; [tool] any other program on the
    [PATH]. *)
Class Host := {
  environ : gmap str str;
  which : str -> bool;
  cc : option str -> list (option str) -> list str -> Z * bytes;
  exec : image -> Z * list str;
  sh : str -> Z * bytes;
  tool : str -> list str -> completed;
  isprintable : Z -> bool
}.

Section Runtime.
Context `{H : Host}.

(** The module global [IS_MSYS2]. *)
Definition host_msys2 : bool := IS_MSYS2 environ.

(** ** Library calls *)

(** [print(s, end=e)]. *)
Definition py_print (s e : str) : Py unit := modify (add_out (s ++ e)).
Definition println (s : str) : Py unit := py_print s [c_nl].

(** [exit(n)] raises [SystemExit(n)]. *)
Definition py_exit {A} (n : Z) : Py A := raise (SystemExit n).

Definition lift_errno (r : errno + fsmap) : Py unit :=
  match r with
  | inl e => raise (OSError e)
  | inr fs => modify (set_fs fs)
  end.

Definition os_mkdir (p : str) : Py unit :=
  w <- get ;; lift_errno (fs_mkdir (w_fs w) (resolve (w_cwd w) p)).

Definition os_rmdir (p : str) : Py unit :=
  w <- get ;; lift_errno (fs_rmdir (w_fs w) (resolve (w_cwd w) p)).

Definition os_remove (p : str) : Py unit :=
  w <- get ;; lift_errno (fs_unlink (w_fs w) (resolve (w_cwd w) p)).

Definition os_chdir (p : str) : Py unit :=
  w <- get ;;
  let target := resolve (w_cwd w) p in
  match fs_chdir (w_fs w) target with
  | Some e => raise (OSError e)
  | None => modify (set_cwd target)
  end.

(** [with open(p, "w") as f: f.write(s)]. *)
Definition write_file (p : str) (s : str) : Py unit :=
  w <- get ;; lift_errno (fs_create (w_fs w) (resolve (w_cwd w) p) (NText s)).

(** [shutil.which(name) != None]. *)
Definition shutil_which (name : str) : Py bool := ret (which name).

(** [b.decode('utf-8')]. *)
Definition decode (b : bytes) : Py str :=
  match utf8_decode b with
  | Some s => ret s
  | None => raise UnicodeDecodeError
  end.

(** ** [subprocess.run] *)

(** The parts of a [gcc] command line the script uses. *)
Record gcc_cmd := mkGcc {
  g_lang : option str;
  g_inputs : list str;
  g_output : str;
  g_libs : list str
}.

Fixpoint gcc_parse (args : list str) (g : gcc_cmd) : gcc_cmd :=
  match args with
  | [] => g
  | a :: rest =>
      if bool_decide (a = u "-o") then
        match rest with
        | o :: rest' => gcc_parse rest' (mkGcc (g_lang g) (g_inputs g) o (g_libs g))
        | [] => g
        end
      else if bool_decide (take 2 a = u "-x") then
        gcc_parse rest (mkGcc (Some (drop 2 a)) (g_inputs g) (g_output g) (g_libs g))
      else if bool_decide (take 2 a = u "-l") then
        gcc_parse rest (mkGcc (g_lang g) (g_inputs g) (g_output g) (g_libs g ++ [drop 2 a]))
      else gcc_parse rest (mkGcc (g_lang g) (g_inputs g ++ [a]) (g_output g) (g_libs g))
  end.

Definition gcc_default : gcc_cmd := mkGcc None [] (u "a.out") [].

(** The file the linker writes for [-o o]: the MinGW driver appends
    [.exe] to a name without an extension. *)
Definition exe_name (o : str) : str :=
  if host_msys2 && negb (bool_decide (46 ∈ default [] (last (split_on c_slash o))))
  then o ++ u ".exe" else o.

Definition read_text (fs : fsmap) (p : path) : option str :=
  match fs_lookup fs p with Some (NText s) => Some s | _ => None end.

(** [gcc args]: the host's verdict on the sources; on success the
    executable is written (a failed write is a failed link). *)
Definition run_gcc (args : list str) : Py completed :=
  w <- get ;;
  let g := gcc_parse args gcc_default in
  let srcs := map (fun i => read_text (w_fs w) (resolve (w_cwd w) i)) (g_inputs g) in
  let '(rc, err) := cc (g_lang g) srcs (g_libs g) in
  if rc =? 0 then
    match fs_create (w_fs w) (resolve (w_cwd w) (exe_name (g_output g)))
                    (NExe (mkImage (g_lang g) (omap id srcs) (g_libs g))) with
    | inr fs => modify (set_fs fs) ;; ret (mkCompleted 0 [] [])
    | inl _ => ret (mkCompleted 1 [] (u "cannot open output file"))
    end
  else ret (mkCompleted rc [] err).

(** A file that a probe binary creates in its working directory; a
    failure is the binary's own business. *)
Definition touch (name : str) : Py unit :=
  w <- get ;;
  match fs_create (w_fs w) (w_cwd w ++ [name]) (NText []) with
  | inr fs => modify (set_fs fs)
  | inl _ => ret tt
  end.

(** The process [argv] starts: it is recorded in the world's log. *)
Definition started (argv : list str) : Py unit := modify (add_proc argv).

(** Running a program given by a path: [execve] of the file. *)
Definition run_file (prog : str) (args : list str) : Py completed :=
  w <- get ;;
  match fs_lookup (w_fs w) (resolve (w_cwd w) prog) with
  | None => raise (OSError ENOENT)
  | Some (NExe i) =>
      started (prog :: args) ;;
      let '(rc, created) := exec i in
      for_each created touch ;; ret (mkCompleted rc [] [])
  | Some _ => raise (OSError EACCES)
  end.

(** [subprocess.run(argv, stdout=PIPE, stderr=PIPE)]: a name with a
    slash is a path, any other name is looked up on the [PATH]; a
    program that is found starts, and the call waits for it. *)
Definition run (argv : list str) : Py completed :=
  match argv with
  | [] => raise IndexError
  | prog :: args =>
      if bool_decide (c_slash ∈ prog) then run_file prog args
      else if negb (which prog) then raise (OSError ENOENT)
      else
        started argv ;;
        if bool_decide (prog = u "gcc") then run_gcc args
        else if bool_decide (prog = u "bash") then
          match args with
          | [c; cmd] => if bool_decide (c = u "-c")
                       then let '(rc, out) := sh cmd in ret (mkCompleted rc out [])
                       else ret (tool prog args)
          | _ => ret (tool prog args)
          end
        else ret (tool prog args)
  end.
End Runtime.

(** ** What each library call can raise *)

(** An exception that the script's [except BaseException] clauses
    treat as a fault: anything but [SystemExit]. *)
Definition fault (e : exn) : Prop := is_system_exit e = false.

Section RuntimeFacts.
Context `{H : Host}.

Lemma py_print_raises P s e : raises_only P (py_print s e).
Proof. apply raises_only_modify. Qed.

Lemma println_raises P s : raises_only P (println s).
Proof. apply raises_only_modify. Qed.

Lemma py_exit_raises {A} n : raises_only (fun e => e = SystemExit n) (@py_exit A n).
Proof. by apply raises_only_raise. Qed.

Lemma lift_errno_raises r : raises_only fault (lift_errno r).
Proof. destruct r; [by apply raises_only_raise|apply raises_only_modify]. Qed.

Lemma os_remove_raises p : raises_only fault (os_remove p).
Proof. apply raises_only_bind; [apply raises_only_get|intros; apply lift_errno_raises]. Qed.

Lemma os_rmdir_raises p : raises_only fault (os_rmdir p).
Proof. apply raises_only_bind; [apply raises_only_get|intros; apply lift_errno_raises]. Qed.

Lemma os_mkdir_raises p : raises_only fault (os_mkdir p).
Proof. apply raises_only_bind; [apply raises_only_get|intros; apply lift_errno_raises]. Qed.

Lemma write_file_raises p s : raises_only fault (write_file p s).
Proof. apply raises_only_bind; [apply raises_only_get|intros; apply lift_errno_raises]. Qed.

Lemma os_chdir_raises p : raises_only fault (os_chdir p).
Proof.
  apply raises_only_bind; [apply raises_only_get|]. intros w. simpl.
  case_match; [by apply raises_only_raise|apply raises_only_modify].
Qed.

Lemma decode_raises b : raises_only (fun e => e = UnicodeDecodeError) (decode b).
Proof. unfold decode. case_match; [apply raises_only_ret|by apply raises_only_raise]. Qed.

Lemma touch_raises P name : raises_only P (touch name).
Proof.
  apply raises_only_bind; [apply raises_only_get|]. intros w. simpl.
  case_match; first [apply raises_only_modify|apply raises_only_ret].
Qed.

Lemma run_gcc_raises P args : raises_only P (run_gcc args).
Proof.
  apply raises_only_bind; [apply raises_only_get|]. intros w. simpl.
  repeat case_match; eauto using raises_only_bind, raises_only_modify, raises_only_ret.
Qed.

(** [subprocess.run] raises [OSError] when the program cannot be
    started and [IndexError] on an empty command. *)
Lemma run_raises argv :
  raises_only (fun e => (exists en, e = OSError en) \/ e = IndexError) (run argv).
Proof.
  unfold run. destruct argv as [|prog args]; [by apply raises_only_raise; right|].
  destruct (bool_decide (c_slash ∈ prog)).
  - unfold run_file, started. apply raises_only_bind; [apply raises_only_get|]. intros w.
    repeat case_match; subst;
      eauto 10 using raises_only_raise, raises_only_bind, raises_only_ret, raises_only_for_each,
        raises_only_modify, touch_raises.
  - destruct (which prog); simpl; [|by apply raises_only_raise; left; eexists].
    apply raises_only_bind; [apply raises_only_modify|intros _].
    destruct (bool_decide (prog = u "gcc")); [apply run_gcc_raises|].
    repeat case_match; apply raises_only_ret.
Qed.

Lemma run_raises_fault argv : raises_only fault (run argv).
Proof.
  eapply raises_only_weaken; [|apply run_raises].
  by intros e [[en ->]| ->].
Qed.
End RuntimeFacts.

#[export] Hint Resolve py_print_raises println_raises lift_errno_raises os_remove_raises
  os_rmdir_raises os_mkdir_raises write_file_raises os_chdir_raises touch_raises
  run_gcc_raises run_raises_fault : py.

(** ** Steps of the library calls on a known world *)

Section Steps.
Context `{H : Host}.
Context (w : world) (x : str) (Hcwd : fs_lookup (w_fs w) (w_cwd w) = Some NDir).

Lemma write_file_step p s :
  resolve (w_cwd w) p = w_cwd w ++ [x] -> w_fs w !! (w_cwd w ++ [x]) <> Some NDir ->
  write_file p s w = (Ret tt, set_fs (<[w_cwd w ++ [x] := NText s]> (w_fs w)) w).
Proof. intros Hr Hn. unfold write_file, bind, get. simpl. by rewrite Hr, fs_create_child. Qed.

Lemma os_remove_step p n :
  resolve (w_cwd w) p = w_cwd w ++ [x] -> w_fs w !! (w_cwd w ++ [x]) = Some n -> n <> NDir ->
  os_remove p w = (Ret tt, set_fs (delete (w_cwd w ++ [x]) (w_fs w)) w).
Proof. intros Hr Hl Hn. unfold os_remove, bind, get. simpl. by erewrite Hr, fs_unlink_child. Qed.

Lemma os_remove_missing p :
  resolve (w_cwd w) p = w_cwd w ++ [x] -> w_fs w !! (w_cwd w ++ [x]) = None ->
  os_remove p w = (Exc (OSError ENOENT), w).
Proof. intros Hr Hl. unfold os_remove, bind, get. simpl. by rewrite Hr, fs_unlink_child_missing. Qed.
End Steps.

(** ** Calls that leave [GEN] alone *)

(** [m] does not touch the module global [GEN]. *)
Definition keeps_gen {A} (m : Py A) : Prop := forall g, preserves (fun w => w_gen w = g) m.

Section KeepsGen.
Context `{H : Host}.

Lemma keeps_gen_modify f : (forall w, w_gen (f w) = w_gen w) -> keeps_gen (modify f).
Proof. intros Hf g w Hw. simpl. by rewrite Hf. Qed.

Lemma keeps_gen_ret {A} (a : A) : keeps_gen (ret a).
Proof. intros g. apply preserves_ret. Qed.

Lemma keeps_gen_raise {A} e : keeps_gen (@raise world exn A e).
Proof. intros g. apply preserves_raise. Qed.

Lemma keeps_gen_get : keeps_gen (@get world exn).
Proof. by intros g w. Qed.

Lemma keeps_gen_bind {A B} (m : Py A) (k : A -> Py B) :
  keeps_gen m -> (forall a, keeps_gen (k a)) -> keeps_gen (bind m k).
Proof. intros Hm Hk g. apply preserves_bind; [apply Hm|intros a; apply Hk]. Qed.

Lemma keeps_gen_catch {A} (m : Py A) h :
  keeps_gen m -> (forall e, keeps_gen (h e)) -> keeps_gen (catch m h).
Proof. intros Hm Hh g. apply preserves_catch; [apply Hm|intros e; apply Hh]. Qed.

Lemma keeps_gen_for_each {A} (l : list A) body :
  (forall x, keeps_gen (body x)) -> keeps_gen (for_each l body).
Proof. intros Hb g. apply preserves_for_each. intros x. apply Hb. Qed.

Lemma keeps_gen_print s e : keeps_gen (py_print s e).
Proof. by apply keeps_gen_modify. Qed.

Lemma keeps_gen_println s : keeps_gen (println s).
Proof. by apply keeps_gen_modify. Qed.

Lemma keeps_gen_lift r : keeps_gen (lift_errno r).
Proof. destruct r; [apply keeps_gen_raise|by apply keeps_gen_modify]. Qed.

Lemma keeps_gen_exit {A} n : keeps_gen (@py_exit A n).
Proof. apply keeps_gen_raise. Qed.

End KeepsGen.

(** Take a program apart into calls that keep [GEN]. *)
Ltac keeps_solve :=
  repeat (intros; first
    [ apply keeps_gen_bind | apply keeps_gen_catch | apply keeps_gen_for_each
    | apply keeps_gen_ret | apply keeps_gen_raise | apply keeps_gen_get
    | apply keeps_gen_lift | apply keeps_gen_exit | apply keeps_gen_print | apply keeps_gen_println
    | by apply keeps_gen_modify
    | progress case_match ]).

Section KeepsGenCalls.
Context `{H : Host}.

Lemma keeps_gen_os_remove p : keeps_gen (os_remove p).
Proof. unfold os_remove. keeps_solve. Qed.

Lemma keeps_gen_os_rmdir p : keeps_gen (os_rmdir p).
Proof. unfold os_rmdir. keeps_solve. Qed.

Lemma keeps_gen_os_mkdir p : keeps_gen (os_mkdir p).
Proof. unfold os_mkdir. keeps_solve. Qed.

Lemma keeps_gen_os_chdir p : keeps_gen (os_chdir p).
Proof. unfold os_chdir. keeps_solve. Qed.

Lemma keeps_gen_write_file p s : keeps_gen (write_file p s).
Proof. unfold write_file. keeps_solve. Qed.

Lemma keeps_gen_decode b : keeps_gen (decode b).
Proof. unfold decode. keeps_solve. Qed.

Lemma keeps_gen_touch name : keeps_gen (touch name).
Proof. unfold touch. keeps_solve. Qed.

Lemma keeps_gen_run argv : keeps_gen (run argv).
Proof.
  unfold run, run_file, run_gcc. keeps_solve; apply keeps_gen_touch.
Qed.
End KeepsGenCalls.

#[export] Hint Resolve keeps_gen_exit keeps_gen_ret keeps_gen_raise keeps_gen_get keeps_gen_bind
  keeps_gen_catch keeps_gen_for_each keeps_gen_print keeps_gen_println keeps_gen_lift
  keeps_gen_os_remove keeps_gen_os_rmdir keeps_gen_os_mkdir keeps_gen_os_chdir
  keeps_gen_write_file keeps_gen_decode keeps_gen_touch keeps_gen_run : py.

(** ** Calls that leave a field of the world alone *)

(** A field of the world that the file system calls and [print] leave
    alone: the registration of the exit handler and the log of started
    processes are such fields. *)
Class Untouched {B} (f : world -> B) := {
  untouched_fs fs w : f (set_fs fs w) = f w;
  untouched_cwd c w : f (set_cwd c w) = f w;
  untouched_out s w : f (add_out s w) = f w;
  untouched_gen s w : f (add_gen s w) = f w
}.

#[export] Instance untouched_atexit : Untouched w_atexit.
Proof. by split. Qed.

#[export] Instance untouched_procs : Untouched w_procs.
Proof. by split. Qed.

(** [m] leaves the field [f] as it found it: the [monotone] rules of
    the prelude for the relation [on_rel eq f]. *)
Abbreviation keeps f m := (monotone (on_rel (@eq _) f) m).

Lemma keeps_snd {A B} (f : world -> B) (m : Py A) w : keeps f m -> f (snd (m w)) = f w.
Proof. intros Hm. symmetry. apply Hm. Qed.

Create HintDb field discriminated.
#[export] Hint Extern 1 (Untouched _) => apply _ : field.

(** Take a program apart into steps that keep the field; an update of
    the world is one of those [Untouched] names. *)
Ltac field_step :=
  first
    [ apply monotone_modify;
        [intros ?; first [reflexivity | symmetry; apply untouched_fs | symmetry; apply untouched_cwd
                         | symmetry; apply untouched_out | symmetry; apply untouched_gen]|..]
    | mono_step ].

Ltac field_solve := repeat (intros; first [solve [eauto 2 with field] | field_step]).

Section KeepsField.
Context `{H : Host} {B} (f : world -> B) `{!Untouched f}.

Lemma keeps_print s e : keeps f (py_print s e).
Proof. field_solve. Qed.

Lemma keeps_println s : keeps f (println s).
Proof. field_solve. Qed.

Lemma keeps_exit {A} n : keeps f (@py_exit A n).
Proof. unfold py_exit. field_solve. Qed.

Lemma keeps_lift r : keeps f (lift_errno r).
Proof. unfold lift_errno. field_solve. Qed.

Lemma keeps_decode b : keeps f (decode b).
Proof. unfold decode. field_solve. Qed.
End KeepsField.

#[export] Hint Resolve keeps_print keeps_println keeps_exit keeps_lift keeps_decode : field.

Section KeepsFieldCalls.
Context `{H : Host} {B} (f : world -> B) `{!Untouched f}.

Lemma keeps_os_remove p : keeps f (os_remove p).
Proof. unfold os_remove. field_solve. Qed.

Lemma keeps_os_rmdir p : keeps f (os_rmdir p).
Proof. unfold os_rmdir. field_solve. Qed.

Lemma keeps_os_mkdir p : keeps f (os_mkdir p).
Proof. unfold os_mkdir. field_solve. Qed.

Lemma keeps_os_chdir p : keeps f (os_chdir p).
Proof. unfold os_chdir. field_solve. Qed.

Lemma keeps_write_file p s : keeps f (write_file p s).
Proof. unfold write_file. field_solve. Qed.

Lemma keeps_touch name : keeps f (touch name).
Proof. unfold touch. field_solve. Qed.
End KeepsFieldCalls.

#[export] Hint Resolve keeps_os_remove keeps_os_rmdir keeps_os_mkdir keeps_os_chdir
  keeps_write_file keeps_touch : field.

(** ** How many lines a call appends to [GEN] *)

(** [m] only appends to [GEN], and at most [n] lines. *)
Definition appends {A} (n : nat) (m : Py A) : Prop :=
  forall w, exists l, (length l <= n)%nat /\ w_gen (snd (m w)) = w_gen w ++ l.

Section Appends.
Context `{H : Host}.

Lemma appends_keeps {A} n (m : Py A) : keeps_gen m -> appends n m.
Proof. intros Hm w. exists []. split; [simpl; lia|]. rewrite app_nil_r. by apply (Hm (w_gen w)). Qed.

Lemma appends_add_gen s : appends 1 (modify (E:=exn) (add_gen s)).
Proof. intros w. by exists [s]. Qed.

(** A sequence appends what its parts append; a part that keeps [GEN]
    adds nothing. *)
Lemma appends_bind_l {A B} n (m : Py A) (k : A -> Py B) :
  keeps_gen m -> (forall a, appends n (k a)) -> appends n (bind m k).
Proof.
  intros Hm Hk w. unfold bind. pose proof (Hm (w_gen w) w eq_refl) as Hw.
  destruct (m w) as [[a|e] w'] eqn:E; simpl in *.
  - destruct (Hk a w') as (l & Hl & Hg). exists l. by rewrite Hg, Hw.
  - exists []. split; [simpl; lia|]. by rewrite Hw, app_nil_r.
Qed.

Lemma appends_bind_r {A B} n (m : Py A) (k : A -> Py B) :
  appends n m -> (forall a, keeps_gen (k a)) -> appends n (bind m k).
Proof.
  intros Hm Hk w. unfold bind. destruct (Hm w) as (l & Hl & Hg).
  exists l. split; [done|].
  destruct (m w) as [[a|e] w'] eqn:E; simpl in *; [|done].
  by rewrite (Hk a (w_gen w') w' eq_refl).
Qed.

(** A handler that keeps [GEN] adds nothing to what the body appended
    before it raised. *)
Lemma appends_catch_r {A} n (m : Py A) h :
  appends n m -> (forall e, keeps_gen (h e)) -> appends n (catch m h).
Proof.
  intros Hm Hh w. unfold catch. destruct (Hm w) as (l & Hl & Hg).
  exists l. split; [done|].
  destruct (m w) as [[a|e] w'] eqn:E; simpl in *; [done|].
  by rewrite (Hh e (w_gen w') w' eq_refl).
Qed.
End Appends.

(** ** Calls that stay in the working directory *)

(** The working directory is [c], the exit handler flag is [b], and the
    path [p], which is not an entry of [c], holds [v]. *)
Definition stays (c : path) (b : bool) (p : path) (v : option node) (w : world) : Prop :=
  w_cwd w = c /\ w_atexit w = b /\ removelast p <> c /\ w_fs w !! p = v.

(** [m] keeps the working directory and the exit handler and changes no
    path outside the working directory. *)
Definition frames {A} (m : Py A) : Prop := forall c b p v, preserves (stays c b p v) m.

Section Frames.
Context `{H : Host}.

Lemma frames_ret {A} (a : A) : frames (ret a).
Proof. intros c b p v. apply preserves_ret. Qed.

Lemma frames_raise {A} e : frames (@raise world exn A e).
Proof. intros c b p v. apply preserves_raise. Qed.

Lemma frames_get : frames (@get world exn).
Proof. by intros c b p v w. Qed.

Lemma frames_bind {A B} (m : Py A) (k : A -> Py B) :
  frames m -> (forall a, frames (k a)) -> frames (bind m k).
Proof. intros Hm Hk c b p v. apply preserves_bind; [apply Hm|intros a; apply Hk]. Qed.

Lemma frames_catch {A} (m : Py A) h : frames m -> (forall e, frames (h e)) -> frames (catch m h).
Proof. intros Hm Hh c b p v. apply preserves_catch; [apply Hm|intros e; apply Hh]. Qed.

Lemma frames_for_each {A} (l : list A) body : (forall x, frames (body x)) -> frames (for_each l body).
Proof. intros Hb c b p v. apply preserves_for_each. intros x. apply Hb. Qed.

Lemma frames_modify f :
  (forall w, w_cwd (f w) = w_cwd w /\ w_atexit (f w) = w_atexit w /\ w_fs (f w) = w_fs w) ->
  frames (modify f).
Proof.
  intros Hf c b p v w (Hc & Hb & Hp & Hv). destruct (Hf w) as (Hcw & Hbw & Hfs).
  unfold stays. cbn [modify snd]. by rewrite Hcw, Hbw, Hfs.
Qed.

Lemma frames_print s e : frames (py_print s e).
Proof. by apply frames_modify. Qed.

Lemma frames_println s : frames (println s).
Proof. by apply frames_modify. Qed.

Lemma frames_exit {A} n : frames (@py_exit A n).
Proof. apply frames_raise. Qed.

(** A change of the entry [q] of the working directory leaves every path
    outside it. *)
Lemma stays_insert (c : path) (b : bool) (p : path) (v : option node) (w : world) (x : str)
    (f : fsmap -> fsmap) :
  stays c b p v w -> (forall r, r <> w_cwd w ++ [x] -> f (w_fs w) !! r = w_fs w !! r) ->
  stays c b p v (set_fs (f (w_fs w)) w).
Proof.
  intros (Hc & Hb & Hp & Hv) Hf. do 3 (split; [done|]). simpl. rewrite Hf; [done|].
  intros ->. rewrite removelast_app_single in Hp. congruence.
Qed.

Lemma frames_local_op (f : fsmap -> path -> errno + fsmap) (p : str) :
  local p -> touches_only f ->
  frames (w <- get ;; lift_errno (f (w_fs w) (resolve (w_cwd w) p))).
Proof.
  intros [x Hx] Hf c b r v w Hs. unfold bind, get. simpl. rewrite Hx.
  destruct (f (w_fs w) (w_cwd w ++ [x])) as [e|fs'] eqn:E; simpl; [done|].
  apply (stays_insert c b r v w x (fun _ => fs')); [done|]. by apply Hf.
Qed.

Lemma frames_os_remove p : local p -> frames (os_remove p).
Proof. intros Hp. apply frames_local_op; [done|apply touches_only_unlink]. Qed.

Lemma frames_os_rmdir p : local p -> frames (os_rmdir p).
Proof. intros Hp. apply frames_local_op; [done|apply touches_only_rmdir]. Qed.

Lemma frames_os_mkdir p : local p -> frames (os_mkdir p).
Proof. intros Hp. apply frames_local_op; [done|apply touches_only_mkdir]. Qed.

Lemma frames_write_file p s : local p -> frames (write_file p s).
Proof. intros Hp. apply (frames_local_op (fun fs q => fs_create fs q (NText s))); [done|apply touches_only_create]. Qed.

Lemma frames_decode b : frames (decode b).
Proof. unfold decode. case_match; [apply frames_ret|apply frames_raise]. Qed.

Lemma frames_touch name : frames (touch name).
Proof.
  intros c b p v w Hs. unfold touch, bind, get. simpl.
  destruct (fs_create _ _ _) as [e|fs'] eqn:E; simpl; [done|].
  apply (stays_insert c b p v w name (fun _ => fs')); [done|].
  intros r Hr. by apply (touches_only_create _ _ _ _ E).
Qed.

Lemma frames_started argv : frames (started argv).
Proof. by apply frames_modify. Qed.

Lemma frames_run_file prog args : frames (run_file prog args).
Proof.
  unfold run_file. apply frames_bind; [apply frames_get|]. intros w.
  repeat case_match; subst;
    eauto using frames_raise, frames_bind, frames_ret, frames_for_each, frames_touch, frames_started.
Qed.

(** [gcc] writes its output where [-o] says: when that is an entry of
    the working directory, the run stays in it. *)
Lemma frames_run_gcc args :
  local (exe_name (g_output (gcc_parse args gcc_default))) -> frames (run_gcc args).
Proof.
  intros [x Hx] c b p v w Hs. unfold run_gcc, bind, get. cbv beta iota.
  destruct (cc _ _ _) as [rc err]. destruct (rc =? 0); [|done].
  rewrite Hx. destruct (fs_create _ _ _) as [e|fs'] eqn:E; [done|]. simpl.
  apply (stays_insert c b p v w x (fun _ => fs')); [done|].
  intros r Hr. by apply (touches_only_create _ _ _ _ E).
Qed.

Lemma frames_run argv :
  (forall args, argv = u "gcc" :: args -> local (exe_name (g_output (gcc_parse args gcc_default)))) ->
  frames (run argv).
Proof.
  intros Hg. unfold run. destruct argv as [|prog args]; [apply frames_raise|].
  destruct (bool_decide (c_slash ∈ prog)); [apply frames_run_file|].
  destruct (negb (which prog)); [apply frames_raise|].
  apply frames_bind; [apply frames_started|intros _].
  destruct (bool_decide (prog = u "gcc")) eqn:E.
  - apply bool_decide_eq_true in E as ->. by apply frames_run_gcc, Hg.
  - repeat case_match; apply frames_ret.
Qed.
End Frames.

#[export] Hint Resolve frames_ret frames_raise frames_get frames_bind frames_catch
  frames_for_each frames_print frames_println frames_exit frames_decode frames_touch
  frames_run_file frames_started : py.

(** ** The two outcomes of [os.chdir] and [os.rmdir] *)

Section DirOps.
Context `{H : Host}.

Lemma os_chdir_cases p w :
  (exists e, os_chdir p w = (Exc e, w)) \/ os_chdir p w = (Ret tt, set_cwd (resolve (w_cwd w) p) w).
Proof.
  unfold os_chdir, bind, get. simpl. destruct (fs_chdir _ _); [left; by eexists|by right].
Qed.

Lemma os_rmdir_fs p w :
  w_fs (snd (os_rmdir p w)) = w_fs w \/
  w_fs (snd (os_rmdir p w)) = delete (resolve (w_cwd w) p) (w_fs w).
Proof.
  unfold os_rmdir, bind, get. simpl. destruct (fs_rmdir _ _) as [e|fs'] eqn:E; [by left|right].
  simpl. by apply fs_rmdir_inr.
Qed.
End DirOps.

(** ** Calls that keep the file system well formed *)

(** Every entry of the file system hangs under a directory ([Fs.wf]). *)
Definition fs_wf (w : world) : Prop := wf (w_fs w).

Section FsWf.
Context `{H : Host}.

Lemma fs_wf_modify f : (forall w, w_fs (f w) = w_fs w) -> preserves fs_wf (modify (E:=exn) f).
Proof. intros Hf w. unfold fs_wf. simpl. by rewrite Hf. Qed.

(** A call that replaces the file system by the result of an operation
    that keeps it well formed. *)
Lemma fs_wf_lift (f : world -> errno + fsmap) :
  (forall w fs', wf (w_fs w) -> f w = inr fs' -> wf fs') ->
  preserves fs_wf (w <- get ;; lift_errno (f w)).
Proof.
  intros Hf w Hw. unfold bind, get, lift_errno. cbn beta iota.
  destruct (f w) eqn:E; [done|]. by eapply Hf.
Qed.

Lemma fs_wf_os_mkdir p : preserves fs_wf (os_mkdir p).
Proof. apply fs_wf_lift. intros w fs' Hw. exact (fs_mkdir_wf _ Hw fs' _). Qed.

Lemma fs_wf_os_rmdir p : preserves fs_wf (os_rmdir p).
Proof. apply fs_wf_lift. intros w fs' Hw. exact (fs_rmdir_wf _ Hw fs' _). Qed.

Lemma fs_wf_os_remove p : preserves fs_wf (os_remove p).
Proof. apply fs_wf_lift. intros w fs' Hw. exact (fs_unlink_wf _ Hw fs' _). Qed.

Lemma fs_wf_write_file p s : preserves fs_wf (write_file p s).
Proof. apply fs_wf_lift. intros w fs' Hw. exact (fs_create_wf _ Hw fs' _ _). Qed.

Lemma fs_wf_os_chdir p : preserves fs_wf (os_chdir p).
Proof.
  intros w Hw. unfold os_chdir, bind, get. cbn beta iota zeta.
  by destruct (fs_chdir _ _).
Qed.

Lemma fs_wf_decode b : preserves fs_wf (decode b).
Proof. unfold decode. case_match; [apply preserves_ret|apply preserves_raise]. Qed.

Lemma fs_wf_print s e : preserves fs_wf (py_print s e).
Proof. by apply fs_wf_modify. Qed.

Lemma fs_wf_println s : preserves fs_wf (println s).
Proof. by apply fs_wf_modify. Qed.

Lemma fs_wf_touch name : preserves fs_wf (touch name).
Proof.
  intros w Hw. unfold touch, bind, get. cbn beta iota.
  destruct (fs_create _ _ _) eqn:E; [done|]. by eapply fs_create_wf; [exact Hw|].
Qed.

Lemma fs_wf_get : preserves fs_wf (@get world exn).
Proof. by intros w. Qed.

Lemma fs_wf_started argv : preserves fs_wf (started argv).
Proof. by apply fs_wf_modify. Qed.

Lemma fs_wf_run_file prog args : preserves fs_wf (run_file prog args).
Proof.
  unfold run_file. apply preserves_bind; [apply fs_wf_get|intros w].
  repeat case_match; eauto using preserves_raise, preserves_ret, preserves_bind, preserves_for_each, fs_wf_touch, fs_wf_started.
Qed.

Lemma fs_wf_run_gcc args : preserves fs_wf (run_gcc args).
Proof.
  intros w Hw. unfold run_gcc, bind, get. cbn beta iota zeta.
  destruct (cc _ _ _) as [rc err]. destruct (rc =? 0); [|done].
  destruct (fs_create _ _ _) eqn:E; [done|]. by eapply fs_create_wf; [exact Hw|exact E].
Qed.

Lemma fs_wf_run argv : preserves fs_wf (run argv).
Proof.
  unfold run. destruct argv as [|prog args]; [apply preserves_raise|].
  repeat case_match;
    auto using preserves_raise, preserves_ret, preserves_bind, fs_wf_run_file, fs_wf_run_gcc, fs_wf_started.
Qed.
End FsWf.

#[export] Hint Resolve preserves_ret preserves_raise preserves_bind preserves_catch preserves_for_each
  fs_wf_os_mkdir fs_wf_os_rmdir fs_wf_os_remove fs_wf_write_file fs_wf_os_chdir fs_wf_decode
  fs_wf_print fs_wf_println fs_wf_touch fs_wf_run : py.

(** Take a program apart into calls that keep the file system well
    formed, by the syntax of the program. *)
Ltac wf_solve :=
  repeat (intros; match goal with
    | |- preserves _ (bind _ _) => apply preserves_bind
    | |- preserves _ (catch _ _) => apply preserves_catch
    | |- preserves _ (for_each _ _) => apply preserves_for_each
    | |- preserves _ (ret _) => apply preserves_ret
    | |- preserves _ (raise _) => apply preserves_raise
    | |- preserves _ (py_exit _) => apply preserves_raise
    | |- preserves _ get => apply fs_wf_get
    | |- preserves _ (modify _) => by apply fs_wf_modify
    | |- preserves _ (os_mkdir _) => apply fs_wf_os_mkdir
    | |- preserves _ (os_rmdir _) => apply fs_wf_os_rmdir
    | |- preserves _ (os_remove _) => apply fs_wf_os_remove
    | |- preserves _ (os_chdir _) => apply fs_wf_os_chdir
    | |- preserves _ (write_file _ _) => apply fs_wf_write_file
    | |- preserves _ (decode _) => apply fs_wf_decode
    | |- preserves _ (py_print _ _) => apply fs_wf_print
    | |- preserves _ (println _) => apply fs_wf_println
    | |- preserves _ (run _) => apply fs_wf_run
    | |- preserves _ (if _ then _ else _) => case_match
    | |- preserves _ (match _ with _ => _ end) => case_match
    | H : preserves ?P ?m |- preserves ?P ?m => exact H
    end).

(** ** Calls that create no entry at a given path *)

(** The entry [q] does not exist. *)
Definition absent (q : path) (w : world) : Prop := w_fs w !! q = None.

Section Absent.
Context `{H : Host} (q : path).

Lemma absent_modify f : (forall w, w_fs (f w) = w_fs w) -> preserves (absent q) (modify (E:=exn) f).
Proof. intros Hf w. unfold absent. simpl. by rewrite Hf. Qed.

Lemma absent_print s e : preserves (absent q) (py_print s e).
Proof. by apply absent_modify. Qed.

Lemma absent_println s : preserves (absent q) (println s).
Proof. by apply absent_modify. Qed.

Lemma absent_get : preserves (absent q) (@get world exn).
Proof. by intros w. Qed.

Lemma absent_decode b : preserves (absent q) (decode b).
Proof. unfold decode. case_match; [apply preserves_ret|apply preserves_raise]. Qed.

(** [os.remove] only deletes. *)
Lemma absent_os_remove p : preserves (absent q) (os_remove p).
Proof.
  intros w Hw. unfold os_remove, bind, get, absent in *. cbn beta iota.
  destruct (fs_unlink _ _) as [e|fs'] eqn:E; [done|]. apply fs_unlink_inr in E as ->.
  simpl. rewrite lookup_delete. by case_decide.
Qed.
End Absent.

(** Take a program apart into calls that create nothing at [q]. *)
Ltac absent_solve :=
  repeat (intros; match goal with
    | |- preserves _ (bind _ _) => apply preserves_bind
    | |- preserves _ (catch _ _) => apply preserves_catch
    | |- preserves _ (ret _) => apply preserves_ret
    | |- preserves _ (raise _) => apply preserves_raise
    | |- preserves _ (py_exit _) => apply preserves_raise
    | |- preserves _ get => apply absent_get
    | |- preserves _ (modify _) => by apply absent_modify
    | |- preserves _ (os_remove _) => apply absent_os_remove
    | |- preserves _ (decode _) => apply absent_decode
    | |- preserves _ (py_print _ _) => apply absent_print
    | |- preserves _ (println _) => apply absent_println
    | |- preserves _ (if _ then _ else _) => case_match
    | |- preserves _ (match _ with _ => _ end) => case_match
    end).
