(* ===== verification/Probes.v ===== *)
(** * The probe functions of [configure.py]

    [check_bin], [check], [check_header], [define_stdout], [cleanup_file]
    and [try_cleanup], each the whole Python function, statement by
    statement, over the runtime of [Interp].  The module global [GEN] is
    the field [w_gen] of the world; [GEN.append] is [gen_append].  The
    theorems give the exceptions each function lets escape and classify
    every branch of [check], [check_header] and [define_stdout]; the
    concrete runs at the end are their witnesses. *)

From S2P Require Import Prelude PyStr Utf8 Fs Interp.

Open Scope Z_scope.

(** ** Helpers of the translation *)

(** The truth value of [head] in [if head:]: [None] and [""] are
    false. *)
Definition truthy (head : option str) : bool :=
  match head with Some h => negb (bool_decide (h = [])) | None => false end.

(** [try: m  except: pass]. *)
Definition try_pass (m : Py unit) : Py unit := catch m (fun _ => ret tt).

Definition gen_append (line : str) : Py unit := modify (add_gen line).

(** [f"#define {head}"] and [f"//#define {head}"]. *)
Definition define_line (h : str) : str := u "#define " ++ h.
Definition undef_line (h : str) : str := u "//#define " ++ h.

(** [if head: GEN.append(line(head))]. *)
Definition gen_if (head : option str) (line : str -> str) : Py unit :=
  match head with
  | Some h => if truthy head then gen_append (line h) else ret tt
  | None => ret tt
  end.

Definition dots (s : str) : str := ljust s 60 46 ++ u "...".

Section Probes.
Context `{H : Host}.

(** ** [check_bin] (lines 23-28) *)
Definition check_bin (name : str) : Py unit :=
  py_print (u "Checking binary: " ++ dots name) [] ;;
  found <- shutil_which name ;;
  if negb found then println (u "fail") ;; py_exit 1
  else println (u "ok").

(** ** [check] (lines 31-111) *)

(** The translation unit: the includes joined by newlines, a blank
    line, then [main] around the snippet. *)
Definition check_source (headers : list str) (example : str) : str :=
  join [c_nl] (map (fun i => u "#include <" ++ i ++ u ">") headers) ++ [c_nl; c_nl] ++
  u "int main(int argc, char **argv) {" ++ [c_nl] ++ example ++ [c_nl] ++ u "}".

Definition check_exe : str := if host_msys2 then u "./test.exe" else u "./test".

Definition link_flags (link : list str) : list str := map (fun l => u "-l" ++ l) link.

Definition check_argv (link : list str) : list str :=
  [u "gcc"; u "-xc"; u "./test.c"; u "-o"; check_exe] ++ link_flags link.

(** The body of the [try] block; every path that completes returns. *)
Definition check_try (head : option str) (headers : list str) (example : str)
    (mandatory : bool) (link : list str) : Py unit :=
  write_file (u "./test.c") (check_source headers example) ;;
  py_print (repr_list isprintable (check_argv link)) [c_nl] ;;
  gcc <- run (check_argv link) ;;
  if negb (returncode gcc =? 0) then
    os_remove (u "./test.c") ;;
    println (u "gcc fail") ;;
    if mandatory then
      println (u "MANDATORY CHECK FAILED") ;;
      err <- decode (stderr gcc) ;;
      println err ;;
      py_exit 1
    else ret tt
  else
    os_remove (u "./test.c") ;;
    r <- run [check_exe] ;;
    try_pass (os_remove check_exe) ;;
    if returncode r =? 0 then
      gen_if head define_line ;;
      println (u "yes")
    else
      println (u "no") ;;
      (if mandatory then println (u "MANDATORY CHECK FAILED") ;; py_exit 1 else ret tt) ;;
      gen_if head undef_line.

(** After [except BaseException: pass]: the error path. *)
Definition check_error (mandatory : bool) : Py unit :=
  try_pass (os_remove (u "./test.c")) ;;
  try_pass (os_remove (u "./test") ;; os_remove (u "./test.exe")) ;;
  println (u "error") ;;
  if mandatory then println (u "MANDATORY CHECK FAILED") ;; py_exit 1 else ret tt.

Definition check (head : option str) (feat : str) (headers : list str) (example : str)
    (mandatory : bool) (link : list str) : Py unit :=
  py_print (u "Checking with c: " ++ dots feat) [] ;;
  catch (check_try head headers example mandatory link)
        (fun e => if is_system_exit e then raise e else check_error mandatory).

(** ** [check_header] (lines 114-153) *)

Definition header_source (header : str) : str :=
  u "#include <" ++ header ++ u ">" ++ [c_nl; c_nl] ++
  u "int main(int argc, char **argv) {" ++ [c_nl] ++ u "return 0;" ++ [c_nl] ++ u "}    ".

Definition header_argv : list str := [u "gcc"; u "./test.c"; u "-o"; u "./test"].

Definition check_header_try (head : option str) (header : str) (mandatory : bool) : Py unit :=
  write_file (u "./test.c") (header_source header) ;;
  gcc <- run header_argv ;;
  if negb (returncode gcc =? 0) then
    os_remove (u "./test.c") ;;
    println (u "can't import") ;;
    gen_if head undef_line ;;
    if mandatory then
      println (u "MANDATORY CHECK FAILED") ;;
      err <- decode (stderr gcc) ;;
      println err ;;
      py_exit 1
    else ret tt
  else
    println (u "exists") ;;
    gen_if head define_line.

(** The bare [except:] also catches the [SystemExit] of [exit(1)]. *)
Definition check_header (head : option str) (header : str) (mandatory : bool) : Py unit :=
  py_print (u "Checking header: " ++ dots header) [] ;;
  catch (check_header_try head header mandatory) (fun _ => println (u "fail")).

(** ** [define_stdout] (lines 156-167) *)

(** [f"#define {head} {value!r}"]. *)
Definition define_value_line (h value : str) : str :=
  u "#define " ++ h ++ u " " ++ repr isprintable value.

Definition define_stdout (head : option str) (name : str) (cmd : str) (mandatory : bool) : Py unit :=
  py_print (u "Defining       : " ++ dots name) [] ;;
  out <- run [u "bash"; u "-c"; cmd] ;;
  text <- decode (stdout out) ;;
  println text ;;
  if returncode out =? 0 then
    (match head with
     | Some h => if truthy head then
                   value <- decode (stdout out) ;;
                   gen_append (define_value_line h (removesuffix value [c_nl]))
                 else ret tt
     | None => ret tt
     end) ;;
    println (u "success")
  else
    gen_if head undef_line ;;
    println (u "fail").

(** ** [cleanup_file] and [try_cleanup] (lines 170-195) *)

Definition cleanup_file (p : str) : Py unit := try_pass (os_remove p).

Definition try_cleanup : Py unit :=
  try_pass (os_remove (u "./temp")) ;;
  try_pass (os_remove (u "./test.c")) ;;
  try_pass (os_remove (u "./test")) ;;
  try_pass (os_chdir (u "..") ;; os_rmdir (u "./configure")).
End Probes.

(** ** Which exceptions escape each probe *)

Lemma raises_only_any {S E A} (m : M S E A) : raises_only (fun _ => True) m.
Proof. done. Qed.

Lemma try_pass_raises P (m : Py unit) : raises_only P (try_pass m).
Proof.
  apply (raises_only_catch _ (fun _ => True)); [apply raises_only_any|].
  intros; apply raises_only_ret.
Qed.

Lemma gen_if_raises P head line : raises_only P (gen_if head line).
Proof. unfold gen_if, gen_append. repeat case_match; auto using raises_only_ret, raises_only_modify. Qed.

#[export] Hint Resolve try_pass_raises gen_if_raises : py.

Section KeepsFieldProbes.
Context {B} (f : world -> B) `{!Untouched f}.

Lemma keeps_try_pass m : keeps f m -> keeps f (try_pass m).
Proof. intros Hm. unfold try_pass. field_solve. Qed.

Lemma keeps_gen_if head line : keeps f (gen_if head line).
Proof. unfold gen_if, gen_append. field_solve. Qed.
End KeepsFieldProbes.

#[export] Hint Resolve keeps_try_pass keeps_gen_if : field.

(** The side condition of a weakening: each exception the call may
    raise is allowed by the predicate at hand. *)
Ltac weaken_solve :=
  let e := fresh "e" in
  let He := fresh "He" in
  intros e He; cbv beta in He |- *; unfold fault in *;
  repeat match goal with
         | Hd : _ \/ _ |- _ => destruct Hd
         | Hx : ex _ |- _ => destruct Hx
         end;
  subst; simpl in *; naive_solver.

(** Take a program apart and discharge each call with the facts of
    [Interp], weakening them to the predicate at hand. *)
Ltac raises_solve :=
  repeat match goal with
  | |- raises_only _ (bind _ _) => apply raises_only_bind; [|intros]
  | |- raises_only _ (if ?b then _ else _) => destruct b
  | |- raises_only _ (ret _) => apply raises_only_ret
  | |- raises_only _ (py_print _ _) => apply py_print_raises
  | |- raises_only _ (println _) => apply println_raises
  | |- raises_only _ (gen_if _ _) => apply gen_if_raises
  | |- raises_only _ (try_pass _) => apply try_pass_raises
  | |- raises_only _ (py_exit _) =>
      (eapply raises_only_weaken; [|apply py_exit_raises]); weaken_solve
  | |- raises_only _ (decode _) =>
      (eapply raises_only_weaken; [|apply decode_raises]); weaken_solve
  | |- raises_only _ (run _) =>
      (eapply raises_only_weaken; [|apply run_raises]); weaken_solve
  | |- raises_only _ ?m =>
      (eapply raises_only_weaken; [|solve [eauto with py]]); weaken_solve
  end.

Section ProbeRaises.
Context `{H : Host}.

Lemma check_error_raises mandatory :
  raises_only (fun e => mandatory = true /\ e = SystemExit 1) (check_error mandatory).
Proof. unfold check_error. raises_solve. Qed.

Lemma check_try_raises head headers example mandatory link :
  raises_only (fun e => fault e \/ (mandatory = true /\ e = SystemExit 1))
    (check_try head headers example mandatory link).
Proof. unfold check_try. raises_solve. Qed.

(** [check] lets only the [SystemExit(1)] of a mandatory probe escape. *)
Lemma check_raises head feat headers example mandatory link :
  raises_only (fun e => mandatory = true /\ e = SystemExit 1)
    (check head feat headers example mandatory link).
Proof.
  unfold check. apply raises_only_bind; [apply py_print_raises|intros _].
  eapply raises_only_catch; [apply check_try_raises|].
  intros e [He|[Hm ->]].
  - unfold fault in He. rewrite He. apply check_error_raises.
  - simpl. by apply raises_only_raise.
Qed.

(** The bare [except:] of [check_header] catches everything. *)
Lemma check_header_raises_nothing head header mandatory :
  raises_only (fun _ => False) (check_header head header mandatory).
Proof.
  unfold check_header. apply raises_only_bind; [apply py_print_raises|intros _].
  apply (raises_only_catch _ (fun _ => True)); [apply raises_only_any|].
  intros; apply println_raises.
Qed.

(** C2: on every host and in every world, [check] either returns or,
    only when the probe is mandatory, ends in [SystemExit(1)]: a
    non-mandatory probe never stops the run, whatever the compiler, the
    probe binary or the file system do. *)
Theorem check_outcome head feat headers example mandatory link w :
  fst (check head feat headers example mandatory link w) = Ret tt \/
  (mandatory = true /\ fst (check head feat headers example mandatory link w) = Exc (SystemExit 1)).
Proof.
  destruct (check _ _ _ _ _ _ w) as [[[]|e] w'] eqn:E; [by left|right].
  by destruct (check_raises _ _ _ _ _ _ _ _ _ E) as [-> ->].
Qed.

(** C3: on every host and in every world, [check_header] returns, even
    when it is mandatory: its bare [except:] swallows the [SystemExit] of
    its own [exit(1)], so a missing mandatory header does not stop the
    run. *)
Theorem check_header_returns head header mandatory w :
  fst (check_header head header mandatory w) = Ret tt.
Proof.
  destruct (check_header _ _ _ w) as [[[]|e] w'] eqn:E; [done|].
  by destruct (check_header_raises_nothing _ _ _ _ _ _ E).
Qed.

Theorem try_cleanup_raises_nothing : raises_only (fun _ => False) try_cleanup.
Proof. unfold try_cleanup. raises_solve. Qed.
End ProbeRaises.

(** ** No probe exits with status 0 *)

(** The exceptions that may leave a probe: a fault of a library call or
    the [SystemExit(1)] of [exit(1)], the only exit status the script
    uses. *)
Definition exits_nonzero (e : exn) : Prop := fault e \/ e = SystemExit 1.

(** [raises_solve] with handlers: a [try] re-raises only what its body
    raised. *)
Ltac exit_solve :=
  unfold exits_nonzero;
  repeat match goal with
  | |- raises_only _ (catch _ _) =>
      apply (raises_only_catch _ (fun e => fault e \/ e = SystemExit 1)); [|intros ? ?]
  | |- raises_only _ (raise _) => apply raises_only_raise; assumption
  | |- raises_only _ (bind _ _) => apply raises_only_bind; [|intros]
  | |- raises_only _ (match ?x with _ => _ end) => destruct x
  | |- _ => progress raises_solve
  end.

Section ProbeExits.
Context `{H : Host}.

Lemma check_bin_exits name : raises_only exits_nonzero (check_bin name).
Proof. unfold check_bin, shutil_which. exit_solve. Qed.

Lemma check_exits head feat headers example mandatory link :
  raises_only exits_nonzero (check head feat headers example mandatory link).
Proof. unfold check, check_try, check_error. exit_solve. Qed.

Lemma check_header_exits head header mandatory :
  raises_only exits_nonzero (check_header head header mandatory).
Proof. unfold check_header, check_header_try. exit_solve. Qed.

Lemma define_stdout_exits head name cmd mandatory :
  raises_only exits_nonzero (define_stdout head name cmd mandatory).
Proof. unfold define_stdout, gen_append. exit_solve. Qed.
End ProbeExits.

(** ** The runs of [gcc] and of the probe binary *)

Section CheckSteps.
Context `{H : Host}.

Lemma gcc_parse_link link : forall g,
  gcc_parse (link_flags link) g = mkGcc (g_lang g) (g_inputs g) (g_output g) (g_libs g ++ link).
Proof.
  induction link as [|l link IH]; intros g; simpl.
  - by destruct g; rewrite app_nil_r.
  - rewrite IH. simpl. by rewrite drop_0, <-app_assoc.
Qed.

(** The command line of [check] asks for C, one input and [-o]. *)
Lemma gcc_parse_check_argv link :
  gcc_parse (tail (check_argv link)) gcc_default = mkGcc (Some (u "c")) [u "./test.c"] check_exe link.
Proof.
  transitivity (gcc_parse (link_flags link) (mkGcc (Some (u "c")) [u "./test.c"] check_exe []));
    [reflexivity|].
  by rewrite gcc_parse_link.
Qed.

Definition test_c : str := u "test.c".
Definition test_bin : str := u "test".

Lemma resolve_test_c cwd : resolve cwd (u "./test.c") = cwd ++ [test_c].
Proof. reflexivity. Qed.

Lemma resolve_test cwd : resolve cwd (u "./test") = cwd ++ [test_bin].
Proof. reflexivity. Qed.

Lemma test_c_ne_test cwd : cwd ++ [test_c] <> cwd ++ [test_bin].
Proof. intros Heq. apply app_inv_head in Heq. by injection Heq. Qed.

(** The image [gcc] builds for [check]. *)
Definition check_image (headers : list str) (example : str) (link : list str) : image :=
  mkImage (Some (u "c")) [check_source headers example] link.

Definition check_cc (headers : list str) (example : str) (link : list str) : Z * bytes :=
  cc (Some (u "c")) [Some (check_source headers example)] link.

Context (Hposix : host_msys2 = false) (Hgcc : which (u "gcc") = true).

Lemma check_exe_posix : check_exe = u "./test".
Proof. unfold check_exe. by rewrite Hposix. Qed.

(** [gcc] on a working directory that holds the source: the verdict of
    the host and, on success, the executable [./test]. *)
Lemma run_check_argv w headers example link :
  fs_lookup (w_fs w) (w_cwd w) = Some NDir ->
  w_fs w !! (w_cwd w ++ [test_c]) = Some (NText (check_source headers example)) ->
  w_fs w !! (w_cwd w ++ [test_bin]) <> Some NDir ->
  run (check_argv link) w =
    let '(rc, err) := check_cc headers example link in
    let w' := add_proc (check_argv link) w in
    if rc =? 0
    then (Ret (mkCompleted 0 [] []),
          set_fs (<[w_cwd w ++ [test_bin] := NExe (check_image headers example link)]> (w_fs w)) w')
    else (Ret (mkCompleted rc [] err), w').
Proof.
  intros Hcwd Hsrc Hbin.
  change (run (check_argv link)) with (run (u "gcc" :: tail (check_argv link))).
  unfold run. rewrite bool_decide_eq_false_2 by (intros Hin; vm_compute in Hin; set_solver).
  rewrite Hgcc, bool_decide_eq_true_2 by done. cbn [negb].
  unfold started, run_gcc, bind, get, modify. rewrite gcc_parse_check_argv. cbv beta iota zeta.
  cbn [g_lang g_inputs g_output g_libs map w_fs w_cwd add_proc].
  unfold read_text. rewrite resolve_test_c, fs_lookup_ne, Hsrc by (by destruct (w_cwd w)).
  unfold check_cc, check_image. destruct (cc _ _ _) as [rc err].
  destruct (rc =? 0); [|done]. cbn [omap id].
  unfold exe_name. rewrite Hposix, check_exe_posix. cbn [andb].
  rewrite resolve_test, fs_create_child by done. done.
Qed.
End CheckSteps.

(** ** The functional behaviour of [check] *)

(** The lines [if head: GEN.append(line(head))] adds. *)
Definition gen_lines (head : option str) (line : str -> str) : list str :=
  match head with
  | Some h => if truthy head then [line h] else []
  | None => []
  end.

(** What [check] does with the compiler's exit status [rc_cc] and the
    probe binary's exit status [rc_run]: the outcome and the lines added
    to [GEN]. *)
Definition check_result (head : option str) (mandatory : bool) (rc_cc rc_run : Z)
    : outcome exn unit * list str :=
  if negb (rc_cc =? 0) then (if mandatory then Exc (SystemExit 1) else Ret tt, [])
  else if rc_run =? 0 then (Ret tt, gen_lines head define_line)
  else if mandatory then (Exc (SystemExit 1), [])
  else (Ret tt, gen_lines head undef_line).

Lemma keeps_gen_snd {A} (m : Py A) w : keeps_gen m -> w_gen (snd (m w)) = w_gen w.
Proof. intros Hm. by apply (Hm (w_gen w)). Qed.

Lemma try_pass_run m w : try_pass m w = (Ret tt, snd (m w)).
Proof. unfold try_pass, catch. by destruct (m w) as [[[]|e] w']. Qed.

Lemma touch_run `{Host} name w : touch name w = (Ret tt, snd (touch name w)).
Proof. unfold touch, bind, get. simpl. by case_match. Qed.

Lemma for_each_touch_run `{Host} l : forall w, for_each l touch w = (Ret tt, snd (for_each l touch w)).
Proof.
  induction l as [|x l IH]; intros w; [done|]. simpl.
  rewrite (bind_Ret _ _ _ _ _ (touch_run x w)). apply IH.
Qed.

Lemma gen_if_run head line w :
  gen_if head line w = (Ret tt, mkWorld (w_fs w) (w_cwd w) (w_out w)
                                  (w_gen w ++ gen_lines head line) (w_atexit w) (w_procs w)).
Proof.
  unfold gen_if, gen_lines, gen_append. destruct head as [h|]; [|by destruct w; rewrite app_nil_r].
  destruct (truthy _); [done|]. by destruct w; rewrite app_nil_r.
Qed.

Lemma check_error_run `{Host} mandatory w :
  fst (check_error mandatory w) = (if mandatory then Exc (SystemExit 1) else Ret tt) /\
  w_gen (snd (check_error mandatory w)) = w_gen w.
Proof.
  split.
  - unfold check_error. rewrite (bind_Ret _ _ _ _ _ (try_pass_run _ w)).
    rewrite (bind_Ret _ _ _ _ _ (try_pass_run _ _)). by destruct mandatory.
  - apply keeps_gen_snd. unfold check_error, try_pass. keeps_solve.
Qed.

Lemma print_run `{Host} s e w : py_print s e w = (Ret tt, add_out (s ++ e) w).
Proof. reflexivity. Qed.

(** The first statements of [check]: the banner, [test.c] written, the
    command line printed.  Leaves the world [w3] before [gcc] runs, with
    the facts the later steps need. *)
Ltac check_stage feat headers example link w Hcwd Hc :=
  mrun (print_run (u "Checking with c: " ++ dots feat) [] w);
  set (w1 := add_out _ w);
  mrun (write_file_step w1 test_c Hcwd (u "./test.c") (check_source headers example)
          (resolve_test_c _) Hc);
  set (w2 := set_fs _ w1);
  mrun (print_run (repr_list isprintable (check_argv link)) [c_nl] w2);
  set (w3 := add_out _ w2);
  assert (Hcwd3 : fs_lookup (w_fs w3) (w_cwd w3) = Some NDir)
    by (unfold w3, w2, w1; cbn [w_fs w_cwd set_fs add_out]; by rewrite fs_lookup_insert_child);
  assert (Hc3 : w_fs w3 !! (w_cwd w3 ++ [test_c]) = Some (NText (check_source headers example)))
    by (unfold w3, w2, w1; cbn [w_fs w_cwd set_fs add_out]; apply lookup_insert_eq);
  assert (Eb3 : w_fs w3 !! (w_cwd w3 ++ [test_bin]) = w_fs w !! (w_cwd w ++ [test_bin]))
    by (unfold w3, w2, w1; cbn [w_fs w_cwd set_fs add_out];
        rewrite lookup_insert_ne by apply test_c_ne_test; reflexivity).

Section CheckRun.
Context `{H : Host} (Hposix : host_msys2 = false) (Hgcc : which (u "gcc") = true).


(** Running [./test] when it is the executable [i]. *)
Lemma run_test_step w i :
  w_fs w !! (w_cwd w ++ [test_bin]) = Some (NExe i) ->
  run [check_exe] w =
    (Ret (mkCompleted (fst (exec i)) [] []),
     snd (for_each (snd (exec i)) touch (add_proc [check_exe] w))).
Proof.
  intros Hi. rewrite check_exe_posix by done. unfold run.
  rewrite bool_decide_eq_true_2 by (vm_compute; set_solver).
  unfold run_file, started, bind, get, modify. cbv beta iota.
  rewrite resolve_test, fs_lookup_ne, Hi by (by destruct (w_cwd w)).
  destruct (exec i) as [rc created]. simpl.
  by rewrite for_each_touch_run.
Qed.

(** The run of [check] on every branch, as [check_result] says, and the
    processes it starts: the compiler, then the probe binary when the
    compiler returned 0. *)
Lemma check_steps head feat headers example mandatory link w rc_cc err rc_run created :
  fs_lookup (w_fs w) (w_cwd w) = Some NDir ->
  w_fs w !! (w_cwd w ++ [test_c]) <> Some NDir ->
  w_fs w !! (w_cwd w ++ [test_bin]) <> Some NDir ->
  check_cc headers example link = (rc_cc, err) ->
  exec (check_image headers example link) = (rc_run, created) ->
  fst (check head feat headers example mandatory link w) = fst (check_result head mandatory rc_cc rc_run) /\
  w_gen (snd (check head feat headers example mandatory link w)) =
    w_gen w ++ snd (check_result head mandatory rc_cc rc_run) /\
  w_procs (snd (check head feat headers example mandatory link w)) =
    w_procs w ++ check_argv link :: (if rc_cc =? 0 then [[check_exe]] else []).
Proof.
  intros Hcwd Hc Hb Hcc Hex. unfold check, check_try.
  check_stage feat headers example link w Hcwd Hc.
  assert (Hb3 : w_fs w3 !! (w_cwd w3 ++ [test_bin]) <> Some NDir) by (rewrite Eb3; exact Hb).
  pose proof (run_check_argv Hposix Hgcc w3 headers example link Hcwd3 Hc3 Hb3) as Hrun.
  rewrite Hcc in Hrun. unfold check_result.
  destruct (Z.eqb_spec rc_cc 0) as [Erc|Erc]; simpl negb; cbv iota in Hrun; mrun Hrun; simpl negb; cbv iota.
  - (* compiled: remove the source, run the binary, remove it *)
    set (w4 := set_fs _ (add_proc _ w3)).
    assert (Hcwd4 : fs_lookup (w_fs w4) (w_cwd w4) = Some NDir)
      by (unfold w4; cbn [w_fs w_cwd set_fs add_proc]; by rewrite fs_lookup_insert_child).
    assert (Hc4 : w_fs w4 !! (w_cwd w4 ++ [test_c]) = Some (NText (check_source headers example)))
      by (unfold w4; cbn [w_fs w_cwd set_fs add_proc];
          rewrite lookup_insert_ne by (intros Heq; by apply (test_c_ne_test (w_cwd w3))); exact Hc3).
    mrun (os_remove_step w4 test_c Hcwd4 (u "./test.c") _ (resolve_test_c _) Hc4 ltac:(discriminate)).
    set (w5 := set_fs _ w4).
    assert (Hi5 : w_fs w5 !! (w_cwd w5 ++ [test_bin]) = Some (NExe (check_image headers example link)))
      by (unfold w5, w4; cbn [w_fs w_cwd set_fs add_proc];
          rewrite lookup_delete_ne by apply test_c_ne_test; apply lookup_insert_eq).
    mrun (run_test_step w5 _ Hi5). rewrite Hex. cbn [fst snd returncode].
    mrun (try_pass_run (os_remove check_exe) (snd (for_each created touch (add_proc _ w5)))).
    set (w7 := snd (os_remove _ _)).
    assert (Hg7 : w_gen w7 = w_gen w).
    { unfold w7. rewrite !keeps_gen_snd; [done|eauto with py..]. }
    assert (Hp7 : w_procs w7 = w_procs w ++ [check_argv link; [check_exe]]).
    { unfold w7. rewrite !(keeps_snd w_procs) by field_solve.
      unfold w5, w4, w3, w2, w1. cbn [w_procs add_proc set_fs add_out]. by rewrite <- app_assoc. }
    destruct (Z.eqb_spec rc_run 0) as [Erun|Erun].
    + mrun (gen_if_run head define_line w7). cbn. by rewrite Hg7, Hp7.
    + mrun (print_run (u "no") [c_nl] w7).
      destruct mandatory.
      * cbn [catch bind println py_print py_exit raise modify is_system_exit fst snd w_gen w_procs add_out].
        split; [done|]. by rewrite Hg7, Hp7, app_nil_r.
      * rewrite (catch_bind_Ret (ret tt) _ _ _ tt _ eq_refl), (catch_Ret _ _ _ _ _ (gen_if_run _ _ _)).
        cbn. by rewrite Hg7, Hp7.
  - (* compile failure: remove the source, report, exit if mandatory *)
    cbn [returncode stderr].
    rewrite (proj2 (Z.eqb_neq _ _) Erc). cbn [negb].
    mrun (os_remove_step (add_proc _ w3) test_c Hcwd3 (u "./test.c") (NText (check_source headers example)) (resolve_test_c _) Hc3 ltac:(discriminate)).
    mrun (print_run (u "gcc fail") [c_nl] _).
    destruct mandatory; [|cbn; by rewrite ?app_nil_r].
    mrun (print_run (u "MANDATORY CHECK FAILED") [c_nl] _).
    unfold decode. destruct (utf8_decode err) as [msg|].
    + cbn; by rewrite ?app_nil_r.
    + erewrite catch_bind_Exc by reflexivity. cbn [is_system_exit].
      edestruct check_error_run as [-> ->].
      rewrite (keeps_snd w_procs) by (unfold check_error; field_solve). cbn; by rewrite ?app_nil_r.
Qed.

Lemma check_behaviour head feat headers example mandatory link w rc_cc err rc_run created :
  fs_lookup (w_fs w) (w_cwd w) = Some NDir ->
  w_fs w !! (w_cwd w ++ [test_c]) <> Some NDir ->
  w_fs w !! (w_cwd w ++ [test_bin]) <> Some NDir ->
  check_cc headers example link = (rc_cc, err) ->
  exec (check_image headers example link) = (rc_run, created) ->
  fst (check head feat headers example mandatory link w) = fst (check_result head mandatory rc_cc rc_run) /\
  w_gen (snd (check head feat headers example mandatory link w)) =
    w_gen w ++ snd (check_result head mandatory rc_cc rc_run).
Proof. intros. edestruct check_steps as (Ho & Hg & _); eauto. Qed.
(** C1: on a POSIX host whose working directory can hold [test.c] and
    [test], [check] ends as [check_result] says for every compiler verdict
    [rc_cc] and every exit status [rc_run] of the probe binary: a compile
    failure records nothing and exits only if mandatory; a run that
    returns 0 records [#define head]; a failing run exits if mandatory and
    otherwise records [//#define head].  [GEN] gains exactly those lines. *)
Lemma check_run head feat headers example mandatory link w rc_cc err rc_run created :
  fs_lookup (w_fs w) (w_cwd w) = Some NDir ->
  w_fs w !! (w_cwd w ++ [test_c]) <> Some NDir ->
  w_fs w !! (w_cwd w ++ [test_bin]) <> Some NDir ->
  check_cc headers example link = (rc_cc, err) ->
  exec (check_image headers example link) = (rc_run, created) ->
  fst (check head feat headers example mandatory link w) = fst (check_result head mandatory rc_cc rc_run) /\
  w_gen (snd (check head feat headers example mandatory link w)) =
    w_gen w ++ snd (check_result head mandatory rc_cc rc_run).
Proof. apply check_behaviour. Qed.
(** C21: Scenario E of the specification: on a POSIX host, a mandatory
    [check] whose program the compiler rejects with the diagnostic [err]
    ends in [SystemExit(1)] after printing, in order, its banner, the
    [gcc] command line, [gcc fail], [MANDATORY CHECK FAILED] and the
    compiler's diagnostic verbatim, and records nothing. *)
Theorem check_mandatory_compile_failure head feat headers example link w rc err msg :
  fs_lookup (w_fs w) (w_cwd w) = Some NDir ->
  w_fs w !! (w_cwd w ++ [test_c]) <> Some NDir ->
  w_fs w !! (w_cwd w ++ [test_bin]) <> Some NDir ->
  check_cc headers example link = (rc, err) -> rc <> 0 -> utf8_decode err = Some msg ->
  fst (check head feat headers example true link w) = Exc (SystemExit 1) /\
  w_out (snd (check head feat headers example true link w)) =
    w_out w ++ [u "Checking with c: " ++ dots feat; repr_list isprintable (check_argv link) ++ [c_nl];
                u "gcc fail" ++ [c_nl]; u "MANDATORY CHECK FAILED" ++ [c_nl]; msg ++ [c_nl]] /\
  w_gen (snd (check head feat headers example true link w)) = w_gen w.
Proof.
  intros Hcwd Hc Hb Hcc Hrc Hmsg. unfold check, check_try.
  check_stage feat headers example link w Hcwd Hc.
  assert (Hb3 : w_fs w3 !! (w_cwd w3 ++ [test_bin]) <> Some NDir) by (rewrite Eb3; exact Hb).
  pose proof (run_check_argv Hposix Hgcc w3 headers example link Hcwd3 Hc3 Hb3) as Hrun.
  rewrite Hcc, (proj2 (Z.eqb_neq _ _) Hrc) in Hrun. mrun Hrun. cbn [returncode stderr].
  rewrite (proj2 (Z.eqb_neq _ _) Hrc). cbn [negb].
  mrun (os_remove_step (add_proc _ w3) test_c Hcwd3 (u "./test.c") _ (resolve_test_c _) Hc3 ltac:(discriminate)).
  unfold decode. rewrite Hmsg. cbn. rewrite app_nil_r, <-!app_assoc. by split.
Qed.

End CheckRun.

(** [try: os.remove(p) except: pass] on an entry of the working
    directory that is not a directory: the entry is gone, whether it was
    there or not. *)
Lemma try_remove_child `{Host} w x p :
  fs_lookup (w_fs w) (w_cwd w) = Some NDir -> resolve (w_cwd w) p = w_cwd w ++ [x] ->
  w_fs w !! (w_cwd w ++ [x]) <> Some NDir ->
  try_pass (os_remove p) w = (Ret tt, set_fs (delete (w_cwd w ++ [x]) (w_fs w)) w).
Proof.
  intros Hcwd Hr Hn. rewrite try_pass_run. f_equal.
  destruct (w_fs w !! (w_cwd w ++ [x])) as [n|] eqn:E.
  - by rewrite (os_remove_step w x Hcwd p n Hr E ltac:(congruence)).
  - rewrite (os_remove_missing w x Hcwd p Hr E). simpl. rewrite delete_id by done. by destruct w.
Qed.

(** A file that a probe binary creates in its working directory leaves
    the directory and its other entries alone. *)
Lemma touch_other `{Host} name w x :
  x <> name ->
  w_cwd (snd (touch name w)) = w_cwd w /\
  fs_lookup (w_fs (snd (touch name w))) (w_cwd w) = fs_lookup (w_fs w) (w_cwd w) /\
  w_fs (snd (touch name w)) !! (w_cwd w ++ [x]) = w_fs w !! (w_cwd w ++ [x]).
Proof.
  intros Hx. unfold touch, bind, get. cbn beta iota.
  destruct (fs_create _ _ _) as [e|fs'] eqn:E; [done|]. apply fs_create_inr in E as ->. simpl.
  split; [done|]. split; [apply fs_lookup_insert_child|].
  rewrite lookup_insert_ne; [done|]. intros Heq. apply app_inv_head in Heq. by injection Heq.
Qed.

Lemma for_each_touch_other `{Host} created x : x ∉ created -> forall w,
  w_cwd (snd (for_each created touch w)) = w_cwd w /\
  fs_lookup (w_fs (snd (for_each created touch w))) (w_cwd w) = fs_lookup (w_fs w) (w_cwd w) /\
  w_fs (snd (for_each created touch w)) !! (w_cwd w ++ [x]) = w_fs w !! (w_cwd w ++ [x]).
Proof.
  induction created as [|name created IH]; intros Hx w; [done|]. apply not_elem_of_cons in Hx as [Hx Hxs].
  cbn [for_each]. rewrite (bind_Ret _ _ _ _ _ (touch_run name w)).
  destruct (touch_other name w x Hx) as (Hc & Hd & Hl).
  destruct (IH Hxs (snd (touch name w))) as (Hc' & Hd' & Hl'). rewrite Hc in Hc', Hd', Hl'.
  split; [congruence|]. split; congruence.
Qed.

Section CheckClean.
Context `{H : Host} (Hposix : host_msys2 = false) (Hgcc : which (u "gcc") = true).

(** What remains of a probe after its artifacts are gone keeps them
    gone. *)
Ltac rest_absent :=
  eapply (fun Hp : preserves (absent _) _ => Hp _);
    [unfold gen_if, gen_append, check_error, try_pass; absent_solve|unfold absent].

(** C14: on a POSIX host, a [check] that starts in a directory without
    [test.c] and [test], whose probe binary creates neither, leaves
    neither behind, whatever the compiler and the binary do and whether
    it returns or exits: the specification's invariant that no artifact
    of a probe remains once it returns holds for [check]. *)
Theorem check_leaves_no_artifacts head feat headers example mandatory link w rc_cc err rc_run created :
  fs_lookup (w_fs w) (w_cwd w) = Some NDir ->
  w_fs w !! (w_cwd w ++ [test_c]) = None ->
  w_fs w !! (w_cwd w ++ [test_bin]) = None ->
  check_cc headers example link = (rc_cc, err) ->
  exec (check_image headers example link) = (rc_run, created) ->
  test_c ∉ created -> test_bin ∉ created ->
  w_fs (snd (check head feat headers example mandatory link w)) !! (w_cwd w ++ [test_c]) = None /\
  w_fs (snd (check head feat headers example mandatory link w)) !! (w_cwd w ++ [test_bin]) = None.
Proof.
  intros Hcwd Hc Hb Hcc Hex Hnc Hnb. unfold check, check_try.
  assert (Hc' : w_fs w !! (w_cwd w ++ [test_c]) <> Some NDir) by (rewrite Hc; discriminate).
  check_stage feat headers example link w Hcwd Hc'.
  assert (Hb3 : w_fs w3 !! (w_cwd w3 ++ [test_bin]) = None) by (rewrite Eb3; exact Hb).
  pose proof (run_check_argv Hposix Hgcc w3 headers example link Hcwd3 Hc3 ltac:(congruence)) as Hrun.
  rewrite Hcc in Hrun. destruct (Z.eqb_spec rc_cc 0) as [Erc|Erc]; cbv iota in Hrun; mrun Hrun;
    cbn [returncode negb].
  - (* compiled: the source, then the binary are removed *)
    cbn [negb Z.eqb].
    set (w4 := set_fs _ (add_proc _ w3)).
    assert (Hcwd4 : fs_lookup (w_fs w4) (w_cwd w4) = Some NDir)
      by (unfold w4; cbn [w_fs w_cwd set_fs add_proc]; by rewrite fs_lookup_insert_child).
    mrun (os_remove_step w4 test_c Hcwd4 (u "./test.c") _ (resolve_test_c _)
            ltac:(unfold w4; cbn [w_fs w_cwd set_fs add_proc];
                  rewrite lookup_insert_ne by (intros Heq; by apply (test_c_ne_test (w_cwd w3))); exact Hc3)
            ltac:(discriminate)).
    set (w5 := set_fs _ w4).
    assert (Hi5 : w_fs w5 !! (w_cwd w5 ++ [test_bin]) = Some (NExe (check_image headers example link)))
      by (unfold w5, w4; cbn [w_fs w_cwd set_fs add_proc];
          rewrite lookup_delete_ne by apply test_c_ne_test; apply lookup_insert_eq).
    assert (Hc5 : w_fs w5 !! (w_cwd w5 ++ [test_c]) = None)
      by (unfold w5; cbn [w_fs w_cwd set_fs add_proc]; apply lookup_delete_eq).
    mrun (run_test_step Hposix Hgcc w5 _ Hi5). rewrite Hex. cbn [fst snd returncode].
    destruct (for_each_touch_other created test_c Hnc (add_proc [check_exe] w5)) as (Ec6 & Ed6 & Ec6').
    destruct (for_each_touch_other created test_bin Hnb (add_proc [check_exe] w5)) as (_ & _ & Eb6).
    cbn [w_fs w_cwd add_proc] in Ec6, Ed6, Ec6', Eb6.
    set (w6 := snd (for_each created touch (add_proc [check_exe] w5))) in *.
    rewrite check_exe_posix by done.
    mrun (try_remove_child w6 test_bin (u "./test") ltac:(rewrite Ec6, Ed6; unfold w5; cbn [w_fs w_cwd set_fs add_proc]; rewrite fs_lookup_delete_child; exact Hcwd4)
            ltac:(rewrite Ec6; apply resolve_test) ltac:(rewrite Ec6, Eb6, Hi5; discriminate)).
    assert (Hw : w_cwd w6 = w_cwd w) by (rewrite Ec6; reflexivity).
    split; rest_absent; rewrite w_fs_set_fs, Hw.
    + rewrite lookup_delete_ne; [|intros Heq; symmetry in Heq; by apply test_c_ne_test in Heq].
      rewrite <-Hw, Ec6, Ec6'. exact Hc5.
    + apply lookup_delete_eq.
  - (* not compiled: the source is removed, no binary was made *)
    rewrite (proj2 (Z.eqb_neq _ _) Erc). cbn [negb].
    mrun (os_remove_step (add_proc _ w3) test_c Hcwd3 (u "./test.c") _ (resolve_test_c _) Hc3 ltac:(discriminate)).
    split; rest_absent; rewrite w_fs_set_fs.
    + apply lookup_delete_eq.
    + rewrite lookup_delete_ne; [exact Hb3|]. intros Heq. change (w_cwd w3) with (w_cwd w) in Heq.
      by apply test_c_ne_test in Heq.
Qed.
End CheckClean.

(** ** The functional behaviour of [check_header] *)

Section HeaderRun.
Context `{H : Host} (Hgcc : which (u "gcc") = true).

(** The name [gcc -o ./test] writes: [test], or [test.exe] on MSYS2. *)
Definition test_exe : str := if host_msys2 then u "test.exe" else u "test".

Lemma resolve_exe_test cwd : resolve cwd (exe_name (u "./test")) = cwd ++ [test_exe].
Proof. unfold exe_name, test_exe. by destruct host_msys2. Qed.

Lemma test_c_ne_exe cwd : cwd ++ [test_c] <> cwd ++ [test_exe].
Proof. intros Heq. apply app_inv_head in Heq. unfold test_exe in Heq. by destruct host_msys2. Qed.

Definition header_image (header : str) : image := mkImage None [header_source header] [].

Definition header_cc (header : str) : Z * bytes := cc None [Some (header_source header)] [].

Lemma run_header_argv w header :
  fs_lookup (w_fs w) (w_cwd w) = Some NDir ->
  w_fs w !! (w_cwd w ++ [test_c]) = Some (NText (header_source header)) ->
  w_fs w !! (w_cwd w ++ [test_exe]) <> Some NDir ->
  run header_argv w =
    let '(rc, err) := header_cc header in
    let w' := add_proc header_argv w in
    if rc =? 0
    then (Ret (mkCompleted 0 [] []),
          set_fs (<[w_cwd w ++ [test_exe] := NExe (header_image header)]> (w_fs w)) w')
    else (Ret (mkCompleted rc [] err), w').
Proof.
  intros Hcwd Hsrc Hbin. unfold run, header_argv.
  rewrite bool_decide_eq_false_2 by (intros Hin; vm_compute in Hin; set_solver).
  rewrite Hgcc, bool_decide_eq_true_2 by done. cbn [negb].
  unfold started, run_gcc, bind, get, modify. cbv beta iota zeta.
  change (gcc_parse _ gcc_default) with (mkGcc None [u "./test.c"] (u "./test") []).
  cbn [g_lang g_inputs g_output g_libs map w_fs w_cwd add_proc].
  unfold read_text. rewrite resolve_test_c, fs_lookup_ne, Hsrc by (by destruct (w_cwd w)).
  unfold header_cc, header_image. destruct (cc _ _ _) as [rc err].
  destruct (rc =? 0); [|done]. cbn [omap id].
  by rewrite resolve_exe_test, fs_create_child.
Qed.

(** C6: on every host, when the working directory can hold [test.c] and
    the executable, [check_header] returns normally for every compiler
    verdict [rc], mandatory or not: it records [#define head] when the
    header compiles and [//#define head] when it does not.  A mandatory
    header that is missing does not stop the run: the bare [except:]
    catches the [SystemExit] of [exit(1)].  When the header compiles,
    [./test.c] is left behind with the probe's source. *)
Lemma check_header_run head header mandatory w rc err :
  fs_lookup (w_fs w) (w_cwd w) = Some NDir ->
  w_fs w !! (w_cwd w ++ [test_c]) <> Some NDir ->
  w_fs w !! (w_cwd w ++ [test_exe]) <> Some NDir ->
  header_cc header = (rc, err) ->
  fst (check_header head header mandatory w) = Ret tt /\
  w_gen (snd (check_header head header mandatory w)) =
    w_gen w ++ gen_lines head (if rc =? 0 then define_line else undef_line) /\
  (rc = 0 -> w_fs (snd (check_header head header mandatory w)) !! (w_cwd w ++ [test_c]) =
               Some (NText (header_source header))).
Proof.
  intros Hcwd Hc Hb Hcc. unfold check_header, check_header_try.
  mrun (print_run (u "Checking header: " ++ dots header) [] w).
  set (w1 := add_out _ w).
  mrun (write_file_step w1 test_c Hcwd (u "./test.c") (header_source header) (resolve_test_c _) Hc).
  set (w2 := set_fs _ w1).
  assert (Hcwd2 : fs_lookup (w_fs w2) (w_cwd w2) = Some NDir)
    by (unfold w2, w1; cbn [w_fs w_cwd set_fs add_out]; by rewrite fs_lookup_insert_child).
  assert (Hc2 : w_fs w2 !! (w_cwd w2 ++ [test_c]) = Some (NText (header_source header)))
    by (unfold w2, w1; cbn [w_fs w_cwd set_fs add_out]; apply lookup_insert_eq).
  assert (Hb2 : w_fs w2 !! (w_cwd w2 ++ [test_exe]) <> Some NDir)
    by (unfold w2, w1; cbn [w_fs w_cwd set_fs add_out];
        rewrite lookup_insert_ne by apply test_c_ne_exe; exact Hb).
  pose proof (run_header_argv w2 header Hcwd2 Hc2 Hb2) as Hrun. rewrite Hcc in Hrun.
  destruct (Z.eqb_spec rc 0) as [Erc|Erc]; cbv iota in Hrun; mrun Hrun; cbn [returncode negb stderr].
  - (* the header compiles *)
    rewrite (proj2 (Z.eqb_eq _ _) eq_refl). cbn [negb].
    mrun (print_run (u "exists") [c_nl] _). rewrite (catch_Ret _ _ _ _ _ (gen_if_run head define_line _)).
    cbn. split; [done|]. split; [done|]. intros _.
    rewrite lookup_insert_ne by (intros Heq; by apply (test_c_ne_exe (w_cwd w))).
    apply lookup_insert_eq.
  - (* it does not: remove the source, record, report *)
    rewrite (proj2 (Z.eqb_neq _ _) Erc). cbn [negb].
    mrun (os_remove_step (add_proc _ w2) test_c Hcwd2 (u "./test.c") _ (resolve_test_c _) Hc2
            ltac:(discriminate)).
    mrun (print_run (u "can't import") [c_nl] _).
    mrun (gen_if_run head undef_line _).
    split; [|split; [|done]].
    + destruct mandatory; [|done]. unfold decode.
      destruct (utf8_decode err); cbn; reflexivity.
    + destruct mandatory; [unfold decode; destruct (utf8_decode err)|]; cbn; reflexivity.
Qed.
End HeaderRun.

(** ** The functional behaviour of [define_stdout] *)

Section DefineRun.
Context `{H : Host} (Hbash : which (u "bash") = true).

(** What [define_stdout] does with the exit status [rc] and the captured
    output [out] of [bash -c cmd]: output that is not UTF-8 raises before
    anything is recorded; otherwise a status of 0 records the text, its
    last newline removed, through [repr], and any other status records
    [//#define head]. *)
Definition define_result (head : option str) (rc : Z) (out : bytes) : outcome exn unit * list str :=
  match utf8_decode out with
  | None => (Exc UnicodeDecodeError, [])
  | Some text =>
      (Ret tt, if rc =? 0 then gen_lines head (fun h => define_value_line h (removesuffix text [c_nl]))
               else gen_lines head undef_line)
  end.

Lemma run_bash cmd w :
  run [u "bash"; u "-c"; cmd] w =
    (Ret (mkCompleted (fst (sh cmd)) (snd (sh cmd)) []), add_proc [u "bash"; u "-c"; cmd] w).
Proof.
  unfold run. rewrite bool_decide_eq_false_2 by (intros Hin; vm_compute in Hin; set_solver).
  rewrite Hbash. cbn [negb]. unfold started, bind, modify.
  rewrite bool_decide_eq_false_2 by (vm_compute; congruence).
  rewrite !bool_decide_eq_true_2 by done. by destruct (sh cmd).
Qed.

Lemma decode_run b w : decode b w =
  match utf8_decode b with Some s => (Ret s, w) | None => (Exc UnicodeDecodeError, w) end.
Proof. unfold decode. by destruct (utf8_decode b). Qed.

(** C7: when [bash] is on the [PATH] and [bash -c cmd] exits with [rc]
    and prints [out], [define_stdout] ends as [define_result] says, in
    every world: the captured text is recorded as
    [#define head value!r] on success, [//#define head] on failure, and
    output that is not UTF-8 escapes as [UnicodeDecodeError]. *)
Lemma define_stdout_run head name cmd mandatory w rc out :
  sh cmd = (rc, out) ->
  fst (define_stdout head name cmd mandatory w) = fst (define_result head rc out) /\
  w_gen (snd (define_stdout head name cmd mandatory w)) = w_gen w ++ snd (define_result head rc out).
Proof.
  intros Hsh. unfold define_stdout, define_result.
  mrun (print_run (u "Defining       : " ++ dots name) [] w).
  mrun (run_bash cmd _). rewrite Hsh. cbn [stdout returncode fst snd].
  unfold decode. destruct (utf8_decode out) as [text|]; cbn [bind ret raise fst snd]; [|by destruct w; cbn; rewrite app_nil_r].
  unfold gen_lines, gen_if, gen_append.
  destruct (rc =? 0), head as [h|]; try destruct (truthy (Some h)); destruct w; cbn; by rewrite ?app_nil_r.
Qed.
End DefineRun.

(** ** Which executable [check] runs *)

Lemma some_elem_of_map (v : str) (l : list str) : Some v ∈ map Some l <-> v ∈ l.
Proof. rewrite !list_elem_of_In, in_map_iff. split; [by intros (x & [= ->] & ?)|by exists v]. Qed.

(** C27: lines 13 and 47-49 together: [check] runs its binary as
    [./test.exe] exactly when [os.environ] maps [MSYSTEM] to one of
    [MSYS], [MINGW64], [MINGW32], [UCRT64] and [UCRT32], and as [./test]
    when [MSYSTEM] is missing or has any other value, such as MSYS2's
    [CLANG64]. *)
Theorem check_exe_msystem `{Host} :
  check_exe =
    match environ !! u "MSYSTEM" with
    | Some v => if bool_decide (v ∈ [u "MSYS"; u "MINGW64"; u "MINGW32"; u "UCRT64"; u "UCRT32"])
                then u "./test.exe" else u "./test"
    | None => u "./test"
    end.
Proof.
  unfold check_exe, host_msys2, IS_MSYS2.
  destruct (environ !! u "MSYSTEM") as [v|]; [|done].
  rewrite bool_decide_eq_true_2 by done. cbn [andb]. unfold MSYS2_SYSTEMS.
  by rewrite (bool_decide_ext _ _ (some_elem_of_map v _)).
Qed.

(** ** Concrete runs *)

(** A POSIX host on which every tool is found, the compiler accepts every
    unit, and every probe binary exits with [run_rc]. *)
Definition demo_host (cc_rc run_rc : Z) : Host := {|
  environ := ∅;
  which := fun _ => true;
  cc := fun _ _ _ => (cc_rc, u "undefined reference");
  exec := fun _ => (run_rc, []);
  sh := fun _ => (0, u "x86_64" ++ [c_nl]);
  tool := fun _ _ => mkCompleted 0 [] [];
  isprintable := fun _ => true
|}.

(** The scratch directory [configure] of a project at the root, entered. *)
Definition demo_world : world :=
  mkWorld {[ [u "configure"] := NDir ]} [u "configure"] [] [] true [].

(** Scenario C of the specification: [HAVE_STRTOIMAX], not mandatory,
    compiles and its binary exits 1: [GEN] gets [//#define HAVE_STRTOIMAX]
    and the run goes on. *)
Lemma check_run_witness :
  let H := demo_host 0 1 in
  fst (check (Some (u "HAVE_STRTOIMAX")) (u "strtoimax can be used") [u "inttypes.h"]
         (u "return 1;") false [] demo_world) = Ret tt /\
  w_gen (snd (check (Some (u "HAVE_STRTOIMAX")) (u "strtoimax can be used") [u "inttypes.h"]
         (u "return 1;") false [] demo_world)) = [undef_line (u "HAVE_STRTOIMAX")].
Proof.
  exact (@check_run (demo_host 0 1) eq_refl eq_refl (Some (u "HAVE_STRTOIMAX"))
           (u "strtoimax can be used") [u "inttypes.h"] (u "return 1;") false [] demo_world
           0 (u "undefined reference") 1 [] eq_refl ltac:(vm_compute; congruence)
           ltac:(vm_compute; congruence) eq_refl eq_refl).
Defined.

(** A mandatory header that does not compile: the probe returns normally
    and records [//#define HAVE_STDIO_H]. *)
Lemma check_header_run_witness :
  let H := demo_host 1 0 in
  fst (check_header (Some (u "HAVE_STDIO_H")) (u "stdio.h") true demo_world) = Ret tt /\
  w_gen (snd (check_header (Some (u "HAVE_STDIO_H")) (u "stdio.h") true demo_world)) =
    [undef_line (u "HAVE_STDIO_H")] /\
  (1 = 0 -> w_fs (snd (check_header (Some (u "HAVE_STDIO_H")) (u "stdio.h") true demo_world))
              !! ([u "configure"] ++ [test_c]) = Some (NText (header_source (u "stdio.h")))).
Proof.
  exact (@check_header_run (demo_host 1 0) eq_refl (Some (u "HAVE_STDIO_H")) (u "stdio.h") true
           demo_world 1 (u "undefined reference") ltac:(vm_compute; congruence)
           ltac:(vm_compute; congruence) ltac:(vm_compute; congruence) eq_refl).
Defined.

(** [uname -m] prints [x86_64]: the header gets the line
    [#define COMPILER_ARCH 'x86_64'], the text in single quotes. *)
Lemma define_stdout_run_witness :
  let H := demo_host 0 0 in
  fst (define_stdout (Some (u "COMPILER_ARCH")) (u "architecture") (u "uname -m") false demo_world)
    = Ret tt /\
  w_gen (snd (define_stdout (Some (u "COMPILER_ARCH")) (u "architecture") (u "uname -m") false
                demo_world)) = [u "#define COMPILER_ARCH 'x86_64'"].
Proof.
  exact (@define_stdout_run (demo_host 0 0) eq_refl (Some (u "COMPILER_ARCH")) (u "architecture")
           (u "uname -m") false demo_world 0 (u "x86_64" ++ [c_nl]) eq_refl).
Defined.

(** Scenario C again: after the probe, [configure] holds neither
    [test.c] nor [test]. *)
Lemma check_leaves_no_artifacts_witness :
  let H := demo_host 0 1 in
  w_fs (snd (check (Some (u "HAVE_STRTOIMAX")) (u "strtoimax can be used") [u "inttypes.h"]
               (u "return 1;") false [] demo_world)) !! ([u "configure"] ++ [test_c]) = None /\
  w_fs (snd (check (Some (u "HAVE_STRTOIMAX")) (u "strtoimax can be used") [u "inttypes.h"]
               (u "return 1;") false [] demo_world)) !! ([u "configure"] ++ [test_bin]) = None.
Proof.
  exact (@check_leaves_no_artifacts (demo_host 0 1) eq_refl eq_refl (Some (u "HAVE_STRTOIMAX"))
           (u "strtoimax can be used") [u "inttypes.h"] (u "return 1;") false [] demo_world
           0 (u "undefined reference") 1 [] eq_refl eq_refl eq_refl eq_refl eq_refl
           ltac:(apply not_elem_of_nil) ltac:(apply not_elem_of_nil)).
Defined.

(** Scenario E: the curl probe on a host whose linker reports an
    undefined reference. *)
Lemma check_mandatory_compile_failure_witness :
  let H := demo_host 1 0 in
  fst (check None (u "Can link with curl") [u "curl/curl.h"] (u "return 0;") true [u "curl"] demo_world)
    = Exc (SystemExit 1) /\
  w_out (snd (check None (u "Can link with curl") [u "curl/curl.h"] (u "return 0;") true [u "curl"]
                demo_world)) =
    w_out demo_world ++ [u "Checking with c: " ++ dots (u "Can link with curl");
      repr_list isprintable (check_argv [u "curl"]) ++ [c_nl]; u "gcc fail" ++ [c_nl];
      u "MANDATORY CHECK FAILED" ++ [c_nl]; u "undefined reference" ++ [c_nl]] /\
  w_gen (snd (check None (u "Can link with curl") [u "curl/curl.h"] (u "return 0;") true [u "curl"]
                demo_world)) = w_gen demo_world.
Proof.
  exact (@check_mandatory_compile_failure (demo_host 1 0) eq_refl eq_refl None (u "Can link with curl")
           [u "curl/curl.h"] (u "return 0;") [u "curl"] demo_world 1 (u "undefined reference")
           (u "undefined reference") eq_refl ltac:(vm_compute; congruence) ltac:(vm_compute; congruence)
           eq_refl ltac:(discriminate) eq_refl).
Defined.
