(* ===== verification/ProbeLogic.v ===== *)
(** * What the probes do to the interpreter's state

    Four program logics over the probes of [Probes], each a property of
    the world that every probe keeps, proved call by call from the facts
    of [Interp]: the probes touch only entries of the working directory
    ([frames]), keep the file tree well formed ([fs_wf]), append at most
    one line to [GEN] ([appends]), and append only lines with a given
    property ([gen_all]): single lines, [#define] directives. *)

From S2P Require Import Prelude PyStr Utf8 Fs Interp Probes.

Open Scope Z_scope.

(** ** The probes stay in the working directory *)

Section ProbeFrames.
Context `{H : Host}.

Lemma local_exe_check : local (exe_name check_exe).
Proof.
  unfold check_exe, exe_name. destruct host_msys2; simpl;
    eexists; intros; reflexivity.
Qed.

Lemma local_exe_test : local (exe_name (u "./test")).
Proof. unfold exe_name. destruct host_msys2; simpl; eexists; intros; reflexivity. Qed.

Lemma local_check_exe : local check_exe.
Proof. unfold check_exe. destruct host_msys2; eexists; intros; reflexivity. Qed.

Lemma check_argv_gcc link args :
  check_argv link = u "gcc" :: args -> local (exe_name (g_output (gcc_parse args gcc_default))).
Proof.
  intros E. assert (args = tail (check_argv link)) as -> by (by rewrite E).
  rewrite gcc_parse_check_argv. apply local_exe_check.
Qed.

Lemma header_argv_gcc args :
  header_argv = u "gcc" :: args -> local (exe_name (g_output (gcc_parse args gcc_default))).
Proof. intros [= <-]. apply local_exe_test. Qed.

(** The side conditions of [frames_run] and of the local operations. *)
Ltac frames_side :=
  first
    [ apply local_check_exe
    | eexists; intros; reflexivity
    | by apply check_argv_gcc
    | by apply header_argv_gcc
    | let args := fresh "args" in let E := fresh "E" in
      intros args E; exfalso; unfold check_exe in E; destruct host_msys2; vm_compute in E; congruence ].

Ltac frames_solve :=
  repeat (intros; first
    [ assumption
    | apply frames_os_remove; frames_side
    | apply frames_write_file; frames_side
    | apply frames_run; frames_side
    | apply frames_print | apply frames_println | apply frames_exit | apply frames_decode
    | apply frames_bind | apply frames_catch | apply frames_for_each
    | apply frames_ret | apply frames_raise | apply frames_get
    | apply frames_modify; done
    | progress case_match ]).

Lemma frames_try_pass m : frames m -> frames (try_pass m).
Proof. intros Hm. unfold try_pass. frames_solve. Qed.

Lemma frames_gen_if head line : frames (gen_if head line).
Proof. unfold gen_if, gen_append. frames_solve. Qed.

Lemma frames_check_bin name : frames (check_bin name).
Proof. unfold check_bin, shutil_which. frames_solve. Qed.

Lemma frames_check head feat headers example mandatory link :
  frames (check head feat headers example mandatory link).
Proof.
  unfold check, check_try, check_error.
  frames_solve; intros; apply frames_gen_if.
Qed.

Lemma frames_check_header head header mandatory : frames (check_header head header mandatory).
Proof.
  unfold check_header, check_header_try. frames_solve; intros; apply frames_gen_if.
Qed.

Lemma frames_define_stdout head name cmd mandatory : frames (define_stdout head name cmd mandatory).
Proof.
  unfold define_stdout, gen_append. frames_solve; intros; apply frames_gen_if.
Qed.

Lemma frames_cleanup_file p : local p -> frames (cleanup_file p).
Proof. intros Hp. apply frames_try_pass. by apply frames_os_remove. Qed.
End ProbeFrames.



(** ** The probes keep the file system well formed *)

Lemma fs_wf_try_pass m : preserves fs_wf m -> preserves fs_wf (try_pass m).
Proof. intros Hm. unfold try_pass. wf_solve. Qed.

Lemma fs_wf_gen_if head line : preserves fs_wf (gen_if head line).
Proof. unfold gen_if, gen_append. wf_solve. Qed.

Ltac probe_wf :=
  repeat progress (wf_solve; intros; try match goal with
    | |- preserves _ (try_pass _) => apply fs_wf_try_pass
    | |- preserves _ (gen_if _ _) => apply fs_wf_gen_if
    end).

Section ProbeWf.
Context `{H : Host}.

Lemma fs_wf_check_bin name : preserves fs_wf (check_bin name).
Proof. unfold check_bin, shutil_which. probe_wf. Qed.

Lemma fs_wf_check head feat headers example mandatory link :
  preserves fs_wf (check head feat headers example mandatory link).
Proof. unfold check, check_try, check_error. probe_wf. Qed.

Lemma fs_wf_check_header head header mandatory : preserves fs_wf (check_header head header mandatory).
Proof. unfold check_header, check_header_try. probe_wf. Qed.

Lemma fs_wf_define_stdout head name cmd mandatory : preserves fs_wf (define_stdout head name cmd mandatory).
Proof. unfold define_stdout, gen_append. probe_wf. Qed.

Lemma fs_wf_cleanup_file p : preserves fs_wf (cleanup_file p).
Proof. apply fs_wf_try_pass, fs_wf_os_remove. Qed.

Lemma fs_wf_try_cleanup : preserves fs_wf try_cleanup.
Proof. unfold try_cleanup. probe_wf. Qed.
End ProbeWf.

(** ** Each probe appends at most one line to [GEN] *)

Lemma appends_gen_if `{Host} head line : appends 1 (gen_if head line).
Proof.
  unfold gen_if, gen_append. repeat case_match; try apply appends_add_gen;
    apply appends_keeps, keeps_gen_ret.
Qed.

(** Split a probe at the calls that keep [GEN]; the one call that
    appends is [gen_if] or [gen_append]. *)
Ltac appends_solve :=
  let keeps := solve [keeps_solve; eauto with py] in
  repeat (intros; first
    [ apply appends_gen_if
    | apply appends_add_gen
    | apply appends_keeps; keeps
    | apply appends_bind_l; [keeps|]
    | apply appends_bind_r; [|intros; keeps]
    | apply appends_catch_r; [|intros; keeps]
    | progress case_match ]).

Section ProbeAppends.
Context `{H : Host}.

Lemma check_appends head feat headers example mandatory link :
  appends 1 (check head feat headers example mandatory link).
Proof. unfold check, check_try, check_error, try_pass. appends_solve. Qed.

Lemma check_header_appends head header mandatory : appends 1 (check_header head header mandatory).
Proof. unfold check_header, check_header_try. appends_solve. Qed.

Lemma define_stdout_appends head name cmd mandatory : appends 1 (define_stdout head name cmd mandatory).
Proof. unfold define_stdout, gen_append. appends_solve. Qed.

Lemma check_bin_appends name : appends 0 (check_bin name).
Proof. unfold check_bin, shutil_which. appends_solve. Qed.

Lemma cleanup_file_appends p : appends 0 (cleanup_file p).
Proof. unfold cleanup_file, try_pass. appends_solve. Qed.
End ProbeAppends.


(** ** Every line a probe records is one line *)

(** A text without a line break. *)
Definition no_nl (l : str) : Prop := c_nl ∉ l.

(** The macro name of a probe, when there is one, is one line. *)
Definition head_ok (head : option str) : Prop :=
  match head with Some h => no_nl h | None => True end.

Lemma no_nl_prefixed (p h : str) : no_nl p -> no_nl h -> no_nl (p ++ h).
Proof. unfold no_nl. rewrite not_elem_of_app. tauto. Qed.

Lemma no_nl_lit (s : string) : bool_decide (c_nl ∈ u s) = false -> no_nl (u s).
Proof. unfold no_nl. intros H. by apply bool_decide_eq_false in H. Qed.

Lemma no_nl_define_line h : no_nl h -> no_nl (define_line h).
Proof. apply no_nl_prefixed, no_nl_lit. reflexivity. Qed.

Lemma no_nl_undef_line h : no_nl h -> no_nl (undef_line h).
Proof. apply no_nl_prefixed, no_nl_lit. reflexivity. Qed.

Lemma no_nl_define_value_line isp h v : no_nl h -> no_nl (u "#define " ++ h ++ u " " ++ repr isp v).
Proof.
  intros Hh. apply no_nl_prefixed; [by apply no_nl_lit|].
  apply no_nl_prefixed; [done|]. apply no_nl_prefixed; [by apply no_nl_lit|]. apply repr_no_nl.
Qed.

(** ** A property of every line of [GEN] *)

(** Every line of [GEN] has the property [P]. *)
Definition gen_all (P : str -> Prop) (w : world) : Prop := Forall P (w_gen w).

Section GenAll.
Context `{H : Host} (P : str -> Prop).

Lemma gen_all_keeps {A} (m : Py A) : keeps_gen m -> preserves (gen_all P) m.
Proof. intros Hm w Hw. unfold gen_all. by rewrite (Hm (w_gen w) w eq_refl). Qed.

Lemma gen_all_add l : P l -> preserves (gen_all P) (modify (E:=exn) (add_gen l)).
Proof. intros Hl w Hw. unfold gen_all in *. simpl. apply Forall_app. by split; [|constructor]. Qed.

Lemma gen_all_gen_if head line :
  (forall h, head = Some h -> P (line h)) -> preserves (gen_all P) (gen_if head line).
Proof.
  intros Hl. unfold gen_if, gen_append. destruct head as [h|]; [|apply preserves_ret].
  case_match; [by apply gen_all_add, Hl|apply preserves_ret].
Qed.
End GenAll.

(** Split a probe at its appends; [side] proves [P] of each appended
    line. *)
Ltac gen_all_solve side :=
  let keeps := solve [keeps_solve; eauto with py] in
  repeat (intros; first
    [ apply gen_all_gen_if; intros ? ->; side
    | apply gen_all_add; side
    | apply gen_all_keeps; keeps
    | apply preserves_bind
    | apply preserves_catch
    | progress case_match ]).

Ltac no_nl_side :=
  first [ by apply no_nl_define_line | by apply no_nl_undef_line
        | unfold define_value_line; by apply no_nl_define_value_line ].

Section ProbeSingle.
Context `{H : Host}.

Lemma gen_single_check head feat headers example mandatory link :
  head_ok head -> preserves (gen_all no_nl) (check head feat headers example mandatory link).
Proof. intros Hh. unfold check, check_try, check_error, try_pass. gen_all_solve no_nl_side. Qed.

Lemma gen_single_check_header head header mandatory :
  head_ok head -> preserves (gen_all no_nl) (check_header head header mandatory).
Proof. intros Hh. unfold check_header, check_header_try. gen_all_solve no_nl_side. Qed.

Lemma gen_single_define_stdout head name cmd mandatory :
  head_ok head -> preserves (gen_all no_nl) (define_stdout head name cmd mandatory).
Proof. intros Hh. unfold define_stdout, gen_append. gen_all_solve no_nl_side. Qed.
End ProbeSingle.

(** ** Every line a probe records is a macro directive *)

(** [#define ...] or [//#define ...]. *)
Definition macro_line (l : str) : Prop :=
  (exists r, l = u "#define " ++ r) \/ (exists r, l = u "//#define " ++ r).

Ltac macro_side := first [left; eexists; reflexivity | right; eexists; reflexivity].

Section ProbeMacro.
Context `{H : Host}.

Lemma gen_macro_check head feat headers example mandatory link :
  preserves (gen_all macro_line) (check head feat headers example mandatory link).
Proof. unfold check, check_try, check_error, try_pass. gen_all_solve macro_side. Qed.

Lemma gen_macro_check_header head header mandatory :
  preserves (gen_all macro_line) (check_header head header mandatory).
Proof. unfold check_header, check_header_try. gen_all_solve macro_side. Qed.

Lemma gen_macro_define_stdout head name cmd mandatory :
  preserves (gen_all macro_line) (define_stdout head name cmd mandatory).
Proof. unfold define_stdout, gen_append, define_value_line. gen_all_solve macro_side. Qed.
End ProbeMacro.
