(* ===== verification/ProbeSpec.v ===== *)
(** * The per-probe state machine of the specification

    The specification describes a probe of [check] as a state machine:
    Pending, Compiling, then CompileFailed (Abort or a disabled macro),
    CompileOk, Executing, RunSuccess (an enabled macro) or RunFailure
    (Abort or a disabled macro), and HostFault (Abort or Skip).  This
    file states it as a step relation [step] over [phase], parameterised
    by the probe's declaration ([named], [mandatory]) and the host's
    verdicts, gives its executable form [next], proves that from Pending
    it always reaches exactly one terminal state, and relates [check] to
    it: [check] implements the machine on every path but one. *)

From S2P Require Import Prelude PyStr Utf8 Fs Interp Probes.

Open Scope Z_scope.

Inductive phase :=
| Pending | Compiling | CompileFailed | CompileOk | Executing
| RunSuccess | RunFailure | HostFault
| Aborted | Recorded (enabled : bool) | Skipped.

#[export] Instance phase_eq_dec : EqDecision phase.
Proof. solve_decision. Defined.

(** What the declaration of a probe says. *)
Record decl := mkDecl { d_named : bool; d_mandatory : bool }.

(** What the host does: a fault while staging, the compiler's exit
    status, the probe binary's exit status. *)
Record verdicts := mkVerdicts { v_fault : bool; v_cc : Z; v_run : Z }.

Section Machine.
Variables (d : decl) (v : verdicts).

Inductive step : phase -> phase -> Prop :=
| s_start : step Pending Compiling
| s_fault : v_fault v = true -> step Compiling HostFault
| s_cc_fail : v_fault v = false -> v_cc v <> 0 -> step Compiling CompileFailed
| s_cc_ok : v_fault v = false -> v_cc v = 0 -> step Compiling CompileOk
| s_cf_abort : d_mandatory d = true -> step CompileFailed Aborted
| s_cf_disabled : d_mandatory d = false -> d_named d = true -> step CompileFailed (Recorded false)
| s_cf_skip : d_mandatory d = false -> d_named d = false -> step CompileFailed Skipped
| s_exec : step CompileOk Executing
| s_run_ok : v_run v = 0 -> step Executing RunSuccess
| s_run_fail : v_run v <> 0 -> step Executing RunFailure
| s_rs_enabled : d_named d = true -> step RunSuccess (Recorded true)
| s_rs_skip : d_named d = false -> step RunSuccess Skipped
| s_rf_abort : d_mandatory d = true -> step RunFailure Aborted
| s_rf_disabled : d_mandatory d = false -> d_named d = true -> step RunFailure (Recorded false)
| s_rf_skip : d_mandatory d = false -> d_named d = false -> step RunFailure Skipped
| s_hf_abort : d_mandatory d = true -> step HostFault Aborted
| s_hf_skip : d_mandatory d = false -> step HostFault Skipped.

Definition terminal (s : phase) : bool :=
  match s with Aborted | Recorded _ | Skipped => true | _ => false end.

(** The outcome of a decision on a probe that failed: abort, record a
    disabled macro, or skip. *)
Definition on_failure : phase :=
  if d_mandatory d then Aborted else if d_named d then Recorded false else Skipped.

(** The machine as a function: the successor of each phase. *)
Definition next (s : phase) : option phase :=
  match s with
  | Pending => Some Compiling
  | Compiling =>
      Some (if v_fault v then HostFault else if v_cc v =? 0 then CompileOk else CompileFailed)
  | CompileFailed => Some on_failure
  | CompileOk => Some Executing
  | Executing => Some (if v_run v =? 0 then RunSuccess else RunFailure)
  | RunSuccess => Some (if d_named d then Recorded true else Skipped)
  | RunFailure => Some on_failure
  | HostFault => Some (if d_mandatory d then Aborted else Skipped)
  | _ => None
  end.

(** Run the machine for at most [fuel] steps. *)
Fixpoint run_machine (fuel : nat) (s : phase) : phase :=
  match fuel with
  | O => s
  | S fuel => match next s with Some t => run_machine fuel t | None => s end
  end.

(** Five steps reach a terminal phase from [Pending]: the longest path
    is Pending, Compiling, CompileOk, Executing, RunFailure, then the
    decision. *)
Definition spec_result : phase := run_machine 5 Pending.

Lemma step_next s t : step s t <-> next s = Some t.
Proof.
  split.
  - destruct 1; simpl; unfold on_failure;
      repeat match goal with H : ?x = _ |- context [?x] => rewrite H end;
      try (rewrite (proj2 (Z.eqb_neq _ _)) by done); try (rewrite (proj2 (Z.eqb_eq _ _)) by done);
      done.
  - destruct s; simpl; intros [= <-]; unfold on_failure;
      repeat match goal with
             | |- context [if ?b then _ else _] => destruct b eqn:?
             end;
      try (constructor; (done || lia));
      repeat match goal with H : (_ =? _) = _ |- _ => apply Z.eqb_eq in H || apply Z.eqb_neq in H end;
      constructor; done.
Qed.

Lemma step_deterministic s t1 t2 : step s t1 -> step s t2 -> t1 = t2.
Proof. rewrite !step_next. congruence. Qed.

Lemma terminal_stuck s t : terminal s = true -> ~ step s t.
Proof. rewrite step_next. by destruct s. Qed.

Lemma next_step s t : next s = Some t -> step s t.
Proof. apply step_next. Qed.

(** Every run of the machine from [Pending] that stops in a terminal
    phase stops in [spec_result]. *)
Lemma star_terminal_unique s t1 t2 :
  rtc step s t1 -> terminal t1 = true -> rtc step s t2 -> terminal t2 = true -> t1 = t2.
Proof.
  intros H1. revert t2. induction H1 as [s|s s' t1 Hs Hrest IH]; intros t2 Ht1 H2 Ht2.
  - inversion H2 as [|? s'' ? Hs' _]; subst; [done|]. by destruct (terminal_stuck _ _ Ht1 Hs').
  - inversion H2 as [|? s'' ? Hs' Hrest']; subst.
    + by destruct (terminal_stuck _ _ Ht2 Hs).
    + rewrite (step_deterministic _ _ _ Hs Hs') in IH. by apply IH.
Qed.

Lemma run_machine_rtc fuel : forall s, rtc step s (run_machine fuel s).
Proof.
  induction fuel as [|fuel IH]; intros s; simpl; [apply rtc_refl|].
  destruct (next s) eqn:E; [|apply rtc_refl].
  eapply rtc_l; [by apply next_step|apply IH].
Qed.

Lemma spec_result_reached : rtc step Pending spec_result /\ terminal spec_result = true.
Proof.
  split; [apply run_machine_rtc|].
  cbv [spec_result run_machine next on_failure].
  destruct (v_fault v), (v_cc v =? 0), (v_run v =? 0), (d_named d), (d_mandatory d); reflexivity.
Qed.
End Machine.

(** ** [check] against the machine *)

(** The declaration of a [check] call: it is named when [head] is a
    non-empty name. *)
Definition check_decl (head : option str) (mandatory : bool) : decl :=
  mkDecl (truthy head) mandatory.

(** The outcome of [check] and the lines it appended realise a terminal
    phase: [Aborted] is [SystemExit(1)] with nothing recorded, [Recorded]
    one [#define] or [//#define] line, [Skipped] a return with nothing
    recorded. *)
Definition realises (head : option str) (t : phase) (o : outcome exn unit) (added : list str) : Prop :=
  match t with
  | Aborted => o = Exc (SystemExit 1) /\ added = []
  | Recorded true => o = Ret tt /\ added = gen_lines head define_line
  | Recorded false => o = Ret tt /\ added = gen_lines head undef_line
  | Skipped => o = Ret tt /\ added = []
  | _ => False
  end.

Lemma gen_lines_unnamed head line : truthy head = false -> gen_lines head line = [].
Proof. unfold gen_lines. destruct head; [|done]. by intros ->. Qed.

(** [check_result] realises the machine's terminal phase, except for a
    named, non-mandatory probe that fails to compile. *)
Lemma check_result_realises head mandatory rc_cc rc_run :
  ~ (rc_cc <> 0 /\ mandatory = false /\ truthy head = true) ->
  realises head (spec_result (check_decl head mandatory) (mkVerdicts false rc_cc rc_run))
    (fst (check_result head mandatory rc_cc rc_run)) (snd (check_result head mandatory rc_cc rc_run)).
Proof.
  intros Hdiv. unfold check_result, check_decl.
  cbv [spec_result run_machine next on_failure d_named d_mandatory v_fault v_cc v_run].
  destruct (Z.eqb_spec rc_cc 0), (Z.eqb_spec rc_run 0), mandatory, (truthy head) eqn:Ht;
    cbn [negb realises fst snd]; rewrite ?gen_lines_unnamed by done; try done.
  all: exfalso; apply Hdiv; by repeat split.
Qed.

Section Refinement.
Context `{H : Host} (Hposix : host_msys2 = false) (Hgcc : which (u "gcc") = true).

(** C11: on a POSIX host whose working directory can hold [test.c] and
    [test], [check] refines the specification's per-probe state machine:
    for the compiler's exit status [rc_cc] and the probe binary's
    [rc_run], what [check] returns and appends to [GEN] realises the
    unique terminal phase the machine reaches from [Pending] - abort,
    an enabled or disabled macro, or a skip - on every path but that of
    a named, non-mandatory probe that fails to compile. *)
Theorem check_refines_spec head feat headers example mandatory link w rc_cc err rc_run created :
  fs_lookup (w_fs w) (w_cwd w) = Some NDir ->
  w_fs w !! (w_cwd w ++ [test_c]) <> Some NDir ->
  w_fs w !! (w_cwd w ++ [test_bin]) <> Some NDir ->
  check_cc headers example link = (rc_cc, err) ->
  exec (check_image headers example link) = (rc_run, created) ->
  ~ (rc_cc <> 0 /\ mandatory = false /\ truthy head = true) ->
  exists added,
    w_gen (snd (check head feat headers example mandatory link w)) = w_gen w ++ added /\
    realises head (spec_result (check_decl head mandatory) (mkVerdicts false rc_cc rc_run))
      (fst (check head feat headers example mandatory link w)) added.
Proof.
  intros Hcwd Hc Hb Hcc Hex Hdiv.
  destruct (check_behaviour Hposix Hgcc head feat headers example mandatory link w rc_cc err rc_run
              created Hcwd Hc Hb Hcc Hex) as [Ho Hg].
  exists (snd (check_result head mandatory rc_cc rc_run)). split; [done|].
  rewrite Ho. by apply check_result_realises.
Qed.

(** C12: the path the refinement excludes: when a named, non-mandatory
    probe fails to compile, the machine records a disabled macro, but
    [check] returns at line 71 and records nothing. *)
Theorem check_compile_failure_diverges head feat headers example link w rc_cc err rc_run created :
  fs_lookup (w_fs w) (w_cwd w) = Some NDir ->
  w_fs w !! (w_cwd w ++ [test_c]) <> Some NDir ->
  w_fs w !! (w_cwd w ++ [test_bin]) <> Some NDir ->
  check_cc headers example link = (rc_cc, err) ->
  exec (check_image headers example link) = (rc_run, created) ->
  rc_cc <> 0 -> truthy head = true ->
  spec_result (check_decl head false) (mkVerdicts false rc_cc rc_run) = Recorded false /\
  fst (check head feat headers example false link w) = Ret tt /\
  w_gen (snd (check head feat headers example false link w)) = w_gen w.
Proof.
  intros Hcwd Hc Hb Hcc Hex Hrc Ht.
  destruct (check_behaviour Hposix Hgcc head feat headers example false link w rc_cc err rc_run
              created Hcwd Hc Hb Hcc Hex) as [Ho Hg].
  unfold check_result in Ho, Hg. rewrite (proj2 (Z.eqb_neq _ _) Hrc) in Ho, Hg.
  split; [|split; [done|by rewrite Hg, app_nil_r]].
  cbv [spec_result run_machine next on_failure check_decl d_named d_mandatory v_fault v_cc].
  by rewrite (proj2 (Z.eqb_neq _ _) Hrc), Ht.
Qed.
End Refinement.

(** Scenario C of the specification: the probe binary of
    [HAVE_STRTOIMAX] exits 1 and the machine ends in a disabled macro. *)
Lemma check_refines_spec_witness :
  let H := demo_host 0 1 in
  exists added,
    w_gen (snd (check (Some (u "HAVE_STRTOIMAX")) (u "strtoimax can be used") [u "inttypes.h"]
                  (u "return 1;") false [] demo_world)) = w_gen demo_world ++ added /\
    realises (Some (u "HAVE_STRTOIMAX"))
      (spec_result (check_decl (Some (u "HAVE_STRTOIMAX")) false) (mkVerdicts false 0 1))
      (fst (check (Some (u "HAVE_STRTOIMAX")) (u "strtoimax can be used") [u "inttypes.h"]
              (u "return 1;") false [] demo_world)) added.
Proof.
  exact (@check_refines_spec (demo_host 0 1) eq_refl eq_refl (Some (u "HAVE_STRTOIMAX"))
           (u "strtoimax can be used") [u "inttypes.h"] (u "return 1;") false [] demo_world
           0 (u "undefined reference") 1 [] eq_refl ltac:(vm_compute; congruence)
           ltac:(vm_compute; congruence) eq_refl eq_refl ltac:(intros [Hc _]; by apply Hc)).
Defined.

(** [HAVE_STRTOIMAX] on a host whose compiler rejects it: the machine
    records [//#define HAVE_STRTOIMAX], [check] records nothing. *)
Lemma check_compile_failure_diverges_witness :
  let H := demo_host 1 0 in
  spec_result (check_decl (Some (u "HAVE_STRTOIMAX")) false) (mkVerdicts false 1 0) = Recorded false /\
  fst (check (Some (u "HAVE_STRTOIMAX")) (u "strtoimax can be used") [u "inttypes.h"]
         (u "return 1;") false [] demo_world) = Ret tt /\
  w_gen (snd (check (Some (u "HAVE_STRTOIMAX")) (u "strtoimax can be used") [u "inttypes.h"]
                (u "return 1;") false [] demo_world)) = w_gen demo_world.
Proof.
  exact (@check_compile_failure_diverges (demo_host 1 0) eq_refl eq_refl (Some (u "HAVE_STRTOIMAX"))
           (u "strtoimax can be used") [u "inttypes.h"] (u "return 1;") [] demo_world
           1 (u "undefined reference") 0 [] ltac:(vm_compute; congruence)
           ltac:(vm_compute; congruence) ltac:(vm_compute; congruence) eq_refl eq_refl
           ltac:(discriminate) eq_refl).
Defined.
