(* ===== verification/Script.v ===== *)
(** * The module body of [configure.py] and the process that runs it

    The statements at module level: entering the scratch directory
    (lines 16-20), registering [try_cleanup] with [atexit] (line 198),
    the list of probes (lines 205-332) as data [checks] run in order by
    [run_call], and the emission of [../src/config.h] (lines 335-337).
    [process] runs the module as the interpreter does: the exit status
    from the outcome, then the exit handler when it is registered. *)

From S2P Require Import Prelude PyStr Utf8 Fs Interp Probes ProbeLogic.

Open Scope Z_scope.

(** A C snippet as the script writes it; a backquote stands for each
    double quote of the C text (the snippets contain no backquote). *)
Definition cbody (s : string) : str := map (fun c => if c =? 96 then c_dquote else c) (u s).

(** One call statement of the check list. *)
Inductive call :=
| CheckBin (name : str)
| CheckHeader (head : option str) (header : str) (mandatory : bool)
| Check (head : option str) (feat : str) (headers : list str) (example : str)
        (mandatory : bool) (link : list str)
| CleanupFile (p : str)
| DefineStdout (head : option str) (name : str) (cmd : str) (mandatory : bool).

(** [REQUIRED_HEADERS] (lines 211-222). *)
Definition REQUIRED_HEADERS : list str :=
  [u "limits.h"; u "stddef.h"; u "stdint.h"; u "stdio.h"; u "stdlib.h"; u "string.h";
   u "unistd.h"; u "fcntl.h"; u "curl/curl.h"; u "curl/urlapi.h"].

(** Lines 205-209. *)
Definition bin_checks : list call := [
  (* line 205 *) CheckBin (u "rm");
  (* line 206 *) CheckBin (u "cp");
  (* line 207 *) CheckBin (u "mkdir");
  (* line 208 *) CheckBin (u "touch");
  (* line 209 *) CheckBin (u "gcc")
].

(** Lines 223-224: [for head in REQUIRED_HEADERS: check_header(None, head, True)]. *)
Definition header_checks : list call := map (fun h => CheckHeader None h true) REQUIRED_HEADERS.

(** Lines 227-332. *)
Definition feature_checks : list call := [
  (* line 227 *) Check None (u "can find filesystem functions") [u "string.h"; u "stdlib.h"; u "stdio.h"]
    (cbody "void *ptr_a = (void*)&fopen;
if (ptr_a == NULL) return 1;
void *ptr_b = (void*)&fclose;
if (ptr_b == NULL) return 1;
void *ptr_c = (void*)&fwrite;
if (ptr_c == NULL) return 1;
void *ptr_d = (void*)&fread;
if (ptr_d == NULL) return 1;
return 0;")
    true [];
  (* line 238 *) Check None (u "can do filesystem operations") [u "string.h"; u "stdlib.h"; u "stdio.h"]
    (cbody "char *temp_path = `./temp`;
FILE *f = fopen(temp_path, `w`);
if (f == NULL) return 1;
char data[] = `This is an example bit of text`;
size_t s = fwrite(data, sizeof(data), 1, f);
if (s != 1) return 1;
fclose(f);
f = fopen(temp_path, `r`);
char buf[sizeof(data)];
s = fread(buf, sizeof(buf), 1, f);
if (s != 1) return 1;
for (int i = 0; i < sizeof(data); i += 1) {
      if (data[i] != buf[i]) return 1;
}
fclose(f);
return 0;")
    true [];
  (* line 256 *) CleanupFile (u "./temp");
  (* line 258 *) Check (Some (u "HAVE_FPRINTF_STDERR")) (u "fprintf can be used for stderr") [u "inttypes.h"; u "stdlib.h"; u "stdio.h"]
    (cbody "int amount = fprintf(stderr, `Hello!`);
if (amount != sizeof(`Hello`)) return 1;
return 0;")
    true [];
  (* line 263 *) CleanupFile (u "./temp");
  (* line 265 *) Check None (u "strlen exists and functions") [u "stdlib.h"; u "string.h"]
    (cbody "char test[] = `123456789`;
int len = strlen(test);
if (len != sizeof(test) - 1) return 1;
return 0;")
    true [];
  (* line 271 *) Check None (u "strcmp exists and functions") [u "stdlib.h"; u "string.h"]
    (cbody "if (0 != strcmp(`FOO`, `FOO`)) return 1;
return 0;")
    true [];
  (* line 276 *) Check None (u "memcpy exists and functions") [u "stdlib.h"; u "string.h"]
    (cbody "int a = 20;
int b = 10;
memcpy(&a, &b, sizeof(int));
if (a != b) return 1;
return 0;")
    true [];
  (* line 283 *) Check None (u "memset exists and functions") [u "stdlib.h"; u "string.h"]
    (cbody "unsigned char a[2] = { 1, 3 };
memset(a, 12, 2);
if (a[0] != 12 || a[1] != 12) return 1;
return 0;")
    true [];
  (* line 289 *) Check None (u "malloc can be called") [u "stdlib.h"; u "string.h"]
    (cbody "unsigned char* data = malloc(sizeof(unsigned char)*512);
for (unsigned char i = 0; i < 255; i += 1) {
    memset(data, i, 512);
    for (int b = 0; b < 512; b += 1) {
        if (data[b] != (unsigned char)i) return 1;
    }
}
free(data);
return 0;")
    true [];
  (* line 301 *) Check None (u "strtoq can be used") [u "inttypes.h"; u "stdlib.h"]
    (cbody "char *test = `38`;
char *endptr;
long res = strtoq(test, &endptr, 10);
if (endptr != &test[2]) return 1;
if (res != 38) return 2;
return 0;")
    false [];
  (* line 309 *) Check (Some (u "HAVE_STRTOL")) (u "strtol can be used") [u "inttypes.h"; u "stdlib.h"]
    (cbody "char *test = `38`;
char *endptr;
long res = strtol(test, &endptr, 10);
if (endptr != &test[2]) return 1;
if (res != 38) return 2;
return 0;")
    true [];
  (* line 317 *) Check (Some (u "HAVE_STRTOIMAX")) (u "strtoimax can be used") [u "inttypes.h"; u "string.h"]
    (cbody "char *test = `38`;
char *endptr;
intmax_t res = strtoimax(test, &endptr, 10);
if (endptr != &test[2]) return 1;
if (res != 38) return 2;
return 0;")
    false [];
  (* line 326 *) Check None (u "Can link with curl") [u "curl/curl.h"]
    (cbody "char *ver = curl_version();
printf(ver);
return 0;
")
    true [u "curl"];
  (* line 332 *) DefineStdout (Some (u "COMPILER_ARCH")) (u "architecture") (u "uname -m") false
].

Definition checks : list call := bin_checks ++ header_checks ++ feature_checks.

Definition preamble : str := u "/* THIS FILE IS AUTO-GENERATED, RUN CONFIGURE.PY TO GENERATE */".

(** The text written to [config.h]: the preamble, then [GEN] joined by
    newlines, then a final newline. *)
Definition header_text (gen : list str) : str := preamble ++ [c_nl] ++ join [c_nl] gen ++ [c_nl].

Definition config_h : str := u "../src/config.h".

Section Script.
Context `{H : Host}.

Definition run_call (c : call) : Py unit :=
  match c with
  | CheckBin name => check_bin name
  | CheckHeader head header mandatory => check_header head header mandatory
  | Check head feat headers example mandatory link => check head feat headers example mandatory link
  | CleanupFile p => cleanup_file p
  | DefineStdout head name cmd mandatory => define_stdout head name cmd mandatory
  end.

(** Lines 16-20: [try: os.mkdir("./configure") except: pass], then
    [os.chdir("./configure")]. *)
Definition enter_workspace : Py unit :=
  try_pass (os_mkdir (u "./configure")) ;;
  os_chdir (u "./configure").

(** Line 198. *)
Definition register_cleanup : Py unit := modify set_atexit.

(** Lines 335-337. *)
Definition write_header : Py unit :=
  w <- get ;; write_file config_h (header_text (w_gen w)).

Definition main : Py unit :=
  enter_workspace ;;
  register_cleanup ;;
  for_each checks run_call ;;
  write_header ;;
  println (u "CONFIGURE COMPLETE! You should be ready to build").

(** The interpreter starts in [launch] with [GEN = []] (line 10). *)
Definition initial_world (fs : fsmap) (launch : path) : world := mkWorld fs launch [] [] false [].

(** [SystemExit(n)] exits with [n], any other uncaught exception with 1. *)
Definition exit_code (o : outcome exn unit) : Z :=
  match o with
  | Ret _ => 0
  | Exc (SystemExit n) => n
  | Exc _ => 1
  end.

(** The run of [python3 configure.py]: the module, then the [atexit]
    handler. *)
Definition process (fs : fsmap) (launch : path) : Z * world :=
  let '(o, w) := main (initial_world fs launch) in
  (exit_code o, if w_atexit w then snd (try_cleanup w) else w).
End Script.

(** ** The check list stays in the scratch directory *)

(** The calls whose paths are entries of the working directory. *)
Definition call_local (c : call) : Prop :=
  match c with CleanupFile p => local p | _ => True end.

Lemma checks_local : Forall call_local checks.
Proof.
  unfold checks, bin_checks, header_checks, feature_checks. simpl.
  repeat constructor; cbn; eexists; intros; reflexivity.
Qed.

Lemma frames_for_each_Forall {A} (P : A -> Prop) (l : list A) (body : A -> Py unit) :
  Forall P l -> (forall x, P x -> frames (body x)) -> frames (for_each l body).
Proof.
  intros Hl Hb. induction Hl as [|x l Hx Hl IH]; simpl.
  - apply frames_ret.
  - apply frames_bind; [by apply Hb|intros; apply IH].
Qed.

Section ScriptFacts.
Context `{H : Host}.

Lemma frames_run_call c : call_local c -> frames (run_call c).
Proof.
  destruct c; simpl; intros Hc.
  - apply frames_check_bin.
  - apply frames_check_header.
  - apply frames_check.
  - by apply frames_cleanup_file.
  - apply frames_define_stdout.
Qed.

Lemma frames_checks : frames (for_each checks run_call).
Proof. apply (frames_for_each_Forall call_local); [apply checks_local|apply frames_run_call]. Qed.
End ScriptFacts.

(** ** Paths of the module body *)

Definition configure_dir (launch : path) : path := launch ++ [u "configure"].
Definition config_path (launch : path) : path := launch ++ [u "src"; u "config.h"].

Lemma resolve_configure launch : resolve launch (u "./configure") = configure_dir launch.
Proof. reflexivity. Qed.

Lemma resolve_config_h launch : resolve (configure_dir launch) config_h = config_path launch.
Proof.
  transitivity ((removelast (configure_dir launch) ++ [u "src"]) ++ [u "config.h"]); [reflexivity|].
  unfold configure_dir, config_path. by rewrite removelast_app_single, <-app_assoc.
Qed.

Lemma config_path_parent launch : removelast (config_path launch) = launch ++ [u "src"].
Proof.
  unfold config_path. change [u "src"; u "config.h"] with ([u "src"] ++ [u "config.h"]).
  by rewrite app_assoc, removelast_app_single.
Qed.

Lemma config_not_in_launch launch : removelast (config_path launch) <> launch.
Proof. rewrite config_path_parent. apply app_single_neq. Qed.

Lemma config_not_in_configure launch : removelast (config_path launch) <> configure_dir launch.
Proof. rewrite config_path_parent. unfold configure_dir. intros Heq. apply app_inv_head in Heq. by injection Heq. Qed.

(** ** The exit handler and the header *)

Section Process.
Context `{H : Host}.

Lemma local_temp : local (u "./temp").
Proof. eexists; intros; reflexivity. Qed.

(** [try_cleanup], run from the scratch directory, does not touch
    [src/config.h]. *)
Lemma try_cleanup_keeps_config launch w :
  w_cwd w = configure_dir launch ->
  w_fs (snd (try_cleanup w)) !! config_path launch = w_fs w !! config_path launch.
Proof.
  intros Hc. set (cp := config_path launch).
  assert (S0 : stays (configure_dir launch) (w_atexit w) cp (w_fs w !! cp) w)
    by (split; [done|]; split; [done|]; split; [apply config_not_in_configure|done]).
  unfold try_cleanup.
  mrun (try_pass_run _ w).
  pose proof (frames_os_remove _ local_temp _ _ _ _ w S0) as S1. set (w1 := snd (os_remove _ w)) in *.
  mrun (try_pass_run _ w1).
  pose proof (frames_os_remove (u "./test.c") ltac:(eexists; intros; reflexivity) _ _ _ _ w1 S1) as S2.
  set (w2 := snd (os_remove _ w1)) in *.
  mrun (try_pass_run _ w2).
  pose proof (frames_os_remove (u "./test") ltac:(eexists; intros; reflexivity) _ _ _ _ w2 S2) as S3.
  set (w3 := snd (os_remove _ w2)) in *.
  rewrite try_pass_run. destruct S3 as (Hc3 & _ & _ & Hv3). rewrite <-Hv3.
  destruct (os_chdir_cases (u "..") w3) as [[e He]|He]; rewrite (bind_Exc _ _ _ _ _ He) || rewrite (bind_Ret _ _ _ _ _ He); [done|].
  cbn [snd].
  destruct (os_rmdir_fs (u "./configure") (set_cwd (resolve (w_cwd w3) (u "..")) w3)) as [-> | ->]; [done|].
  rewrite lookup_delete_ne; [done|]. cbn [w_cwd set_cwd w_fs].
  rewrite Hc3, resolve_dotdot. unfold configure_dir at 1. rewrite removelast_app_single, resolve_configure.
  unfold cp, config_path, configure_dir. intros Heq. apply app_inv_head in Heq. discriminate.
Qed.
End Process.

Lemma local_configure : local (u "./configure").
Proof. exists (u "configure"). intros; reflexivity. Qed.

(** ** The exit handler removes a workspace that holds only its artifacts *)

(** The directory [c] is a directory none of whose entries is one. *)
Definition flat_dir (c : path) (fs : fsmap) : Prop :=
  fs_lookup fs c = Some NDir /\ forall y, fs !! (c ++ [y]) <> Some NDir.

Lemma flat_dir_delete c x fs : flat_dir c fs -> flat_dir c (delete (c ++ [x]) fs).
Proof.
  intros [Hc Hy]. split; [by rewrite fs_lookup_delete_child|].
  intros y. rewrite lookup_delete. case_decide; [done|apply Hy].
Qed.

Lemma try_remove_flat `{Host} w x p :
  flat_dir (w_cwd w) (w_fs w) -> resolve (w_cwd w) p = w_cwd w ++ [x] ->
  try_pass (os_remove p) w = (Ret tt, set_fs (delete (w_cwd w ++ [x]) (w_fs w)) w).
Proof. intros [Hc Hy] Hr. by apply try_remove_child. Qed.

(** The three names [try_cleanup] removes. *)
Definition artifacts (c : path) : list path := [c ++ [u "temp"]; c ++ [test_c]; c ++ [test_bin]].

Lemma configure_dir_ne launch : configure_dir launch <> [].
Proof. unfold configure_dir. by destruct launch. Qed.

(** C13: the exit handler, run from [./configure] in a well-formed tree
    whose scratch directory holds nothing but files named [temp],
    [test.c] and [test], removes each of them, returns to the launch
    directory and removes [./configure]. *)
Theorem try_cleanup_removes_workspace `{Host} launch w :
  wf (w_fs w) -> w_cwd w = configure_dir launch -> w_fs w !! configure_dir launch = Some NDir ->
  (forall q n, w_fs w !! q = Some n -> removelast q = configure_dir launch ->
     n <> NDir /\ q ∈ artifacts (configure_dir launch)) ->
  w_fs (snd (try_cleanup w)) !! configure_dir launch = None /\ w_cwd (snd (try_cleanup w)) = launch.
Proof.
  intros Hwf Hc Hd Hkids. set (c := configure_dir launch) in *.
  assert (Hflat : flat_dir (w_cwd w) (w_fs w)).
  { rewrite Hc. split; [rewrite fs_lookup_ne; [done|apply configure_dir_ne]|].
    intros y Hy. destruct (Hkids _ _ Hy) as [Hn _]; [apply removelast_app_single|done]. }
  unfold try_cleanup.
  mrun (try_remove_flat w (u "temp") (u "./temp") Hflat eq_refl).
  set (w1 := set_fs _ w).
  mrun (try_remove_flat w1 test_c (u "./test.c") (flat_dir_delete _ _ _ Hflat) eq_refl).
  set (w2 := set_fs _ w1).
  mrun (try_remove_flat w2 test_bin (u "./test")
          (flat_dir_delete _ _ _ (flat_dir_delete _ _ _ Hflat)) eq_refl).
  unfold w2, w1. rewrite ?w_cwd_set_fs, ?w_fs_set_fs, Hc.
  set (fs3 := delete (c ++ [test_bin]) (delete (c ++ [test_c]) (delete (c ++ [u "temp"]) (w_fs w)))).
  destruct (Hwf c NDir Hd) as [_ Hlaunch]. unfold c, configure_dir in Hlaunch.
  rewrite removelast_app_single in Hlaunch.
  assert (Hl3 : fs_lookup fs3 launch = Some NDir).
  { unfold fs3. rewrite !fs_lookup_delete.
    repeat (rewrite bool_decide_eq_false_2; [|intros [Heq _]; apply (f_equal length) in Heq;
      unfold c, configure_dir in Heq; rewrite !length_app in Heq; simpl in Heq; lia]).
    done. }
  assert (Hc3 : fs3 !! c = Some NDir) by (unfold fs3; rewrite !lookup_delete_ne; [done|..];
    intros Heq; first [by apply app_single_neq in Heq | symmetry in Heq; by apply app_single_neq in Heq]).
  assert (Hnc : has_child fs3 c = false).
  { apply not_true_iff_false. rewrite has_child_spec. intros (q & n & Hq & _ & Hr).
    unfold fs3 in Hq. apply lookup_delete_Some in Hq as [H1 Hq].
    apply lookup_delete_Some in Hq as [H2 Hq]. apply lookup_delete_Some in Hq as [H3 Hq].
    destruct (Hkids q n Hq Hr) as [_ Hin]. unfold artifacts in Hin. set_solver. }
  match goal with |- context [try_pass _ ?W] => set (w3 := W) end.
  assert (Hcw3 : w_cwd w3 = c) by (unfold w3; rewrite !w_cwd_set_fs; exact Hc).
  assert (Hfs3 : w_fs w3 = fs3) by (unfold w3; apply w_fs_set_fs).
  assert (Hup : resolve c (u "..") = launch)
    by (rewrite resolve_dotdot; unfold c, configure_dir; apply removelast_app_single).
  assert (E1 : os_chdir (u "..") w3 = (Ret tt, set_cwd launch w3)).
  { unfold os_chdir, bind, get. cbn beta iota zeta.
    rewrite Hcw3, Hup, Hfs3. unfold fs_chdir. by rewrite Hl3. }
  assert (E2 : os_rmdir (u "./configure") (set_cwd launch w3) =
               (Ret tt, set_fs (delete c fs3) (set_cwd launch w3))).
  { unfold os_rmdir, bind, get. cbn beta iota zeta.
    rewrite w_cwd_set_cwd, w_fs_set_cwd, resolve_configure, Hfs3. fold c.
    rewrite fs_rmdir_empty; [done|apply configure_dir_ne| |done|done].
    unfold c, configure_dir. by rewrite removelast_app_single. }
  rewrite try_pass_run, (bind_Ret _ _ _ _ _ E1), E2. cbn [snd].
  rewrite w_fs_set_fs, w_cwd_set_fs, w_cwd_set_cwd. split; [apply lookup_delete_eq|done].
Qed.

(** ** How the module body ends *)

Section MainCases.
Context `{H : Host}.

(** The exceptions of the module body all give a non-zero exit status:
    [SystemExit(1)] of a failed mandatory probe or a fault. *)
Lemma fault_exit_code e : fault e -> exit_code (Exc e) <> 0.
Proof. unfold fault. destruct e; simpl; congruence. Qed.

Lemma exits_nonzero_code e : exits_nonzero e -> exit_code (Exc e) = 1.
Proof. intros [He| ->]; [|done]. unfold fault in He. by destruct e. Qed.

Lemma run_call_exits c : raises_only exits_nonzero (run_call c).
Proof.
  destruct c; [apply check_bin_exits|apply check_header_exits|apply check_exits
              |apply try_pass_raises|apply define_stdout_exits].
Qed.

(** The module body raises only a fault or [SystemExit(1)]. *)
Lemma main_exits : raises_only exits_nonzero main.
Proof.
  unfold main, enter_workspace, register_cleanup, write_header.
  repeat match goal with
  | |- raises_only _ (bind _ _) => apply raises_only_bind; [|intros]
  | |- raises_only _ (for_each _ _) => apply raises_only_for_each, run_call_exits
  | |- raises_only _ (try_pass _) => apply try_pass_raises
  | |- raises_only _ (modify _) => apply raises_only_modify
  | |- raises_only _ get => apply raises_only_get
  | |- raises_only _ (println _) => apply println_raises
  | |- raises_only _ (os_chdir _) =>
      eapply raises_only_weaken; [intros e He; by left|apply os_chdir_raises]
  | |- raises_only _ (write_file _ _) =>
      eapply raises_only_weaken; [intros e He; by left|apply write_file_raises]
  end.
Qed.

Lemma main_raises : raises_only (fun e => exit_code (Exc e) <> 0) main.
Proof.
  eapply raises_only_weaken; [|apply main_exits]. intros e He. by rewrite exits_nonzero_code.
Qed.

End MainCases.

Section Process2.
Context `{H : Host}.

(** The exit handler keeps [src/config.h] in every world it may see. *)
Lemma exit_handler_keeps_config launch b v w :
  stays (configure_dir launch) b (config_path launch) v w ->
  w_fs (if w_atexit w then snd (try_cleanup w) else w) !! config_path launch = v.
Proof.
  intros (Hc & Hb & _ & Hv). destruct (w_atexit w); [|done].
  by rewrite try_cleanup_keeps_config.
Qed.

Lemma keeps_gen_try_cleanup : keeps_gen try_cleanup.
Proof.
  unfold try_cleanup, try_pass.
  repeat first [ apply keeps_gen_os_remove | apply keeps_gen_os_chdir | apply keeps_gen_os_rmdir
               | apply keeps_gen_bind | apply keeps_gen_catch | apply keeps_gen_ret | intros ].
Qed.

Lemma process_eq fs0 launch :
  process fs0 launch =
    (exit_code (fst (main (initial_world fs0 launch))),
     let w := snd (main (initial_world fs0 launch)) in
     if w_atexit w then snd (try_cleanup w) else w).
Proof. unfold process. by destruct (main _). Qed.

Definition complete_msg : str := u "CONFIGURE COMPLETE! You should be ready to build" ++ [c_nl].

(** The three ends of the module body: [os.chdir] failed before the exit
    handler was registered; an exception escaped after it; or every probe
    completed and the header was written. *)
Lemma main_cases fs0 launch :
  let w0 := initial_world fs0 launch in
  let cp := config_path launch in
  (exists e, fst (main w0) = Exc e /\ stays launch false cp (fs0 !! cp) (snd (main w0))) \/
  (exists e, fst (main w0) = Exc e /\ stays (configure_dir launch) true cp (fs0 !! cp) (snd (main w0))) \/
  (exists w4 fs', main w0 = (Ret tt, add_out complete_msg (set_fs fs' w4)) /\
     stays (configure_dir launch) true cp (fs0 !! cp) w4 /\
     fs_create (w_fs w4) cp (NText (header_text (w_gen w4))) = inr fs').
Proof.
  intros w0 cp. unfold main.
  assert (S0 : stays launch false cp (fs0 !! cp) w0)
    by (split; [done|]; split; [done|]; split; [apply config_not_in_launch|done]).
  unfold enter_workspace. rewrite !bind_assoc.
  rewrite (bind_Ret _ _ _ _ _ (try_pass_run _ w0)).
  pose proof (frames_os_mkdir _ local_configure _ _ _ _ w0 S0) as S1.
  set (w1 := snd (os_mkdir _ w0)) in *.
  destruct (os_chdir_cases (u "./configure") w1) as [[e He]|He].
  { left. rewrite (bind_Exc _ _ _ _ _ He). by exists e. }
  rewrite (bind_Ret _ _ _ _ _ He). cbv beta. right.
  destruct S1 as (Hc1 & Hb1 & _ & Hv1).
  set (w3 := set_atexit (set_cwd (resolve (w_cwd w1) (u "./configure")) w1)).
  assert (S3 : stays (configure_dir launch) true cp (fs0 !! cp) w3).
  { unfold w3. split; [by cbn [w_cwd set_atexit set_cwd]; rewrite Hc1, resolve_configure|].
    split; [done|]. split; [apply config_not_in_configure|done]. }
  erewrite (bind_Ret _ _ _ _ _ (eq_refl : register_cleanup _ = (Ret tt, w3))).
  pose proof (frames_checks _ _ _ _ w3 S3) as S4.
  destruct (for_each checks run_call w3) as [[[]|e] w4] eqn:E4; simpl in S4.
  2:{ left. rewrite (bind_Exc _ _ _ _ _ E4). by exists e. }
  rewrite (bind_Ret _ _ _ _ _ E4).
  destruct S4 as (Hc4 & Hb4 & Hp4 & Hv4).
  assert (Ew : write_header w4 =
            lift_errno (fs_create (w_fs w4) cp (NText (header_text (w_gen w4)))) w4).
  { unfold write_header, write_file, bind, get. cbn beta iota.
    by rewrite Hc4, resolve_config_h. }
  destruct (fs_create (w_fs w4) cp _) as [e|fs'] eqn:Ecr; cbn [lift_errno raise] in Ew.
  - left. exists (OSError e). rewrite (bind_Exc _ _ _ _ _ Ew). by repeat split.
  - right. exists w4, fs'. rewrite (bind_Ret _ _ _ _ _ Ew). by repeat split.
Qed.

(** C4: a run that ends with a non-zero exit status - a mandatory probe
    that failed, a missing tool, a fault that escaped - leaves
    [src/config.h] exactly as it was before the run: the header is written
    only when every probe has completed. *)
Theorem failed_run_keeps_header fs0 launch :
  fst (process fs0 launch) <> 0 ->
  w_fs (snd (process fs0 launch)) !! config_path launch = fs0 !! config_path launch.
Proof.
  rewrite process_eq. cbn [fst snd]. intros Hcode.
  destruct (main_cases fs0 launch) as [(e & _ & _ & -> & _ & Hv)|[(e & _ & S)|(w4 & fs' & E & _)]].
  - done.
  - by eapply exit_handler_keeps_config.
  - by rewrite E in Hcode.
Qed.

(** C5: a run that exits with status 0 has written [src/config.h] as the
    preamble line followed by the lines of [GEN], in the order they were
    appended, each on a line of its own. *)
Theorem successful_run_writes_header fs0 launch :
  fst (process fs0 launch) = 0 ->
  w_fs (snd (process fs0 launch)) !! config_path launch =
    Some (NText (header_text (w_gen (snd (process fs0 launch))))).
Proof.
  rewrite process_eq. cbn [fst snd]. intros Hcode.
  destruct (main_cases fs0 launch) as [(e & E & _)|[(e & E & _)|(w4 & fs' & E & S & Hf)]];
    try (rewrite E in Hcode; exfalso; refine (main_raises _ e _ _ Hcode);
         rewrite (surjective_pairing (main _)), E; reflexivity).
  rewrite E. cbn [snd]. destruct S as (Hc & Hb & _ & _).
  cbn [w_atexit add_out set_fs]. rewrite Hb.
  rewrite keeps_gen_snd by apply keeps_gen_try_cleanup.
  rewrite try_cleanup_keeps_config by exact Hc. cbn.
  apply fs_create_inr in Hf as ->. apply lookup_insert_eq.
Qed.
End Process2.


(** C17: the exit status of a run is 0 or 1, on every host and from
    every file system: [exit] is only called with 1, and every uncaught
    fault exits with 1. *)
Theorem process_exit_status `{Host} fs0 launch : fst (process fs0 launch) = 0 \/ fst (process fs0 launch) = 1.
Proof.
  rewrite process_eq. cbn [fst].
  destruct (main (initial_world fs0 launch)) as [[[]|e] w] eqn:E; [by left|right].
  apply exits_nonzero_code. exact (main_exits _ _ _ E).
Qed.

(** ** A missing tool stops the run *)

Lemma for_each_app_Exc {A} (l1 l2 : list A) (f : A -> Py unit) w e w' :
  for_each l1 f w = (Exc e, w') -> for_each (l1 ++ l2) f w = (Exc e, w').
Proof.
  revert w. induction l1 as [|x l1 IH]; intros w; cbn [for_each app]; [done|].
  unfold bind. destruct (f x w) as [[[]|e'] w1]; [apply IH|done].
Qed.

Lemma keeps_gen_enter_workspace `{Host} : keeps_gen enter_workspace.
Proof.
  apply keeps_gen_bind; [|intros; apply keeps_gen_os_chdir].
  apply keeps_gen_catch; [apply keeps_gen_os_mkdir|intros; apply keeps_gen_ret].
Qed.

(** [check_bin] returns when the tool is found and exits with 1
    otherwise; either way [GEN] is untouched. *)
Lemma check_bin_outcome `{Host} name w : exists w',
  check_bin name w = (if which name then Ret tt else Exc (SystemExit 1), w') /\ w_gen w' = w_gen w.
Proof. unfold check_bin, shutil_which. cbn. destruct (which name); by eexists. Qed.

(** The checks of lines 205-209 stop at the first tool that is not on
    the [PATH], with [SystemExit(1)] and nothing recorded. *)
Lemma bin_checks_missing `{Host} names t w :
  t ∈ names -> which t = false ->
  exists w', for_each (map CheckBin names) run_call w = (Exc (SystemExit 1), w') /\ w_gen w' = w_gen w.
Proof.
  revert w. induction names as [|n names IH]; intros w Ht Hw; [by apply elem_of_nil in Ht|].
  cbn [map for_each run_call]. destruct (check_bin_outcome n w) as (w1 & E1 & Hg1).
  destruct (which n) eqn:Hn.
  - rewrite (bind_Ret _ _ _ _ _ E1). apply elem_of_cons in Ht as [->|Ht]; [congruence|].
    destruct (IH w1 Ht Hw) as (w' & E & Hg). exists w'. split; [exact E|]. by rewrite Hg.
  - rewrite (bind_Exc _ _ _ _ _ E1). by exists w1.
Qed.

(** C20: when one of [rm], [cp], [mkdir], [touch] and [gcc] is not on
    the [PATH], the run exits with status 1 and [GEN] stays empty: no
    probe after the tool checks records anything, whatever the file
    system and the rest of the host. *)
Theorem missing_tool_exits `{Host} fs0 launch t :
  t ∈ [u "rm"; u "cp"; u "mkdir"; u "touch"; u "gcc"] -> which t = false ->
  fst (process fs0 launch) = 1 /\ w_gen (snd (process fs0 launch)) = [].
Proof.
  intros Ht Hw. rewrite process_eq. cbn [fst snd].
  set (w0 := initial_world fs0 launch).
  assert (Hm : exists e w', main w0 = (Exc e, w') /\ w_gen w' = []).
  { unfold main. pose proof (keeps_gen_snd enter_workspace w0 keeps_gen_enter_workspace) as Hg1.
    destruct (enter_workspace w0) as [[[]|e] w1] eqn:E1; cbn [snd] in Hg1.
    - rewrite (bind_Ret _ _ _ _ _ E1).
      rewrite (bind_Ret _ _ _ _ _ (eq_refl : register_cleanup w1 = (Ret tt, set_atexit w1))).
      destruct (bin_checks_missing _ t (set_atexit w1) Ht Hw) as (w2 & E2 & Hg2).
      rewrite (bind_Exc _ _ _ _ _ (for_each_app_Exc _ (header_checks ++ feature_checks) _ _ _ _ E2)).
      eexists _, _. split; [reflexivity|]. by rewrite Hg2.
    - rewrite (bind_Exc _ _ _ _ _ E1). by eexists _, _. }
  destruct Hm as (e & w' & E & Hg). rewrite E. cbn [fst snd]. split.
  - apply exits_nonzero_code. exact (main_exits _ _ _ E).
  - destruct (w_atexit w'); [|exact Hg]. by rewrite keeps_gen_snd by apply keeps_gen_try_cleanup.
Qed.

(** ** [GEN] is an append-only log *)

(** The number of macro lines a call statement may record. *)
Definition records (c : call) : nat :=
  match c with CheckBin _ | CleanupFile _ => 0 | _ => 1 end.

(** C10: [GEN] is an append-only log, and each call statement of the
    script records at most one line: with any arguments, on every host,
    in every world and whether it returns or raises, [check_bin] and
    [cleanup_file] leave [GEN] alone and [check], [check_header] and
    [define_stdout] append at most one line to it, after the lines
    already there. *)
Theorem run_call_appends `{Host} c w :
  exists l, (length l <= records c)%nat /\ w_gen (snd (run_call c w)) = w_gen w ++ l.
Proof.
  revert w. destruct c; [apply check_bin_appends|apply check_header_appends|apply check_appends
                        |apply cleanup_file_appends|apply define_stdout_appends].
Qed.

(** ** The header has one line per recorded macro *)

(** The macro names of the check list are single lines. *)
Definition call_head_ok (c : call) : Prop :=
  match c with
  | CheckHeader head _ _ | Check head _ _ _ _ _ | DefineStdout head _ _ _ => head_ok head
  | _ => True
  end.

#[local] Instance call_head_ok_dec c : Decision (call_head_ok c).
Proof. destruct c; simpl; try apply _; destruct head; apply _. Defined.

Lemma checks_head_ok : Forall call_head_ok checks.
Proof. apply (bool_decide_unpack _). vm_compute. reflexivity. Qed.

(** A property of the lines of [GEN] that every call of the check list
    keeps holds of the whole run. *)
Lemma gen_all_main `{Host} P :
  (forall c, c ∈ checks -> preserves (gen_all P) (run_call c)) -> preserves (gen_all P) main.
Proof.
  intros Hc. unfold main, enter_workspace, register_cleanup, write_header.
  repeat match goal with
  | |- preserves _ (for_each _ _) => by apply preserves_for_each_Forall
  | |- preserves _ (bind _ _) => apply preserves_bind; intros
  | |- preserves _ _ => apply gen_all_keeps;
      first [solve [eauto with py] | solve [unfold try_pass; keeps_solve; eauto with py]]
  end.
Qed.

Lemma gen_all_process `{Host} P fs0 launch :
  (forall c, c ∈ checks -> preserves (gen_all P) (run_call c)) ->
  Forall P (w_gen (snd (process fs0 launch))).
Proof.
  intros Hc. rewrite process_eq. cbn [snd].
  assert (Hm : gen_all P (snd (main (initial_world fs0 launch)))) by (apply gen_all_main; [done|constructor]).
  destruct (w_atexit _); [|exact Hm].
  apply gen_all_keeps; [apply keeps_gen_try_cleanup|exact Hm].
Qed.

(** [check_bin] and [cleanup_file] leave [GEN] alone. *)
Lemma gen_all_check_bin `{Host} P name : preserves (gen_all P) (check_bin name).
Proof. apply gen_all_keeps. unfold check_bin, shutil_which. keeps_solve. Qed.

Lemma gen_all_cleanup_file `{Host} P p : preserves (gen_all P) (cleanup_file p).
Proof. apply gen_all_keeps. unfold cleanup_file, try_pass. keeps_solve; apply keeps_gen_os_remove. Qed.

(** C15: every line a run records in [GEN] is a single line, on every
    host: the macro names of the script are single lines and the value
    of [define_stdout] goes through [repr], which escapes a line
    break. *)
Theorem process_gen_single `{Host} fs0 launch :
  Forall no_nl (w_gen (snd (process fs0 launch))).
Proof.
  apply gen_all_process. intros c Hc.
  pose proof (proj1 (Forall_forall _ _) checks_head_ok c Hc) as Hok.
  destruct c; simpl in *; auto using gen_all_check_bin, gen_all_cleanup_file,
    gen_single_check_header, gen_single_check, gen_single_define_stdout.
Qed.

(** C18: every line a run records in [GEN] is a preprocessor directive
    [#define ...] or a commented-out [//#define ...], on every host:
    [config.h] holds nothing else after its preamble. *)
Theorem process_gen_macro `{Host} fs0 launch :
  Forall macro_line (w_gen (snd (process fs0 launch))).
Proof.
  apply gen_all_process. intros c _.
  destruct c; simpl; auto using gen_all_check_bin, gen_all_cleanup_file,
    gen_macro_check_header, gen_macro_check, gen_macro_define_stdout.
Qed.

Lemma split_on_line sep a b : sep ∉ a -> split_on sep (a ++ sep :: b) = a :: split_on sep b.
Proof.
  induction a as [|c a IH]; intros Ha; simpl; [by rewrite Z.eqb_refl|].
  apply not_elem_of_cons in Ha as [Hc Ha]. rewrite (proj2 (Z.eqb_neq c sep)) by congruence. by rewrite IH.
Qed.

Lemma split_on_join sep gen :
  Forall (fun l => sep ∉ l) gen -> gen <> [] -> split_on sep (join [sep] gen ++ [sep]) = gen ++ [[]].
Proof.
  induction 1 as [|x gen Hx Hgen IH]; intros Hne; [done|].
  destruct gen as [|y gen'].
  - simpl. by rewrite split_on_line.
  - rewrite join_cons by done. rewrite <-!app_assoc. cbn [app]. rewrite split_on_line by done.
    by rewrite IH.
Qed.

(** C16: the text written to [config.h] reads back line by line as the
    preamble and then the lines of [GEN] in order, when these are single
    lines and there is at least one. *)
Theorem header_text_lines gen :
  Forall no_nl gen -> gen <> [] -> split_on c_nl (header_text gen) = preamble :: gen ++ [[]].
Proof.
  intros Hg Hne. unfold header_text. cbn [app].
  rewrite split_on_line by (apply (bool_decide_unpack _); vm_compute; reflexivity).
  by rewrite split_on_join.
Qed.

(** ** Concrete runs *)

(** A project root with a [src] directory and nothing else. *)
Definition demo_fs : fsmap := {[ [u "src"] := NDir ]}.

Lemma failed_run_keeps_header_witness :
  let H := demo_host 1 0 in
  fst (process demo_fs []) <> 0 /\
  w_fs (snd (process demo_fs [])) !! config_path [] = demo_fs !! config_path [].
Proof.
  split; [vm_compute; discriminate|].
  apply (@failed_run_keeps_header (demo_host 1 0)). vm_compute. discriminate.
Defined.


Lemma successful_run_writes_header_witness :
  let H := demo_host 0 0 in
  fst (process demo_fs []) = 0 /\
  w_fs (snd (process demo_fs [])) !! config_path [] =
    Some (NText (header_text (w_gen (snd (process demo_fs []))))).
Proof.
  split; [vm_compute; reflexivity|].
  apply (@successful_run_writes_header (demo_host 0 0)). vm_compute. reflexivity.
Defined.

(** ** Runs on hosts where some compilations fail *)

(** A host on which every tool is found and every probe binary exits 0,
    and the compiler rejects exactly the translation units [bad] picks. *)
Definition failing_host (msys2 : bool) (bad : list (option str) -> bool) : Host := {|
  environ := if msys2 then {[ u "MSYSTEM" := u "MINGW64" ]} else ∅;
  which := fun _ => true;
  cc := fun _ srcs _ => if bad srcs then (1, u "fatal error") else (0, []);
  exec := fun _ => (0, []);
  sh := fun _ => (0, u "x86_64" ++ [c_nl]);
  tool := fun _ _ => mkCompleted 0 [] [];
  isprintable := fun _ => true
|}.

(** The header probe of [header] does not compile. *)
Definition missing_header (header : str) (srcs : list (option str)) : bool :=
  bool_decide (srcs = [Some (header_source header)]).

(** Every header compiles, no [check] program does: the source of a
    header probe is the only one that ends in four spaces. *)
Definition no_features (srcs : list (option str)) : bool :=
  match srcs with [Some s] => negb (endswith s (u "    ")) | _ => true end.

(** A concrete run of the finding that [C3] proves in general: on one
    host without [curl/urlapi.h], one of [REQUIRED_HEADERS], the run
    exits with status 0 and [src/config.h] is written. *)
Example missing_required_header_run :
  let H := failing_host false (missing_header (u "curl/urlapi.h")) in
  (u "curl/urlapi.h") ∈ REQUIRED_HEADERS /\
  fst (header_cc (u "curl/urlapi.h")) <> 0 /\
  fst (process demo_fs []) = 0 /\
  is_Some (w_fs (snd (process demo_fs [])) !! config_path []).
Proof. vm_compute. split; [|split; [discriminate|split; [reflexivity|eexists; reflexivity]]]. set_solver. Qed.

(** A concrete run of the exit handler after an abort: it removes
    [./test] but not [./test.exe].  When the first [check] of these
    hosts fails to compile, the run exits with 1; on the POSIX host the
    scratch directory is then gone, on the MSYS2 host the [test.exe] that
    the last [check_header] built is left in it, [os.rmdir] fails and
    [configure] stays behind. *)
Example abort_cleanup_run :
  (let H := failing_host false no_features in
   fst (process demo_fs []) = 1 /\ w_fs (snd (process demo_fs [])) !! [u "configure"] = None) /\
  (let H := failing_host true no_features in
   fst (process demo_fs []) = 1 /\ w_fs (snd (process demo_fs [])) !! [u "configure"] = Some NDir /\
   w_fs (snd (process demo_fs [])) !! [u "configure"; u "test.exe"] =
     Some (NExe (header_image (u "curl/urlapi.h")))).
Proof. vm_compute. repeat split. Qed.

(** The scratch directory after a run whose last probe was a header:
    [test.c] and [test] are left in it. *)
Definition leftover_world : world :=
  mkWorld (<[[u "configure"; test_bin] := NExe (header_image (u "stdio.h"))]>
            (<[[u "configure"; test_c] := NText (header_source (u "stdio.h"))]>
              {[ [u "configure"] := NDir ]}))
          [u "configure"] [] [] true [].

Lemma try_cleanup_removes_workspace_witness :
  let H := demo_host 0 0 in
  w_fs (snd (try_cleanup leftover_world)) !! configure_dir [] = None /\
  w_cwd (snd (try_cleanup leftover_world)) = [].
Proof.
  apply (@try_cleanup_removes_workspace (demo_host 0 0) [] leftover_world).
  - intros p n Hp. cbn in Hp.
    repeat (apply lookup_insert_Some in Hp as [[<- <-]|[_ Hp]]; [split; [done|reflexivity]|]).
    apply lookup_singleton_Some in Hp as [<- <-]. split; [done|reflexivity].
  - reflexivity.
  - reflexivity.
  - intros q n Hq Hr. cbn in Hq.
    repeat (apply lookup_insert_Some in Hq as [[<- <-]|[_ Hq]];
            [split; [discriminate|unfold artifacts; set_solver]|]).
    apply lookup_singleton_Some in Hq as [<- <-]. discriminate.
Defined.

Lemma header_text_lines_witness :
  Forall no_nl [undef_line (u "HAVE_STRTOIMAX"); u "#define COMPILER_ARCH 'x86_64'"] /\
  [undef_line (u "HAVE_STRTOIMAX"); u "#define COMPILER_ARCH 'x86_64'"] <> [] /\
  split_on c_nl (header_text [undef_line (u "HAVE_STRTOIMAX"); u "#define COMPILER_ARCH 'x86_64'"]) =
    preamble :: [undef_line (u "HAVE_STRTOIMAX"); u "#define COMPILER_ARCH 'x86_64'"] ++ [[]].
Proof.
  assert (Hf : Forall no_nl [undef_line (u "HAVE_STRTOIMAX"); u "#define COMPILER_ARCH 'x86_64'"])
    by (apply (bool_decide_unpack _); vm_compute; reflexivity).
  split; [exact Hf|split; [discriminate|]].
  apply header_text_lines; [exact Hf|discriminate].
Defined.

(** A POSIX host on which [tool] is not on the [PATH]. *)
Definition host_without (tool : str) : Host := {|
  environ := ∅;
  which := fun n => negb (bool_decide (n = tool));
  cc := fun _ _ _ => (0, []);
  exec := fun _ => (0, []);
  sh := fun _ => (0, u "x86_64" ++ [c_nl]);
  tool := fun _ _ => mkCompleted 0 [] [];
  isprintable := fun _ => true
|}.

Lemma missing_tool_exits_witness :
  let H := host_without (u "touch") in
  u "touch" ∈ [u "rm"; u "cp"; u "mkdir"; u "touch"; u "gcc"] /\ which (u "touch") = false /\
  fst (process demo_fs []) = 1 /\ w_gen (snd (process demo_fs [])) = [].
Proof.
  assert (Ht : u "touch" ∈ [u "rm"; u "cp"; u "mkdir"; u "touch"; u "gcc"]) by set_solver.
  split; [exact Ht|split; [reflexivity|]].
  exact (@missing_tool_exits (host_without (u "touch")) demo_fs [] (u "touch") Ht eq_refl).
Defined.
