(* ===== verification/Lifecycle.v ===== *)
(** * The exit handler of [configure.py]

    Line 198 registers [try_cleanup] with [atexit]; the interpreter runs
    it once, after the module body, whichever way the body ends.  The
    world's flag [w_atexit] is the registration and [Script.process]
    runs the handler when the flag is set.  This file shows that no call
    of the script but [atexit.register] touches the flag ([keeps_atexit],
    by the [monotone] rules of the prelude for the relation [on_rel eq
    w_atexit]); hence that once the scratch directory is entered the
    handler runs on every end of the body: a return, the [SystemExit] of
    a mandatory probe, an uncaught fault; and that a run whose
    [os.chdir("./configure")] fails ends with status 1 before line 198,
    so no handler runs. *)

From S2P Require Import Prelude PyStr Utf8 Fs Interp Probes ProbeLogic Script.

Open Scope Z_scope.

(** [m] leaves the registration of the exit handler as it found it. *)
Abbreviation keeps_atexit m := (keeps w_atexit m).

Create HintDb atexit discriminated.

Ltac atexit_solve :=
  repeat (intros; first [solve [eauto 2 with atexit] | solve [eauto 2 with field] | field_step]).

Section KeepsAtexitProbes.
Context `{H : Host}.

Lemma keeps_atexit_run argv : keeps_atexit (run argv).
Proof. unfold run, run_file, run_gcc. atexit_solve. Qed.

#[local] Hint Resolve keeps_atexit_run : atexit.

Lemma keeps_atexit_run_call c : keeps_atexit (run_call c).
Proof.
  destruct c; simpl;
    unfold check_bin, shutil_which, check_header, check_header_try, check, check_try,
      check_error, define_stdout, cleanup_file; atexit_solve.
Qed.

Lemma keeps_atexit_enter_workspace : keeps_atexit enter_workspace.
Proof. unfold enter_workspace. atexit_solve. Qed.

Lemma keeps_atexit_write_header : keeps_atexit write_header.
Proof. unfold write_header. atexit_solve. Qed.
End KeepsAtexitProbes.

#[export] Hint Resolve keeps_atexit_run keeps_atexit_run_call keeps_atexit_enter_workspace keeps_atexit_write_header : atexit.

Section Handler.
Context `{H : Host}.

(** What the module body does after [os.chdir("./configure")]: line
    198, the probes, the header, the last message. *)
Definition after_workspace : Py unit :=
  register_cleanup ;;
  for_each checks run_call ;;
  write_header ;;
  println (u "CONFIGURE COMPLETE! You should be ready to build").

Lemma main_enter w0 :
  main w0 = match enter_workspace w0 with
            | (Ret _, w1) => after_workspace w1
            | (Exc e, w1) => (Exc e, w1)
            end.
Proof. unfold main, bind at 1. by destruct (enter_workspace w0) as [[]]. Qed.

(** After line 198 the handler stays registered to the end of the body. *)
Lemma after_workspace_registers w : w_atexit (snd (after_workspace w)) = true.
Proof.
  unfold after_workspace, register_cleanup, bind at 1. cbn [modify].
  rewrite (keeps_snd w_atexit) by atexit_solve. reflexivity.
Qed.

(** Entering the scratch directory prints nothing. *)
Lemma keeps_out_enter_workspace w : w_out (snd (enter_workspace w)) = w_out w.
Proof.
  symmetry. revert w. change (monotone (on_rel (@eq (list str)) w_out) enter_workspace).
  unfold enter_workspace, try_pass, os_mkdir, os_chdir, lift_errno. repeat (intros; mono_step).
Qed.

(** [os.chdir("./configure")] raises only an [OSError]. *)
Lemma enter_workspace_raises : raises_only fault enter_workspace.
Proof. unfold enter_workspace. auto with py. Qed.
(** C22: the exit handler registered at line 198 runs on every end of
    the module body.  Once [os.chdir("./configure")] has succeeded, the
    handler is still registered when the body ends - by a return, by the
    [SystemExit(1)] of a mandatory probe or by an uncaught fault - and the
    run is the body's exit status followed by exactly one run of
    [try_cleanup] on the world the body left. *)
Theorem exit_handler_runs fs0 launch w1 :
  enter_workspace (initial_world fs0 launch) = (Ret tt, w1) ->
  w_atexit (snd (main (initial_world fs0 launch))) = true /\
  process fs0 launch =
    (exit_code (fst (main (initial_world fs0 launch))),
     snd (try_cleanup (snd (main (initial_world fs0 launch))))).
Proof.
  intros He.
  assert (Hat : w_atexit (snd (main (initial_world fs0 launch))) = true).
  { rewrite main_enter, He. apply after_workspace_registers. }
  split; [exact Hat|]. rewrite process_eq. cbv zeta. by rewrite Hat.
Qed.

(** C23: a run whose [os.chdir("./configure")] fails ends before line
    198: the exit status is 1, the handler was never registered and does
    not run, and nothing was printed or recorded in [GEN]. *)
Theorem workspace_failure_skips_handler fs0 launch e w1 :
  enter_workspace (initial_world fs0 launch) = (Exc e, w1) ->
  process fs0 launch = (1, w1) /\ w_atexit w1 = false /\ w_out w1 = [] /\ w_gen w1 = [].
Proof.
  intros He. pose proof (f_equal snd He) as Hw. simpl in Hw.
  assert (Hf : fault e) by exact (enter_workspace_raises _ _ _ He).
  unfold process. rewrite main_enter, He, <- Hw.
  rewrite (keeps_snd w_atexit) by apply keeps_atexit_enter_workspace.
  split; [f_equal; unfold fault in Hf; by destruct e|split; [done|]].
  by rewrite keeps_out_enter_workspace, (keeps_gen_snd _ _ keeps_gen_enter_workspace).
Qed.
End Handler.

(** ** Concrete runs *)

(** A run on a host whose compiler rejects everything: the first
    mandatory [check] exits, and the handler still runs. *)
Lemma exit_handler_runs_witness :
  let H := demo_host 1 0 in
  enter_workspace (initial_world demo_fs []) =
    (Ret tt, snd (enter_workspace (initial_world demo_fs []))) /\
  w_atexit (snd (main (initial_world demo_fs []))) = true /\
  process demo_fs [] =
    (exit_code (fst (main (initial_world demo_fs []))),
     snd (try_cleanup (snd (main (initial_world demo_fs []))))).
Proof.
  intros H. split; [vm_compute; reflexivity|].
  apply (exit_handler_runs demo_fs [] (snd (enter_workspace (initial_world demo_fs [])))).
  vm_compute. reflexivity.
Defined.

(** A project whose [configure] is a regular file: [os.mkdir] fails
    with [EEXIST], which is passed over, and [os.chdir] with
    [ENOTDIR]. *)
Definition blocked_fs : fsmap := <[ [u "configure"] := NText [] ]> demo_fs.

Lemma workspace_failure_skips_handler_witness :
  let H := demo_host 0 0 in
  let w1 := snd (enter_workspace (initial_world blocked_fs [])) in
  enter_workspace (initial_world blocked_fs []) = (Exc (OSError ENOTDIR), w1) /\
  process blocked_fs [] = (1, w1) /\ w_atexit w1 = false /\ w_out w1 = [] /\ w_gen w1 = [].
Proof.
  intros H w1. split; [vm_compute; reflexivity|].
  apply (workspace_failure_skips_handler blocked_fs [] (OSError ENOTDIR)).
  vm_compute. reflexivity.
Defined.
