(* ===== verification/Processes.v ===== *)
(** * The processes a run of [configure.py] starts

    Every [subprocess.run] that finds its program starts a process and
    waits for it; the world's log [w_procs] records the command line of
    each, in order ([Interp.started]).  The specification bounds them:
    probes run one at a time in the declared order, and each performs at
    most two blocking external operations, a compilation and, only if it
    succeeds, one run of the binary.  This file gives the commands each
    call statement may start ([allowed]), the program logic that tracks
    them ([exact] for a call that starts exactly its list when it
    returns, [within] for one that starts a prefix of it), and proves that
    the log of a whole run is, call by call in the order of the check
    list, a prefix of what the call may start, hence its length bound. *)

From S2P Require Import Prelude PyStr Utf8 Fs Interp Probes ProbeLogic Script.

Open Scope Z_scope.

(** ** The logic *)

(** [m] starts a prefix of [L]: all of it when it returns, part of it
    when it raises. *)
Definition exact {A} (L : list (list str)) (m : Py A) : Prop :=
  forall w, match m w with
            | (Ret _, w') => w_procs w' = w_procs w ++ L
            | (Exc _, w') => exists l, l `prefix_of` L /\ w_procs w' = w_procs w ++ l
            end.

(** The processes [m] starts, however it ends, form a log in [P]. *)
Definition logs {A} (P : list (list str) -> Prop) (m : Py A) : Prop :=
  forall w, exists l, P l /\ w_procs (snd (m w)) = w_procs w ++ l.

(** [m] starts a prefix of [L], however it ends. *)
Definition within {A} (L : list (list str)) (m : Py A) : Prop := logs (fun l => l `prefix_of` L) m.

Section Logic.
Context `{H : Host}.

Lemma logs_bind_keeps_l {A B} P (m : Py A) (k : A -> Py B) :
  keeps w_procs m -> (forall a, logs P (k a)) -> P [] -> logs P (bind m k).
Proof.
  intros Hm Hk Hnil w. pose proof (keeps_snd w_procs m w Hm) as Hw. unfold bind.
  destruct (m w) as [[a|e] w']; simpl in *; [by rewrite <- Hw; apply Hk|].
  exists []. by rewrite Hw, app_nil_r.
Qed.

Lemma logs_bind_keeps_r {A B} P (m : Py A) (k : A -> Py B) :
  logs P m -> (forall a, keeps w_procs (k a)) -> logs P (bind m k).
Proof.
  intros Hm Hk w. destruct (Hm w) as (l & Hl & Hw). exists l. split; [done|]. unfold bind.
  destruct (m w) as [[a|e] w']; simpl in *; [|done]. by rewrite (keeps_snd w_procs), Hw.
Qed.

Lemma within_keeps {A} L (m : Py A) : keeps w_procs m -> within L m.
Proof.
  intros Hm w. exists []. split; [apply prefix_nil|]. by rewrite (keeps_snd w_procs), app_nil_r.
Qed.

Lemma exact_keeps {A} (m : Py A) : keeps w_procs m -> exact [] m.
Proof.
  intros Hm w. pose proof (keeps_snd w_procs m w Hm) as Hw.
  destruct (m w) as [[a|e] w']; simpl in Hw; [by rewrite Hw, app_nil_r|].
  exists []. split; [apply prefix_nil|]. by rewrite Hw, app_nil_r.
Qed.

(** A sequence whose first part starts exactly [L1] when it returns. *)
Lemma within_bind {A B} L1 L2 (m : Py A) (k : A -> Py B) :
  exact L1 m -> (forall a, within L2 (k a)) -> within (L1 ++ L2) (bind m k).
Proof.
  intros Hm Hk w. specialize (Hm w). unfold bind.
  destruct (m w) as [[a|e] w'].
  - destruct (Hk a w') as (l & Hl & Hw). exists (L1 ++ l). split; [by apply prefix_app|].
    by rewrite Hw, Hm, app_assoc.
  - destruct Hm as (l & Hl & Hw). exists l. split; [by apply prefix_app_r|done].
Qed.

Lemma within_bind_keeps {A B} L (m : Py A) (k : A -> Py B) :
  keeps w_procs m -> (forall a, within L (k a)) -> within L (bind m k).
Proof. intros Hm Hk. apply (within_bind [] L); [by apply exact_keeps|exact Hk]. Qed.

(** A [try] whose handlers start nothing. *)
Lemma within_catch {A} L (m : Py A) h :
  within L m -> (forall e, keeps w_procs (h e)) -> within L (catch m h).
Proof.
  intros Hm Hh w. destruct (Hm w) as (l & Hl & Hw). exists l. split; [done|].
  unfold catch. destruct (m w) as [[a|e] w']; simpl in *; [done|].
  by rewrite (keeps_snd w_procs), Hw.
Qed.

(** [subprocess.run(argv)] starts [argv] exactly when it returns. *)
Lemma exact_run argv : exact [argv] (run argv).
Proof.
  intros w. unfold run. destruct argv as [|prog args]; [exists []; split; [apply prefix_nil|by rewrite app_nil_r]|].
  assert (Hn : exists l, l `prefix_of` [prog :: args] /\ w_procs w = w_procs w ++ l)
    by (exists []; split; [apply prefix_nil|by rewrite app_nil_r]).
  destruct (bool_decide (c_slash ∈ prog)).
  - unfold run_file, started, bind, get, modify. cbv beta iota.
    destruct (fs_lookup _ _) as [[]|]; try exact Hn.
    destruct (exec _) as [rc created].
    pose proof (keeps_snd w_procs (for_each created touch) (add_proc (prog :: args) w)
                  ltac:(field_solve)) as Hf.
    destruct (for_each created touch _) as [[]] eqn:E; simpl in *; [by rewrite Hf|].
    exists [prog :: args]. by rewrite Hf.
  - destruct (negb (which prog)); [exact Hn|].
    unfold started, bind, modify. cbv beta iota.
    destruct (bool_decide (prog = u "gcc")).
    + pose proof (keeps_snd w_procs (run_gcc args) (add_proc (prog :: args) w)
                    ltac:(unfold run_gcc; field_solve)) as Hf.
      destruct (run_gcc args _) as [[]] eqn:E; simpl in *; [by rewrite Hf|].
      exists [prog :: args]. by rewrite Hf.
    + unfold ret. repeat case_match; simplify_eq/=; done.
Qed.

Lemma within_run_bind {B} argv L (k : completed -> Py B) :
  (forall r, within L (k r)) -> within (argv :: L) (bind (run argv) k).
Proof. intros Hk. apply (within_bind [argv] L); [apply exact_run|exact Hk]. Qed.
End Logic.

(** Take a probe apart: the steps that start nothing, then each
    [subprocess.run] in turn. *)
Ltac within_solve :=
  repeat (intros; first
    [ solve [apply within_keeps; field_solve]
    | apply within_run_bind
    | apply within_bind_keeps; [solve [field_solve]|]
    | apply within_catch; [|solve [field_solve]]
    | progress case_match ]).

(** ** What each call statement may start *)

Section Allowed.
Context `{H : Host}.

(** [check] compiles, then runs the binary; [check_header] and
    [define_stdout] start one process; [check_bin] and [cleanup_file]
    none ([shutil.which] only searches the [PATH]). *)
Definition allowed (c : call) : list (list str) :=
  match c with
  | CheckBin _ | CleanupFile _ => []
  | CheckHeader _ _ _ => [header_argv]
  | Check _ _ _ _ _ link => [check_argv link; [check_exe]]
  | DefineStdout _ _ cmd _ => [[u "bash"; u "-c"; cmd]]
  end.

Lemma within_check head feat headers example mandatory link :
  within [check_argv link; [check_exe]] (check head feat headers example mandatory link).
Proof. unfold check, check_try, check_error. within_solve. Qed.

Lemma within_check_header head header mandatory :
  within [header_argv] (check_header head header mandatory).
Proof. unfold check_header, check_header_try. within_solve. Qed.

Lemma within_define_stdout head name cmd mandatory :
  within [[u "bash"; u "-c"; cmd]] (define_stdout head name cmd mandatory).
Proof. unfold define_stdout. within_solve. Qed.

Lemma within_run_call c : within (allowed c) (run_call c).
Proof.
  destruct c; simpl;
    [apply within_keeps; unfold check_bin, shutil_which; field_solve
    |apply within_check_header|apply within_check
    |apply within_keeps; unfold cleanup_file; field_solve|apply within_define_stdout].
Qed.

(** The log of a loop over call statements: one prefix of [allowed c]
    per call [c], in the order of the list. *)
Definition ordered_log (cs : list call) (log : list (list str)) : Prop :=
  exists ps, Forall2 (fun c p => p `prefix_of` allowed c) cs ps /\ log = concat ps.

Lemma ordered_log_nil cs : ordered_log cs [].
Proof.
  exists (map (fun _ => []) cs). split; [|by induction cs].
  induction cs; constructor; [apply prefix_nil|done].
Qed.

Lemma ordered_log_cons c cs p log :
  p `prefix_of` allowed c -> ordered_log cs log -> ordered_log (c :: cs) (p ++ log).
Proof. intros Hp (ps & Hps & ->). exists (p :: ps). split; [by constructor|done]. Qed.

Lemma for_each_ordered cs : logs (ordered_log cs) (for_each cs run_call).
Proof.
  induction cs as [|c cs IH]; intros w.
  - exists []. split; [apply ordered_log_nil|by rewrite app_nil_r].
  - destruct (within_run_call c w) as (p & Hp & Hw). cbn [for_each]. unfold bind.
    destruct (run_call c w) as [[a|e] w']; simpl in Hw |- *.
    + destruct (IH w') as (log & Hlog & Hw'). exists (p ++ log).
      split; [by apply ordered_log_cons|]. by rewrite Hw', Hw, app_assoc.
    + exists (p ++ []). split; [apply ordered_log_cons; [done|apply ordered_log_nil]|].
      by rewrite app_nil_r.
Qed.
(** The module body: entering the scratch directory and registering the
    handler start nothing, then the loop, then the header and the last
    message start nothing. *)
Lemma main_ordered : logs (ordered_log checks) main.
Proof.
  unfold main.
  apply logs_bind_keeps_l; [unfold enter_workspace; field_solve| |apply ordered_log_nil]. intros _.
  apply logs_bind_keeps_l; [unfold register_cleanup; field_solve| |apply ordered_log_nil]. intros _.
  apply logs_bind_keeps_r; [apply for_each_ordered|]. intros _. unfold write_header. field_solve.
Qed.

Lemma ordered_log_length cs log :
  ordered_log cs log -> (length log <= sum_list_with (fun c => length (allowed c)) cs)%nat.
Proof.
  intros (ps & Hps & ->). induction Hps as [|c p cs ps Hp Hps IH]; simpl; [lia|].
  rewrite length_app. apply prefix_length in Hp. lia.
Qed.
End Allowed.

(** ** The processes of a run *)

Lemma process_log_ordered `{Host} fs0 launch :
  ordered_log checks (w_procs (snd (process fs0 launch))).
Proof.
  rewrite process_eq. cbv zeta.
  destruct (main_ordered (initial_world fs0 launch)) as (log & Hlog & Hw).
  cbn [w_procs initial_world app] in Hw.
  destruct (w_atexit _); cbn [snd]; [rewrite (keeps_snd w_procs try_cleanup) by (unfold try_cleanup; field_solve)|];
    by rewrite Hw.
Qed.

(** C24: the processes a run starts, on every host and from every file
    system, come call by call in the order of the script, and each call
    starts a prefix of what it may: [check] the compiler and then its
    binary, [check_header] the compiler, [define_stdout] [bash -c], the
    other calls nothing; the exit handler starts nothing. *)
Theorem process_procs_ordered `{Host} fs0 launch :
  ordered_log checks (w_procs (snd (process fs0 launch))).
Proof. apply process_log_ordered. Qed.

Lemma checks_allowed_length `{Host} : sum_list_with (fun c => length (allowed c)) checks = 35%nat.
Proof. vm_compute. reflexivity. Qed.

(** C25: a run of the script starts at most 35 processes, on every host
    and from every file system: 12 probes of [check] start at most two,
    the 10 required headers one each, [define_stdout] one. *)
Theorem process_procs_bound `{Host} fs0 launch :
  (length (w_procs (snd (process fs0 launch))) <= 35)%nat.
Proof.
  rewrite <- checks_allowed_length. apply ordered_log_length, process_log_ordered.
Qed.

Section CheckProcs.
Context `{H : Host} (Hposix : host_msys2 = false) (Hgcc : which (u "gcc") = true).

(** C26: on a POSIX host whose working directory can hold [test.c] and
    [test], [check] starts the compiler, and starts its binary [./test]
    exactly when the compiler returned 0, whatever the binary then does
    and whether the probe is mandatory. *)
Theorem check_runs_binary_after_compile head feat headers example mandatory link w rc_cc err rc_run
    created :
  fs_lookup (w_fs w) (w_cwd w) = Some NDir ->
  w_fs w !! (w_cwd w ++ [test_c]) <> Some NDir ->
  w_fs w !! (w_cwd w ++ [test_bin]) <> Some NDir ->
  check_cc headers example link = (rc_cc, err) ->
  exec (check_image headers example link) = (rc_run, created) ->
  w_procs (snd (check head feat headers example mandatory link w)) =
    w_procs w ++ check_argv link :: (if rc_cc =? 0 then [[u "./test"]] else []).
Proof.
  intros Hcwd Hc Hb Hcc Hex. rewrite <- (check_exe_posix Hposix).
  by edestruct (check_steps Hposix Hgcc head feat headers example mandatory link w rc_cc err rc_run
                  created Hcwd Hc Hb Hcc Hex) as (_ & _ & ->).
Qed.
End CheckProcs.

(** ** Concrete runs *)

(** [HAVE_STRTOIMAX] on a host whose compiler rejects it: [gcc] runs,
    the binary does not. *)
Lemma check_runs_binary_after_compile_witness :
  let H := demo_host 1 0 in
  w_procs (snd (check (Some (u "HAVE_STRTOIMAX")) (u "strtoimax can be used") [u "inttypes.h"]
                  (u "return 1;") false [] demo_world)) =
    w_procs demo_world ++ [check_argv []].
Proof.
  exact (@check_runs_binary_after_compile (demo_host 1 0) eq_refl eq_refl (Some (u "HAVE_STRTOIMAX"))
           (u "strtoimax can be used") [u "inttypes.h"] (u "return 1;") false [] demo_world
           1 (u "undefined reference") 0 [] ltac:(vm_compute; congruence)
           ltac:(vm_compute; congruence) ltac:(vm_compute; congruence) eq_refl eq_refl).
Defined.
